(** * ScreenProcessing: the scoring pipeline of [process_experiments.py]

    A shallow embedding of the count loader and merger, the low-count
    filter, the phenotype scorer, the replicate averager, the pseudogene
    stage, the gene aggregator, the fasta reader and the effect size label of
    [screen_analysis.py], followed by the properties proved about them.

    Numbers.  The tables hold numpy [float64] values.  They are modelled as
    real numbers extended with the two infinities and with NaN, the value
    pandas uses for "missing"; rounding is not modelled.  Merged read counts
    are [int64] and are modelled as [Z] with the wrap-around written out. *)

From Stdlib Require Import Reals Lra Lia ZArith List String Ascii Bool.
From Stdlib Require Import Permutation Sorted DecimalString.
From Stdlib Require OrderedTypeEx DecimalZ.
Import ListNotations.

Set Implicit Arguments.

(** ** Python results: a value or a raised exception *)

Inductive exn : Type :=
| ValueError (msg : string)
| IndexError (msg : string)
| KeyError (msg : string).

Inductive result (A : Type) : Type :=
| Ok (a : A)
| Raise (e : exn).

Arguments Ok {A} a.
Arguments Raise {A} e.

Definition rbind {A B} (m : result A) (k : A -> result B) : result B :=
  match m with
  | Ok a => k a
  | Raise e => Raise e
  end.

Fixpoint rmap {A B} (f : A -> result B) (l : list A) : result (list B) :=
  match l with
  | [] => Ok []
  | x :: xs =>
      rbind (f x) (fun y => rbind (rmap f xs) (fun ys => Ok (y :: ys)))
  end.

(** ** float64 values *)

Module Np.

Local Open Scope R_scope.

(** [Inf false] is +inf, [Inf true] is -inf. *)
Inductive float64 : Type :=
| Fin (r : R)
| Inf (neg : bool)
| NaN.

Definition Rltb (a b : R) : bool := if Rlt_dec a b then true else false.
Definition Reqb (a b : R) : bool := if Req_dec_T a b then true else false.

Definition isnan (x : float64) : bool :=
  match x with NaN => true | _ => false end.

Definition neg (x : float64) : float64 :=
  match x with
  | Fin a => Fin (- a)
  | Inf s => Inf (negb s)
  | NaN => NaN
  end.

Definition add (x y : float64) : float64 :=
  match x, y with
  | NaN, _ | _, NaN => NaN
  | Fin a, Fin b => Fin (a + b)
  | Fin _, Inf s | Inf s, Fin _ => Inf s
  | Inf s, Inf t => if Bool.eqb s t then Inf s else NaN
  end.

Definition sub (x y : float64) : float64 := add x (neg y).

Definition mul (x y : float64) : float64 :=
  match x, y with
  | NaN, _ | _, NaN => NaN
  | Fin a, Fin b => Fin (a * b)
  | Fin a, Inf s | Inf s, Fin a =>
      if Rltb 0 a then Inf s else if Rltb a 0 then Inf (negb s) else NaN
  | Inf s, Inf t => Inf (xorb s t)
  end.

(** Division by a zero divisor follows numpy: a signed infinity, or NaN for
    0/0 (the zero is taken to be the positive one, as a count is). *)
Definition div (x y : float64) : float64 :=
  match x, y with
  | NaN, _ | _, NaN => NaN
  | Fin a, Fin b =>
      if Reqb b 0
      then (if Rltb 0 a then Inf false else if Rltb a 0 then Inf true else NaN)
      else Fin (a / b)
  | Fin _, Inf _ => Fin 0
  | Inf s, Fin b => if Rltb b 0 then Inf (negb s) else Inf s
  | Inf _, Inf _ => NaN
  end.

Definition Rlog2 (x : R) : R := ln x / ln 2.

(** [np.log2] *)
Definition log2 (x : float64) : float64 :=
  match x with
  | Fin a => if Rltb 0 a then Fin (Rlog2 a)
             else if Reqb a 0 then Inf true else NaN
  | Inf false => Inf false
  | Inf true => NaN
  | NaN => NaN
  end.

(** [abs] *)
Definition abs (x : float64) : float64 :=
  match x with
  | Fin a => Fin (Rabs a)
  | Inf _ => Inf false
  | NaN => NaN
  end.

(** [x < y]; every comparison with NaN is false. *)
Definition lt (x y : float64) : bool :=
  match x, y with
  | NaN, _ | _, NaN => false
  | Fin a, Fin b => Rltb a b
  | Fin _, Inf s => negb s
  | Inf s, Fin _ => s
  | Inf s, Inf t => s && negb t
  end.

(** [x == y] *)
Definition eq (x y : float64) : bool :=
  match x, y with
  | Fin a, Fin b => Reqb a b
  | Inf s, Inf t => Bool.eqb s t
  | _, _ => false
  end.

(** [x <= y] *)
Definition le (x y : float64) : bool := lt x y || eq x y.

(** [x != y]: true as soon as one side is NaN. *)
Definition ne (x y : float64) : bool := negb (eq x y).

Definition of_Z (z : Z) : float64 := Fin (IZR z).
Definition of_nat (n : nat) : float64 := Fin (INR n).

(** [np.mean] of a sequence: the sum over the length; NaN on an empty one. *)
Definition sum (l : list float64) : float64 := fold_left add l (Fin 0).
Definition mean (l : list float64) : float64 :=
  div (sum l) (of_nat (List.length l)).

End Np.

Import Np.

(** ** Python built-ins *)

Module Py.

Section ListSort.

Variable A : Type.
(** [lt x y] is the answer of [x < y], the only comparison the sort asks. *)
Variable lt : A -> A -> bool.

(** [min(row)] and [max(row)] on a non-empty sequence: the first element is
    kept until a later one compares strictly below (above) it. *)
Definition min (x : A) (xs : list A) : A :=
  fold_left (fun m y => if lt y m then y else m) xs x.

Definition max (x : A) (xs : list A) : A :=
  fold_left (fun m y => if lt m y then y else m) xs x.

(** [count_run] of listobject.c: the length of the run that starts the
    list, and whether it is a strictly descending one. *)
Fixpoint run_asc (prev : A) (l : list A) : nat :=
  match l with
  | [] => 0
  | x :: xs => if lt x prev then 0 else S (run_asc x xs)
  end.

Fixpoint run_desc (prev : A) (l : list A) : nat :=
  match l with
  | [] => 0
  | x :: xs => if lt x prev then S (run_desc x xs) else 0
  end.

Definition count_run (l : list A) : nat * bool :=
  match l with
  | [] => (0, false)
  | [_] => (1, false)
  | a :: b :: rest =>
      if lt b a then (2 + run_desc b rest, true)
      else (2 + run_asc b rest, false)
  end.

(** The binary search of [binarysort]: the place of [pivot] in the sorted
    prefix [a], between [l] and [r]. *)
Fixpoint bisect (fuel : nat) (pivot : A) (a : list A) (l r : nat) : nat :=
  match fuel with
  | O => l
  | S fuel' =>
      if l <? r then
        let p := l + (r - l) / 2 in
        if lt pivot (nth p a pivot)
        then bisect fuel' pivot a l p
        else bisect fuel' pivot a (p + 1) r
      else l
  end.

Definition insert_at (i : nat) (pivot : A) (a : list A) : list A :=
  firstn i a ++ pivot :: skipn i a.

Definition binary_insert (a : list A) (pivot : A) : list A :=
  insert_at (bisect (List.length a) pivot a 0 (List.length a)) pivot a.

Definition binarysort (prefix rest : list A) : list A :=
  fold_left binary_insert rest prefix.

(** [list.sort] on a list of fewer than 64 elements: one run is counted,
    reversed when it descends, and the rest is inserted by binary search.
    Longer lists are cut into several such runs that are merged; on keys
    that are totally ordered the result is the same stable order. *)
Definition listsort (l : list A) : list A :=
  match l with
  | [] | [_] => l
  | _ =>
      let (n, descending) := count_run l in
      let run := firstn n l in
      binarysort (if descending then rev run else run) (skipn n l)
  end.

End ListSort.

(** [sorted(l, key=key, reverse=reverse)]: elements are compared by their
    keys; a reversed sort reverses the list, sorts it and reverses it back. *)
Definition sorted {A K} (ltK : K -> K -> bool) (key : A -> K)
    (reverse : bool) (l : list A) : list A :=
  let lt := fun x y => ltK (key x) (key y) in
  if reverse then rev (listsort lt (rev l)) else listsort lt l.

(** [l[i]] with Python's negative indices. *)
Definition getitem {A} (l : list A) (i : Z) : result A :=
  let n := Z.of_nat (List.length l) in
  let j := if (i <? 0)%Z then (i + n)%Z else i in
  if ((0 <=? j) && (j <? n))%Z then
    match nth_error l (Z.to_nat j) with
    | Some x => Ok x
    | None => Raise (IndexError "list index out of range")
    end
  else Raise (IndexError "list index out of range").

(** [l[:n]] *)
Definition slice_to {A} (l : list A) (n : Z) : list A :=
  if (n <? 0)%Z then firstn (List.length l - Z.to_nat (- n)) l
  else firstn (Z.to_nat n) l.

(** [sep.join(l)] *)
Fixpoint join (sep : string) (l : list string) : string :=
  match l with
  | [] => ""
  | [x] => x
  | x :: xs => x ++ sep ++ join sep xs
  end.

(** [s.lower()] on ASCII text *)
Definition lower_ascii (c : ascii) : ascii :=
  let n := nat_of_ascii c in
  if (65 <=? n) && (n <=? 90) then ascii_of_nat (n + 32) else c.

Fixpoint lower (s : string) : string :=
  match s with
  | EmptyString => EmptyString
  | String c s' => String (lower_ascii c) (lower s')
  end.

(** ['%d' % n] *)
Definition format_d (n : Z) : string := NilEmpty.string_of_int (Z.to_int n).

End Py.

(** ** pandas tables *)

Definition guide := string.

(** A column label of the phenotype table: (phenotype, replicate). *)
Definition colkey := (string * string)%type.

Definition colkey_eqb (a b : colkey) : bool :=
  (fst a =? fst b)%string && (snd a =? snd b)%string.

(** A Series: index labels with their values. *)
Definition Series := list (guide * float64).

(** A DataFrame of two columns over one index. *)
Definition Frame2 := list (guide * (float64 * float64)).

(** A DataFrame with any number of labelled columns, stored by rows. *)
Record Frame : Type := mkFrame {
  columns : list colkey;
  rows : list (guide * list float64)
}.

(** A row of the library table; [sublibrary] is missing on the rows the
    pseudogene stage adds. *)
Record LibraryRow : Type := mkLibraryRow {
  lib_id : guide;
  sublibrary : option string;
  gene : string;
  transcripts : string;
  sequence : string
}.

Definition LibraryTable := list LibraryRow.

Fixpoint dedup {A} (eqb : A -> A -> bool) (l : list A) : list A :=
  match l with
  | [] => []
  | x :: xs => x :: filter (fun y => negb (eqb x y)) (dedup eqb xs)
  end.

Module Pd.

(** [column.dropna()] *)
Definition dropna (l : list float64) : list float64 :=
  filter (fun x => negb (isnan x)) l.

(** [column.count()]: the number of values that are not missing. *)
Definition count (l : list float64) : nat := List.length (dropna l).

(** [column.sum()]: missing values are skipped (a column of missing values
    only sums to 0). *)
Definition sum (l : list float64) : float64 := Np.sum (dropna l).

(** [column.mean()]: missing values are skipped. *)
Definition mean (l : list float64) : float64 := Np.mean (dropna l).

(** [column.median()]: missing values are skipped; the middle value of the
    sorted rest, or the mean of the two middle ones. *)
Definition median (l : list float64) : float64 :=
  let v := Py.listsort Np.lt (dropna l) in
  let n := List.length v in
  if n =? 0 then NaN
  else if Nat.odd n then nth (n / 2) v NaN
  else Np.div (Np.add (nth (n / 2 - 1) v NaN) (nth (n / 2) v NaN)) (Fin 2).

(** *** Frames made of Series

    [pd.concat([s1, s2], axis=1)] and [pd.DataFrame({label: series, ...})]
    join the Series on their index labels.  Series that all have one and the
    same index give a frame over that index, their values side by side.
    Otherwise the frame is over the union of the labels, which the pandas
    releases the program runs on (those before 1.0, which still have
    [DataFrame.append]) put in ascending order, and a Series has NaN at the
    labels it lacks.  The join is written for Series whose labels are
    distinct: pandas does not reindex the others. *)

Fixpoint index_eqb (i1 i2 : list guide) : bool :=
  match i1, i2 with
  | [], [] => true
  | a :: i1', b :: i2' => (a =? b)%string && index_eqb i1' i2'
  | _, _ => false
  end.

Definition same_indexes (cols : list Series) : bool :=
  match cols with
  | [] => true
  | c :: cs => forallb (fun c' => index_eqb (map fst c') (map fst c)) cs
  end.

(** [s.reindex(index)] at one label: the value of [s] there, NaN when [s] has
    no such label. *)
Definition at_label (s : Series) (g : guide) : float64 :=
  match find (fun p : guide * float64 => (fst p =? g)%string) s with
  | Some p => snd p
  | None => NaN
  end.

(** The index of the frame. *)
Definition joint_index (cols : list Series) : list guide :=
  if same_indexes cols then
    match cols with
    | [] => []
    | c :: _ => map fst c
    end
  else Py.listsort String.ltb (dedup String.eqb (flat_map (map fst) cols)).

(** The columns of the frame, each over the index of the frame. *)
Definition joint_columns (cols : list Series) : list (list float64) :=
  if same_indexes cols then map (map snd) cols
  else map (fun c => map (at_label c) (joint_index cols)) cols.

(** [pd.concat([s1, s2], axis=1)] *)
Definition concat_axis1 (s1 s2 : Series) : Frame2 :=
  match joint_columns [s1; s2] with
  | [c1; c2] => combine (joint_index [s1; s2]) (combine c1 c2)
  | _ => []
  end.

(** [table.loc[mask, :] = np.nan] *)
Definition mask_rows (mask : list bool) (t : Frame2) : Frame2 :=
  map (fun p : bool * (guide * (float64 * float64)) =>
         if fst p then (fst (snd p), (NaN, NaN)) else snd p)
      (combine mask t).

(** [pd.concat(frames)] along the rows; pandas refuses an empty list. *)
Definition concat {A} (frames : list (list A)) : result (list A) :=
  match frames with
  | [] => Raise (ValueError "No objects to concatenate")
  | _ => Ok (List.concat frames)
  end.

(** [frame.mean(axis=1, skipna=False)] on the columns [cols]: one value per
    index label, the plain mean of that row. *)
Definition row_at (i : nat) (cols : list (list float64)) : list float64 :=
  map (fun c => nth i c NaN) cols.

Definition mean_axis1 (index : list guide) (cols : list (list float64))
  : Series :=
  map (fun p => (snd p, Np.mean (row_at (fst p) cols)))
      (combine (seq 0 (List.length index)) index).

End Pd.

(** ** filterLowCounts *)

Definition row_min (row : float64 * float64) : float64 :=
  Py.min Np.lt (fst row) [snd row].

Definition row_max (row : float64 * float64) : float64 :=
  Py.max Np.lt (fst row) [snd row].

Definition filterLowCounts (countsColumns : Frame2) (filterType : string)
    (filterThreshold : float64) : result Frame2 :=
  rbind
    (if (filterType =? "both")%string || (filterType =? "all")%string then
       Ok (map (fun r => Np.lt (row_min (snd r)) filterThreshold) countsColumns)
     else if (filterType =? "either")%string || (filterType =? "any")%string then
       Ok (map (fun r => Np.lt (row_max (snd r)) filterThreshold) countsColumns)
     else Raise (ValueError "filter type not recognized or not implemented"))
    (fun failFilterColumn => Ok (Pd.mask_rows failFilterColumn countsColumns)).

(** ** computePhenotypeScore *)

Definition row_add (row : float64 * float64) (v : float64)
  : float64 * float64 :=
  (Np.add (fst row) v, Np.add (snd row) v).

Definition apply_rows (f : float64 * float64 -> float64 * float64)
    (t : Frame2) : Frame2 :=
  map (fun r => (fst r, f (snd r))) t.

Definition calcLog2e (row : float64 * float64)
    (countsRatio growthValue wtLog2E : float64) : float64 :=
  Np.div
    (Np.sub (Np.log2 (Np.div (Np.mul countsRatio (snd row)) (fst row))) wtLog2E)
    growthValue.

(** The pseudocount step of [computePhenotypeScore]. *)
Definition pseudocount (pseudocountBehavior : string)
    (pseudocountValue : float64) (combinedCounts : Frame2) : result Frame2 :=
  if (pseudocountBehavior =? "default")%string
     || (pseudocountBehavior =? "zeros only")%string then
    let defaultBehavior := fun row =>
      if Np.ne (row_min row) (Fin 0) then row
      else row_add row pseudocountValue in
    Ok (apply_rows defaultBehavior combinedCounts)
  else if (pseudocountBehavior =? "all values")%string then
    Ok (apply_rows (fun row => row_add row pseudocountValue) combinedCounts)
  else if (pseudocountBehavior =? "filter out")%string then
    let zeroRows :=
      map (fun r => Np.le (row_min (snd r)) (Fin 0)) combinedCounts in
    Ok (Pd.mask_rows zeroRows combinedCounts)
  else Raise (ValueError "Pseudocount behavior not recognized or not implemented").

Definition is_negative_control (libraryTable : LibraryTable) (g : guide)
  : bool :=
  existsb (fun r => (lib_id r =? g)%string
                    && (gene r =? "negative_control")%string) libraryTable.

(** [combinedCountsPseudo.align(negatives, axis=0, join='inner')[0]] over
    unique guide ids: the rows whose guide is a negative control. *)
Definition align_inner_negatives (t : Frame2) (libraryTable : LibraryTable)
  : Frame2 :=
  filter (fun r => is_negative_control libraryTable (fst r)) t.

(** The scores once the counts are pseudocounted. *)
Definition scoresOfPseudo (combinedCountsPseudo : Frame2)
    (libraryTable : LibraryTable) (growthValue : float64) (normToNegs : bool)
  : Series :=
  let totalCounts0 := Pd.sum (map (fun r => fst (snd r)) combinedCountsPseudo) in
  let totalCounts1 := Pd.sum (map (fun r => snd (snd r)) combinedCountsPseudo) in
  let countsRatio := Np.div totalCounts0 totalCounts1 in
  let negCounts :=
    if normToNegs
    then align_inner_negatives combinedCountsPseudo libraryTable
    else combinedCountsPseudo in
  let neglog2e :=
    Pd.median
      (map (fun r => calcLog2e (snd r) countsRatio (Fin 1) (Fin 0)) negCounts) in
  map (fun r => (fst r, calcLog2e (snd r) countsRatio growthValue neglog2e))
      combinedCountsPseudo.

Definition computePhenotypeScore (counts1 counts2 : Series)
    (libraryTable : LibraryTable) (growthValue : float64)
    (pseudocountBehavior : string) (pseudocountValue : float64)
    (normToNegs : bool) : result Series :=
  let combinedCounts := Pd.concat_axis1 counts1 counts2 in
  rbind (pseudocount pseudocountBehavior pseudocountValue combinedCounts)
    (fun combinedCountsPseudo =>
       Ok (scoresOfPseudo combinedCountsPseudo libraryTable growthValue
             normToNegs)).

(** ** Merging the counts of one (condition, replicate)
    ([processExperimentsFromConfig], lines 101-104) *)

(** The label of a raw counts column: (condition, replicate, counts file). *)
Definition rawkey := (string * string * string)%type.

Definition level01 (k : rawkey) : colkey := (fst (fst k), snd (fst k)).

(** Tuples of strings compare lexicographically. *)
Definition colkey_ltb (a b : colkey) : bool :=
  (fst a <? fst b)%string || ((fst a =? fst b)%string && (snd a <? snd b)%string).

(** int64 arithmetic *)
Definition wrap64 (z : Z) : Z := ((z + 2 ^ 63) mod 2 ^ 64 - 2 ^ 63)%Z.
Definition add64 (a b : Z) : Z := wrap64 (a + b).
Definition sum64 (l : list Z) : Z := fold_left add64 l 0%Z.

Fixpoint zip_add64 (a b : list Z) : list Z :=
  match a, b with
  | x :: a', y :: b' => add64 x y :: zip_add64 a' b'
  | _, _ => []
  end.

(** A table of integer counts: the guide index and the labelled columns,
    each as long as the index. *)
Record CountsTable (K : Type) : Type := mkCountsTable {
  ct_index : list guide;
  ct_columns : list (K * list Z)
}.

(** [countsTable.groupby(level=[0, 1], axis=1)]: the distinct
    (condition, replicate) labels in sorted order, each with its columns. *)
Definition exptGroups (countsTable : CountsTable rawkey)
  : list (colkey * list (list Z)) :=
  let keys :=
    Py.listsort colkey_ltb
      (dedup colkey_eqb (map (fun c => level01 (fst c)) (ct_columns countsTable))) in
  map (fun k =>
         (k, map snd
               (filter (fun c => colkey_eqb (level01 (fst c)) k)
                       (ct_columns countsTable))))
      keys.

(** [exptGroups.aggregate(np.sum)]: the columns of a group added row by row. *)
Definition sum_columns (nrows : nat) (cols : list (list Z)) : list Z :=
  fold_left zip_add64 cols (repeat 0%Z nrows).

Definition mergeCounts (countsTable : CountsTable rawkey) : CountsTable colkey :=
  mkCountsTable (ct_index countsTable)
    (map (fun g => (fst g, sum_columns (List.length (ct_index countsTable)) (snd g)))
         (exptGroups countsTable)).

(** [table.sum()]: the total of every column. *)
Definition column_totals {K} (t : CountsTable K) : list (K * Z) :=
  map (fun c => (fst c, sum64 (snd c))) (ct_columns t).

(** ** Averaging replicates
    ([processExperimentsFromConfig], lines 131-133 and 170-176) *)

(** A Python dict from column labels to values, in insertion order. *)
Fixpoint dict_set {V} (k : colkey) (v : V) (d : list (colkey * V))
  : list (colkey * V) :=
  match d with
  | [] => [(k, v)]
  | kv :: d' =>
      if colkey_eqb (fst kv) k then (k, v) :: d' else kv :: dict_set k v d'
  end.

Fixpoint dict_get {V} (k : colkey) (d : list (colkey * V)) : option V :=
  match d with
  | [] => None
  | kv :: d' => if colkey_eqb (fst kv) k then Some (snd kv) else dict_get k d'
  end.

(** [list(set(l))]: every element once (Python leaves the order open). *)
Definition list_set (l : list string) : list string := dedup String.eqb l.

Definition phenotypeList_of (condition_tuples : list (string * string * string))
  : list string :=
  list_set (map (fun t => fst (fst t)) condition_tuples).

Definition replicateList_of (counts_file_list : list rawkey) : list string :=
  Py.listsort String.ltb (list_set (map (fun t => snd (fst t)) counts_file_list)).

Definition ave_label (replicateList : list string) : string :=
  "ave_" ++ Py.join "_" replicateList.

(** [pd.DataFrame(cols).mean(axis=1, skipna=False)] *)
Definition frame_index (repCols : list (colkey * Series)) : list guide :=
  Pd.joint_index (map snd repCols).

Definition mean_of_columns (repCols : list (colkey * Series)) : Series :=
  Pd.mean_axis1 (frame_index repCols) (Pd.joint_columns (map snd repCols)).

(** The dict comprehension of line 174: the columns of one phenotype. *)
Definition replicate_columns (phenotype : string)
    (phenotypeScoreDict : list (colkey * Series)) : list (colkey * Series) :=
  filter (fun c => (fst (fst c) =? phenotype)%string) phenotypeScoreDict.

(** The body of the loop over the phenotypes. *)
Definition average_step (replicateList : list string)
    (phenotypeScoreDict : list (colkey * Series)) (phenotype : string)
  : list (colkey * Series) :=
  let repCols := replicate_columns phenotype phenotypeScoreDict in
  dict_set (phenotype, ave_label replicateList) (mean_of_columns repCols)
    phenotypeScoreDict.

Definition averageReplicates (phenotypeList replicateList : list string)
    (phenotypeScoreDict : list (colkey * Series)) : list (colkey * Series) :=
  if 1 <? List.length replicateList then
    fold_left (average_step replicateList) phenotypeList phenotypeScoreDict
  else phenotypeScoreDict.

(** ** Gene scores: applyGeneScoreFunction, averageBestN, applyMW *)

(** The columns of the rows of one gene, and the grouped phenotype table. *)
Definition Group := list (colkey * list float64).
Definition Grouped (G : Type) := list (G * Group).

(** What [pd.concat([stat, counts], axis=1, keys=[...])] holds: for every
    group and column the statistic and the count, under their two names. *)
Record GeneScores (G : Type) : Type := mkGeneScores {
  stat_name : string;
  stat : list (G * list (colkey * float64));
  count_name : string;
  counts : list (G * list (colkey * nat))
}.

Definition group_counts {G} (t : Grouped G) : list (G * list (colkey * nat)) :=
  map (fun g => (fst g, map (fun c => (fst c, Pd.count (snd c))) (snd g))) t.

Definition per_column {G B} (f : colkey -> list float64 -> result B)
    (t : Grouped G) : result (list (G * list (colkey * B))) :=
  rmap (fun g =>
          rbind (rmap (fun c => rbind (f (fst c) (snd c))
                                  (fun v => Ok (fst c, v))) (snd g))
                (fun cs => Ok (fst g, cs)))
       t.

Definition averageBestN_column (column : list float64) (numToAverage : Z)
  : float64 :=
  if 0 <? List.length (Pd.dropna column) then
    Np.mean (Py.slice_to (Py.sorted Np.lt Np.abs true (Pd.dropna column))
                         numToAverage)
  else NaN.

Definition averageBestN (group : Group) (numToAverage : Z)
  : list (colkey * float64) :=
  map (fun c => (fst c, averageBestN_column (snd c) numToAverage)) group.

(** The aggregation function of calculate_nth. *)
Definition nth_best (x : list float64) (nth : Z) : result float64 :=
  if (nth <=? Z.of_nat (List.length x))%Z
  then Py.getitem (Py.sorted Np.lt Np.abs true x) (nth - 1)
  else Ok NaN.

Section GeneScoring.

(** [scipy.stats.mannwhitneyu(x, y)] and
    [scipy.stats.mannwhitneyu(x, y, alternative='two-sided')]: the statistic
    and the p-value, or an exception. *)
Variable mannwhitneyu : list float64 -> list float64 -> result (float64 * float64).
Variable mannwhitneyu_two_sided :
  list float64 -> list float64 -> result (float64 * float64).
(** [int(sp.__version__.split('.')[1])] *)
Variable scipy_minor : Z.

Definition applyMW_column (name : colkey) (column : list float64)
    (negativeTable : Group) : result float64 :=
  let pvalue (two_sided : bool) :=
    if 0 <? List.length (Pd.dropna column) then
      match dict_get name negativeTable with
      | None => Raise (KeyError (fst name))
      | Some negatives =>
          if two_sided then
            rbind (mannwhitneyu_two_sided (Pd.dropna column) (Pd.dropna negatives))
                  (fun r => Ok (snd r))
          else
            rbind (mannwhitneyu (Pd.dropna column) (Pd.dropna negatives))
                  (fun r => Ok (Np.mul (snd r) (Fin 2)))
      end
    else Ok NaN in
  if (17 <=? scipy_minor)%Z then pvalue true else pvalue false.

Definition applyMW (group : Group) (negativeTable : Group)
  : result (list (colkey * float64)) :=
  rmap (fun c => rbind (applyMW_column (fst c) (snd c) negativeTable)
                   (fun v => Ok (fst c, v))) group.

Definition applyGeneScoreFunction {G} (groupedPhenotypeTable : Grouped G)
    (negativeTable : Group) (analysis : string) (analysisParamList : list Z)
  : result (GeneScores G) :=
  if (analysis =? "calculate_ave")%string then
    rbind (Py.getitem analysisParamList 0) (fun numToAverage =>
      if (numToAverage <=? 0)%Z then
        let means :=
          map (fun g => (fst g, map (fun c => (fst c, Pd.mean (snd c))) (snd g)))
              groupedPhenotypeTable in
        let counts := group_counts groupedPhenotypeTable in
        Ok (mkGeneScores "average of all phenotypes" means
              "average of all phenotypes_sgRNAcount" counts)
      else
        let means :=
          map (fun g => (fst g, averageBestN (snd g) numToAverage))
              groupedPhenotypeTable in
        let counts := group_counts groupedPhenotypeTable in
        Ok (mkGeneScores
              ("average phenotype of strongest " ++ Py.format_d numToAverage)
              means "sgRNA count_avg" counts))
  else if (analysis =? "calculate_mw")%string then
    rbind (rmap (fun g => rbind (applyMW (snd g) negativeTable)
                            (fun cs => Ok (fst g, cs)))
                groupedPhenotypeTable)
      (fun pvals =>
         let counts := group_counts groupedPhenotypeTable in
         Ok (mkGeneScores "Mann-Whitney p-value" pvals "sgRNA count_MW" counts))
  else if (analysis =? "calculate_nth")%string then
    rbind (Py.getitem analysisParamList 0) (fun nth =>
      rbind (per_column (fun _ x => nth_best x nth) groupedPhenotypeTable)
        (fun pvals =>
           let counts := group_counts groupedPhenotypeTable in
           Ok (mkGeneScores (Py.format_d nth ++ "th best score") pvals
                 "sgRNA count_nth best" counts)))
  else
    Raise (ValueError ("Analysis " ++ analysis
                       ++ " not recognized or not implemented")).

End GeneScoring.

(** ** The pseudogene stage
    ([processExperimentsFromConfig], lines 202-246)

    The stage prints to the standard output, draws random numbers and may
    raise: a computation takes the world and gives a result or an exception
    together with the world it leaves. *)

Record World : Type := mkWorld {
  stdout : list string;          (** the lines printed so far *)
  draws : nat -> nat;            (** the raw draws of the random source *)
  drawn : nat                    (** how many were consumed *)
}.

Definition M (A : Type) : Type := World -> result A * World.

Definition ret {A} (a : A) : M A := fun w => (Ok a, w).

Definition raise {A} (e : exn) : M A := fun w => (Raise e, w).

Definition bind {A B} (m : M A) (k : A -> M B) : M B :=
  fun w =>
    match m w with
    | (Ok a, w') => k a w'
    | (Raise e, w') => (Raise e, w')
    end.

Notation "x <- m ;; k" := (bind m (fun x => k))
  (at level 61, m at next level, right associativity).
Notation "m ;;; k" := (bind m (fun _ => k))
  (at level 61, right associativity).

Definition print (line : string) : M unit :=
  fun w => (Ok tt, mkWorld (stdout w ++ [line]) (draws w) (drawn w)).

Definition lift {A} (r : result A) : M A := fun w => (r, w).

(** [np.random.randint(0, high, size)] *)
Definition randint (high : nat) (size : Z) : M (list nat) :=
  fun w =>
    if (size <? 0)%Z then
      (Raise (ValueError "negative dimensions are not allowed"), w)
    else if high =? 0 then (Raise (ValueError "low >= high"), w)
    else
      let n := Z.to_nat size in
      (Ok (map (fun i => draws w (drawn w + i) mod high) (seq 0 n)),
       mkWorld (stdout w) (draws w) (drawn w + n)).

Fixpoint forM {A B} (l : list A) (f : A -> M B) : M (list B) :=
  match l with
  | [] => ret []
  | x :: xs => y <- f x ;; ys <- forM xs f ;; ret (y :: ys)
  end.

(** The parameters of the experiment the stage reads. *)
Record ExptParameters : Type := mkExptParameters {
  generate_pseudogene_dist : string;
  num_pseudogenes : Z;
  pseudogene_size : Z;
  analyses : list (string * list Z)
}.

Definition nat_d (n : nat) : string := Py.format_d (Z.of_nat n).

(** [negValues[randIndices, :]] *)
Definition take_rows (negValues : list (list float64)) (randIndices : list nat)
  : list (list float64) :=
  map (fun i => nth i negValues []) randIndices.

(** [libraryTable.drop_duplicates(['gene', 'sequence'])] keeps the first row
    of every (gene, sequence). *)
Fixpoint drop_duplicates (seen : list colkey) (l : LibraryTable) : LibraryTable :=
  match l with
  | [] => []
  | r :: rs =>
      if existsb (colkey_eqb (gene r, sequence r)) seen
      then drop_duplicates seen rs
      else r :: drop_duplicates ((gene r, sequence r) :: seen) rs
  end.

(** [table.groupby(column)]: the distinct values in sorted order, each with
    its rows. *)
Definition groupby (column : LibraryRow -> string) (t : LibraryTable)
  : list (string * LibraryTable) :=
  map (fun k => (k, filter (fun r => (column r =? k)%string) t))
      (Py.listsort String.ltb (list_set (map column t))).

Definition enumerate {A} (l : list A) : list (nat * A) :=
  combine (seq 0 (List.length l)) l.

(** One pseudogene of the manual mode. *)
Definition manual_pseudogene (exptParameters : ExptParameters)
    (negValues : list (list float64)) (pseudogene : nat)
  : M (list (guide * list float64) * LibraryTable) :=
  let size := pseudogene_size exptParameters in
  randIndices <- randint (List.length negValues) size ;;
  let pseudoTable := take_rows negValues randIndices in
  let ids := seq 0 (Z.to_nat size) in
  let pseudoIndex :=
    map (fun i => ("pseudo_" ++ nat_d pseudogene ++ "_" ++ nat_d i)%string) ids in
  let pseudoSeqs :=
    map (fun i => ("seq_" ++ nat_d pseudogene ++ "_" ++ nat_d i)%string) ids in
  let pseudoLib :=
    map (fun p => mkLibraryRow (fst p) None
                    ("pseudo_" ++ nat_d pseudogene)%string "na" (snd p))
        (combine pseudoIndex pseudoSeqs) in
  ret (combine pseudoIndex pseudoTable, pseudoLib).

(** One pseudo-transcript of the automatic mode. *)
Definition auto_transcript (negValues : list (list float64))
    (pseudogene transcript : nat) (transcriptGroup : LibraryTable)
  : M (list (guide * list float64) * LibraryTable) :=
  let n := List.length transcriptGroup in
  randIndices <- randint (List.length negValues) (Z.of_nat n) ;;
  let pseudoTable := take_rows negValues randIndices in
  let ids := seq 0 n in
  let tag i :=
    (nat_d pseudogene ++ "_" ++ nat_d transcript ++ "_" ++ nat_d i)%string in
  let pseudoIndex := map (fun i => ("pseudo_" ++ tag i)%string) ids in
  let pseudoSeqs := map (fun i => ("seq_" ++ tag i)%string) ids in
  let pseudoLib :=
    map (fun p => mkLibraryRow (fst p) None
                    ("pseudo_" ++ nat_d pseudogene)%string
                    ("pseudo_transcript_" ++ nat_d transcript)%string (snd p))
        (combine pseudoIndex pseudoSeqs) in
  ret (combine pseudoIndex pseudoTable, pseudoLib).

Definition pseudogeneStage (exptParameters : ExptParameters)
    (phenotypeTable negTable : Frame) (libraryTable : LibraryTable)
  : M (Frame * LibraryTable) :=
  if negb (generate_pseudogene_dist exptParameters =? "off")%string
     && (0 <? List.length (analyses exptParameters)) then
    print "Generating a pseudogene distribution from negative controls" ;;;
    let negValues := map snd (rows negTable) in
    let mode := Py.lower (generate_pseudogene_dist exptParameters) in
    tables <-
      (if (mode =? "manual")%string then
         forM (seq 0 (Z.to_nat (num_pseudogenes exptParameters)))
              (manual_pseudogene exptParameters negValues)
       else if (mode =? "auto")%string then
         per_gene <-
           forM (enumerate (groupby gene (drop_duplicates [] libraryTable)))
             (fun g =>
                if (fst (snd g) =? "negative_control")%string then ret []
                else
                  forM (enumerate (groupby transcripts (snd (snd g))))
                       (fun t => auto_transcript negValues (fst g) (fst t)
                                   (snd (snd t)))) ;;
         ret (List.concat per_gene)
       else
         print "generate_pseudogene_dist parameter not recognized, defaulting to off" ;;;
         ret []) ;;
    let pseudoTableList := map fst tables in
    let pseudoLibTables := map snd tables in
    pseudoRows <- lift (Pd.concat pseudoTableList) ;;
    let phenotypeTable' :=
      mkFrame (columns phenotypeTable) (rows phenotypeTable ++ pseudoRows) in
    pseudoLib <- lift (Pd.concat pseudoLibTables) ;;
    ret (phenotypeTable', libraryTable ++ pseudoLib)
  else ret (phenotypeTable, libraryTable).

(** ** Notions used to state the properties *)

(** *** Reads of a counts table *)

(** The exact sum of a list of integers. *)
Definition Zsum (l : list Z) : Z := fold_right Z.add 0%Z l.

(** Every column of the table is as long as its index. *)
Definition aligned {K} (t : CountsTable K) : Prop :=
  Forall (fun c => List.length (snd c) = List.length (ct_index t)) (ct_columns t).

(** The sum, in int64, of the column totals of a table. *)
Definition total_reads {K} (t : CountsTable K) : Z :=
  sum64 (map snd (column_totals t)).

(** No count of the table is negative. *)
Definition nonneg_counts {K} (t : CountsTable K) : Prop :=
  Forall (fun c => Forall (fun v => (0 <= v)%Z) (snd c)) (ct_columns t).

(** The number of reads of a table, as an exact integer. *)
Definition exact_reads {K} (t : CountsTable K) : Z :=
  Zsum (map (fun c => Zsum (snd c)) (ct_columns t)).

(** The exact sum of [f] over the columns labelled [k]. *)
Definition group_sum {C} (key : C -> colkey) (f : C -> Z) (cols : list C)
    (k : colkey) : Z :=
  Zsum (map f (filter (fun c => colkey_eqb (key c) k) cols)).

(** *** Scores of a guide across replicates *)

(** The exact sum of a list of reals. *)
Definition Rsum (l : list R) : R := fold_right Rplus 0%R l.

(** *** The phenotype score, following the words of the specification *)

(** Every count of the table is a positive number. *)
Definition positive_counts (t : Frame2) : Prop :=
  Forall (fun r => exists a b : R,
              snd r = (Fin a, Fin b) /\ (0 < a)%R /\ (0 < b)%R) t.

Definition toR (x : float64) : R :=
  match x with
  | Fin r => r
  | _ => 0%R
  end.

(** The sum of the first column over the sum of the second. *)
Definition spec_countsRatio (t : Frame2) : R :=
  (Rsum (map (fun r => toR (fst (snd r))) t)
   / Rsum (map (fun r => toR (snd (snd r))) t))%R.

(** log2(countsRatio * count2 / count1) *)
Definition spec_log2e (t : Frame2) (row : float64 * float64) : R :=
  Rlog2 (spec_countsRatio t * toR (snd row) / toR (fst row)).

(** The median of that value over the negative-control guides. *)
Definition spec_wtLog2E (t : Frame2) (libraryTable : LibraryTable) : float64 :=
  Pd.median
    (map (fun r => Fin (spec_log2e t (snd r)))
         (filter (fun r => is_negative_control libraryTable (fst r)) t)).

(** (log2(countsRatio * count2 / count1) - wtLog2E) / g, guide by guide. *)
Definition spec_scores (t : Frame2) (libraryTable : LibraryTable) (g : R)
  : Series :=
  map (fun r =>
         (fst r,
          Np.div (Np.sub (Fin (spec_log2e t (snd r)))
                         (spec_wtLog2E t libraryTable))
                 (Fin g)))
      t.

(** *** Sortedness *)

(** [x] does not come after [y] in the order of [lt]: [y < x] is false. *)
Definition leq {A} (lt : A -> A -> bool) (x y : A) : Prop := lt y x = false.

(** [x] is strictly before [y]. *)
Definition below {A} (lt : A -> A -> bool) (x y : A) : Prop := lt x y = true.

(** *** The scores that enter the average of calculate_ave *)

(** A score that is not missing. *)
Definition valid (x : float64) : Prop := isnan x = false.

(** The valid scores of a column, strongest first, as [averageBestN] sorts
    them. *)
Definition by_strength (column : list float64) : list float64 :=
  Py.sorted Np.lt Np.abs true (Pd.dropna column).

(** The scores [averageBestN] averages, and the ones it leaves out. *)
Definition strongest (column : list float64) (N : Z) : list float64 :=
  Py.slice_to (by_strength column) N.

Definition weaker (column : list float64) (N : Z) : list float64 :=
  skipn (Z.to_nat N) (by_strength column).

(** ** Scoring one comparison
    ([processExperimentsFromConfig], lines 139-150) *)

(** [filtCols[(condition1, replicate)]] and [filtCols[(condition2, replicate)]]:
    the two columns of the filtered table. *)
Definition first_column (t : Frame2) : Series :=
  map (fun r => (fst r, fst (snd r))) t.

Definition second_column (t : Frame2) : Series :=
  map (fun r => (fst r, snd (snd r))) t.

(** The body of the loop over the comparisons and the replicates: the two
    merged columns are filtered together and then scored. *)
Definition scoreComparison (column1 column2 : Series)
    (libraryTable : LibraryTable) (growthValue : float64)
    (filter_type : string) (minimum_reads : float64)
    (pseudocount_behavior : string) (pseudocountValue : float64)
  : result Series :=
  rbind (filterLowCounts (Pd.concat_axis1 column1 column2) filter_type
           minimum_reads)
    (fun filtCols =>
       computePhenotypeScore (first_column filtCols) (second_column filtCols)
         libraryTable growthValue pseudocount_behavior pseudocountValue true).

(** *** Tables with masked rows *)

(** A row the low-count filter masked. *)
Definition masked (r : guide * (float64 * float64)) : bool :=
  isnan (fst (snd r)) && isnan (snd (snd r)).

(** The rows that are not masked. *)
Definition unmasked (t : Frame2) : Frame2 :=
  filter (fun r => negb (masked r)) t.

(** Every row is masked or holds two positive counts. *)
Definition masked_or_positive (t : Frame2) : Prop :=
  Forall (fun r => snd r = (NaN, NaN)
                   \/ exists a b : R,
                        snd r = (Fin a, Fin b) /\ (0 < a)%R /\ (0 < b)%R) t.

(** Every row holds two counts that are not negative. *)
Definition nonnegative_counts (t : Frame2) : Prop :=
  Forall (fun r => exists a b : R,
              snd r = (Fin a, Fin b) /\ (0 <= a)%R /\ (0 <= b)%R) t.


(** The scores of a table with masked rows, following the specification: a
    masked guide has no score, and the others are scored as if the table
    held the rows that are not masked only. *)
Definition spec_scores_masked (t : Frame2) (libraryTable : LibraryTable)
    (g : R) : Series :=
  map (fun r =>
         if masked r then (fst r, NaN)
         else (fst r,
               Np.div (Np.sub (Fin (spec_log2e (unmasked t) (snd r)))
                              (spec_wtLog2E (unmasked t) libraryTable))
                      (Fin g)))
      t.


(** Every row is masked or holds two counts that are not negative: the
    tables the low-count filter hands to the scorer. *)
Definition masked_or_nonnegative (t : Frame2) : Prop :=
  Forall (fun r => snd r = (NaN, NaN)
                   \/ exists a b : R,
                        snd r = (Fin a, Fin b) /\ (0 <= a)%R /\ (0 <= b)%R) t.


(** *** The pseudogenes of the manual mode *)

(** The world after [n] more random draws. *)
Definition advance (n : nat) (w : World) : World :=
  mkWorld (stdout w) (draws w) (drawn w + n).

(** The ids and the sequences given to the guides of pseudogene number
    [pseudogene]. *)
Definition pseudo_ids (pseudogene size : nat) : list string :=
  map (fun i => ("pseudo_" ++ nat_d pseudogene ++ "_" ++ nat_d i)%string)
      (seq 0 size).

Definition pseudo_seqs (pseudogene size : nat) : list string :=
  map (fun i => ("seq_" ++ nat_d pseudogene ++ "_" ++ nat_d i)%string)
      (seq 0 size).

(** The library rows of pseudogene number [pseudogene]. *)
Definition pseudo_library (pseudogene size : nat) : LibraryTable :=
  map (fun p => mkLibraryRow (fst p) None
                  ("pseudo_" ++ nat_d pseudogene)%string "na" (snd p))
      (combine (pseudo_ids pseudogene size) (pseudo_seqs pseudogene size)).


(** Whether the character [c] occurs in [s]. *)
Fixpoint occurs (c : ascii) (s : string) : bool :=
  match s with
  | EmptyString => false
  | String a s' => Ascii.eqb a c || occurs c s'
  end.


(** ** The columns of the gene table and the effect size label
    ([processExperimentsFromConfig], lines 264-270, and [getEffectSizeLabel]
    of [screen_analysis.py], lines 548-560) *)

Section GeneTable.

Variable mannwhitneyu : list float64 -> list float64 -> result (float64 * float64).
Variable mannwhitneyu_two_sided :
  list float64 -> list float64 -> result (float64 * float64).
Variable scipy_minor : Z.

(** The loop of lines 264-268: a line printed and a table made for every
    analysis of the [analyses] dict. *)
Definition analysisTables_of {G} (exptParameters : ExptParameters)
    (geneGroups : Grouped G) (negTable : Group) : M (list (GeneScores G)) :=
  forM (analyses exptParameters) (fun analysis =>
    print ("--" ++ fst analysis) ;;;
    lift (applyGeneScoreFunction mannwhitneyu mannwhitneyu_two_sided
            scipy_minor geneGroups negTable (fst analysis) (snd analysis))).

End GeneTable.

(** The labels of the columns of [geneTable[(phenotype, replicate)]]: line
    270 moves the name of the statistic to the last level and sorts the
    columns. *)
Definition gene_table_labels {G} (analysisTables : list (GeneScores G))
  : list string :=
  Py.listsort String.ltb
    (flat_map (fun t => [stat_name t; count_name t]) analysisTables).

(** [colname[:7] == 'average'] *)
Definition starts_with_average (colname : string) : bool :=
  (substring 0 7 colname =? "average")%string.

(** [getEffectSizeLabel(table)], on the labels of the columns of [table]. *)
Definition getEffectSizeLabel (table : list string) : M (option string) :=
  let effectColLabels := filter starts_with_average table in
  if List.length effectColLabels =? 0 then
    print "No gene effect size data columns found" ;;; ret None
  else if 1 <? List.length effectColLabels then
    print ("Multiple effect size data columns found, please specifiy one: "
           ++ Py.join ", " effectColLabels) ;;;
    ret None
  else
    label <- lift (Py.getitem effectColLabels 0) ;;
    ret (Some label).


(** ** Loading the counts
    ([processExperimentsFromConfig], lines 80-90, and [readCountsFile]) *)

Definition rawkey_eqb (a b : rawkey) : bool :=
  colkey_eqb (fst a) (fst b) && (snd a =? snd b)%string.

(** Tuples of strings compare lexicographically. *)
Definition rawkey_ltb (a b : rawkey) : bool :=
  colkey_ltb (fst a) (fst b)
  || (colkey_eqb (fst a) (fst b) && (snd a <? snd b)%string).

(** What the loader raises: the plain [Exception] of line 84, or the error
    of a counts file that cannot be read. *)
Inductive load_exn : Type :=
| Exception (msg : string)
| IOError (path : string).

(** [countSeries.reset_index().drop_duplicates('id').set_index('id')] keeps
    the first record of every id. *)
Fixpoint drop_duplicates_id (seen : list guide) (records : list (guide * Z))
  : list (guide * Z) :=
  match records with
  | [] => []
  | r :: rs =>
      if existsb (String.eqb (fst r)) seen then drop_duplicates_id seen rs
      else r :: drop_duplicates_id (fst r :: seen) rs
  end.

(** [library.align(countSeries, axis=0, join='left', fill_value=0)[1]]: the
    counts in the order of the library index, 0 for an id without record. *)
Definition align_left (index : list guide) (countSeries : list (guide * Z))
  : list Z :=
  map (fun id =>
         match find (fun r => (fst r =? id)%string) countSeries with
         | Some r => snd r
         | None => 0%Z
         end)
      index.

Section Loader.

(** [readCountsFile(countsFileName)]: the (id, counts) records of the file,
    or nothing when the file cannot be read. *)
Variable readCountsFile : string -> option (list (guide * Z)).

(** The loop of lines 81-90 over the sorted tuples; the result comes with
    the lines printed. *)
Fixpoint load_columns (index : list guide) (tups : list rawkey)
    (columnDict : list (rawkey * list Z))
  : list string * (load_exn + list (rawkey * list Z)) :=
  match tups with
  | [] => ([], inr columnDict)
  | tup :: rest =>
      if existsb (rawkey_eqb tup) (map fst columnDict) then
        (["Asserting that tuples of condition, replicate, and count file should be unique; are the cases where this should not be enforced?"%string],
         inl (Exception
                "condition, replicate, and count file combination already assigned"))
      else
        match readCountsFile (snd tup) with
        | None => ([], inl (IOError (snd tup)))
        | Some records =>
            let countSeries := drop_duplicates_id [] records in
            let countSeries := align_left index countSeries in
            load_columns index rest (columnDict ++ [(tup, countSeries)])
        end
  end.

(** Lines 80-92: the raw counts table over the guides of the library. *)
Definition loadCounts (index : list guide) (counts_file_list : list rawkey)
  : list string * (load_exn + CountsTable rawkey) :=
  let (out, columnDict) :=
    load_columns index (Py.listsort rawkey_ltb counts_file_list) [] in
  (out,
   match columnDict with
   | inl e => inl e
   | inr columnDict => inr (mkCountsTable index columnDict)
   end).

End Loader.

(** The count the first record of [id] holds, 0 without a record. *)
Fixpoint first_count (id : guide) (records : list (guide * Z)) : Z :=
  match records with
  | [] => 0%Z
  | r :: rs => if (fst r =? id)%string then snd r else first_count id rs
  end.


(** The middle of a sorted list of numbers: the one in the middle, or the
    mean of the two in the middle. *)
Definition middle (s : list R) : R :=
  let n := List.length s in
  if Nat.odd n then nth (n / 2) s 0%R
  else ((nth (n / 2 - 1) s 0 + nth (n / 2) s 0) / 2)%R.


(** ** Reading the library from a fasta file
    ([readLibraryFile], lines 327-340)

    The file is the list of its lines, each with its line end; [readline]
    gives the empty text once the lines are used up. *)

(** [c.isspace()] on ASCII characters. *)
Definition isspace (c : ascii) : bool :=
  let n := nat_of_ascii c in
  (n =? 32) || ((9 <=? n) && (n <=? 13)) || ((28 <=? n) && (n <=? 31)).

Fixpoint lstrip (s : string) : string :=
  match s with
  | EmptyString => EmptyString
  | String c s' => if isspace c then lstrip s' else s
  end.

Fixpoint rstrip (s : string) : string :=
  match s with
  | EmptyString => EmptyString
  | String c s' =>
      let r := rstrip s' in
      if isspace c && (r =? "")%string then EmptyString else String c r
  end.

(** [s.strip()] *)
Definition strip (s : string) : string := rstrip (lstrip s).

(** The loop of lines 329-337: an id line and a sequence line are read by
    turn until [readline] gives the empty text.  [seqLine is None] is never
    true of a text, so that only the first character of the id line is
    tested. *)
Fixpoint read_elements (infile : list string) : result (list (string * string)) :=
  match infile with
  | [] => Ok []
  | idLine :: rest =>
      match idLine with
      | EmptyString => Ok []
      | String c tail =>
          let step (seqLine : string) (elements : result (list (string * string))) :=
            if negb (Ascii.eqb c ">") then
              Raise (ValueError "Error parsing fasta file")
            else
              rbind elements
                    (fun l => Ok ((strip tail, strip seqLine) :: l)) in
          match rest with
          | [] => step EmptyString (Ok [])
          | seqLine :: rest' => step seqLine (read_elements rest')
          end
      end
  end.

(** Lines 327-340: the ids and the sequences of the elements;
    unzipping the element list into [elementIds] and [elementSeqs] needs one
    element at least. *)
Definition readLibraryFile (infile : list string)
  : result (list string * list string) :=
  rbind (read_elements infile) (fun elementList =>
    match elementList with
    | [] => Raise (ValueError "not enough values to unpack (expected 2, got 0)")
    | _ => Ok (List.split elementList)
    end).

(** No character of [s] is white space. *)
Fixpoint no_space (s : string) : bool :=
  match s with
  | EmptyString => true
  | String c s' => negb (isspace c) && no_space s'
  end.

(** The lines of a fasta file that holds the given elements. *)
Definition fasta_lines (elements : list (string * string)) : list string :=
  flat_map (fun e => [String ">" (fst e ++ String (ascii_of_nat 10) "")%string;
                     (snd e ++ String (ascii_of_nat 10) "")%string])
           elements.


(** *** The pseudogenes of the automatic mode *)

(** What holds of the pair of tables made for one pseudo-transcript: the
    phenotype rows and the library rows carry the same ids, the scores of
    every row are the scores of a row of the negative table, and the library
    rows are named as pseudogenes and pseudo-transcripts. *)
Definition pseudo_tables_ok (negValues : list (list float64))
    (tb : list (guide * list float64) * LibraryTable) : Prop :=
  map fst (fst tb) = map lib_id (snd tb)
  /\ Forall (fun r => In (snd r) negValues) (fst tb)
  /\ Forall (fun r => String.prefix "pseudo_" (gene r) = true
                      /\ String.prefix "pseudo_transcript_" (transcripts r) = true
                      /\ sublibrary r = None)
            (snd tb).

(** The guides of the automatic mode: one per row of the deduplicated
    library whose gene is not 'negative_control'. *)
Definition auto_guides (libraryTable : LibraryTable) : LibraryTable :=
  filter (fun r => negb (gene r =? "negative_control")%string)
         (drop_duplicates [] libraryTable).


(** *** The words of the specification on the scores *)

(** A guide whose gene is 'negative_control' in the library. *)
Definition negative_control_guide (libraryTable : LibraryTable) (g : guide)
  : Prop :=
  exists r, In r libraryTable /\ lib_id r = g
            /\ gene r = "negative_control"%string.

(** [m] is the median of the numbers [xs]: the middle of [xs] put in
    ascending order. *)
Definition is_median (xs : list R) (m : R) : Prop :=
  exists s, Permutation s xs /\ StronglySorted Rle s /\ m = middle s.

(** [reps] lists the replicate ids of the counts files, each once, in
    ascending order. *)
Definition replicate_ids (counts_file_list : list rawkey) (reps : list string)
  : Prop :=
  StronglySorted (fun a b => (a <? b)%string = true) reps
  /\ forall r, In r reps
               <-> exists t, In t counts_file_list /\ snd (fst t) = r.

(** [v] is the average the specification asks of the scores [xs] of a guide:
    missing as soon as one score is missing, the arithmetic mean of finite
    scores. *)
Definition is_average (xs : list float64) (v : float64) : Prop :=
  (In NaN xs -> v = NaN)
  /\ (forall rs, xs = map Fin rs -> rs <> [] ->
        v = Fin (Rsum rs / INR (List.length rs))).

(** * Properties *)

(** ** Comparisons of real numbers *)

Lemma Rltb_true (a b : R) : (a < b)%R -> Rltb a b = true.
Proof. unfold Rltb. destruct (Rlt_dec a b); [reflexivity | contradiction]. Qed.

Lemma Rltb_false (a b : R) : ~ (a < b)%R -> Rltb a b = false.
Proof. unfold Rltb. destruct (Rlt_dec a b); [contradiction | reflexivity]. Qed.

Lemma Rltb_iff (a b : R) : Rltb a b = true <-> (a < b)%R.
Proof.
  unfold Rltb. destruct (Rlt_dec a b); split; intros; try assumption;
    try reflexivity; try discriminate; contradiction.
Qed.

Lemma Rltb_false_iff (a b : R) : Rltb a b = false <-> ~ (a < b)%R.
Proof.
  unfold Rltb. destruct (Rlt_dec a b); split; intros; try assumption;
    try reflexivity; try discriminate; contradiction.
Qed.

Lemma Reqb_true (a b : R) : a = b -> Reqb a b = true.
Proof. unfold Reqb. destruct (Req_dec_T a b); [reflexivity | contradiction]. Qed.

Lemma Reqb_false (a b : R) : a <> b -> Reqb a b = false.
Proof. unfold Reqb. destruct (Req_dec_T a b); [contradiction | reflexivity]. Qed.

Lemma Reqb_iff (a b : R) : Reqb a b = true <-> a = b.
Proof.
  unfold Reqb. destruct (Req_dec_T a b); split; intros; try assumption;
    try reflexivity; try discriminate; contradiction.
Qed.

(** Decides the comparisons of concrete reals met in a goal. *)
Ltac rdec :=
  repeat match goal with
    | |- context [Rltb ?a ?b] =>
        first [ rewrite (@Rltb_true a b) by lra
              | rewrite (@Rltb_false a b) by lra ]
    | |- context [Reqb ?a ?b] =>
        first [ rewrite (@Reqb_true a b) by lra
              | rewrite (@Reqb_false a b) by lra ]
    end.

(** ** Rows of two finite counts *)

Lemma row_min_fin (a b : R) : row_min (Fin a, Fin b) = Fin (Rmin a b).
Proof.
  unfold row_min, Py.min, Rmin; simpl.
  destruct (Rle_dec a b).
  - rewrite Rltb_false by lra. reflexivity.
  - rewrite Rltb_true by lra. reflexivity.
Qed.

Lemma row_max_fin (a b : R) : row_max (Fin a, Fin b) = Fin (Rmax a b).
Proof.
  unfold row_max, Py.max, Rmax; simpl.
  destruct (Rle_dec a b) as [Hle | Hnle].
  - destruct (Rlt_dec a b).
    + rewrite Rltb_true by lra. reflexivity.
    + rewrite Rltb_false by lra. f_equal. lra.
  - rewrite Rltb_false by lra. reflexivity.
Qed.

Lemma mask_rows_map (f : guide * (float64 * float64) -> bool) (t : Frame2) :
  Pd.mask_rows (map f t) t
  = map (fun r => if f r then (fst r, (NaN, NaN)) else r) t.
Proof.
  unfold Pd.mask_rows. induction t as [| r t IH]; simpl.
  - reflexivity.
  - f_equal. exact IH.
Qed.

Lemma nth_error_apply_rows f (t : Frame2) i id row :
  nth_error t i = Some (id, row) ->
  nth_error (apply_rows f t) i = Some (id, f row).
Proof.
  intros H. unfold apply_rows. rewrite nth_error_map, H. reflexivity.
Qed.

Lemma nth_error_mask_rows f (t : Frame2) i r :
  nth_error t i = Some r ->
  nth_error (Pd.mask_rows (map f t) t) i
  = Some (if f r then (fst r, (NaN, NaN)) else r).
Proof.
  intros H. rewrite mask_rows_map, nth_error_map, H. reflexivity.
Qed.

(** ** C2: the "zeros only" pseudocount *)

(** C2.  Under the policy "zeros only" with pseudocount [p], a row of two
    non-negative counts whose minimum is exactly 0 has [p] added to both
    counts, and any other row is left as it is; with p = 1 the row (0, 5)
    becomes (1, 6) and the row (3, 5) is unchanged. *)
Theorem pseudocount_zeros_only
    (p a b : R) (t : Frame2) (i : nat) (id : guide) :
  (0 <= a)%R -> (0 <= b)%R ->
  nth_error t i = Some (id, (Fin a, Fin b)) ->
  exists t',
    pseudocount "zeros only" (Fin p) t = Ok t'
    /\ List.length t' = List.length t
    /\ (Rmin a b = 0%R ->
        nth_error t' i = Some (id, (Fin (a + p), Fin (b + p))))
    /\ (Rmin a b <> 0%R -> nth_error t' i = Some (id, (Fin a, Fin b)))
    /\ pseudocount "zeros only" (Fin 1) [(id, (Fin 0, Fin 5))]
       = Ok [(id, (Fin 1, Fin 6))]
    /\ pseudocount "zeros only" (Fin 1) [(id, (Fin 3, Fin 5))]
       = Ok [(id, (Fin 3, Fin 5))].
Proof.
  intros Ha Hb Hrow. eexists. split; [reflexivity |].
  split; [unfold apply_rows; apply length_map |].
  split; [| split; [| split]].
  - intros Hmin. erewrite nth_error_apply_rows by exact Hrow.
    rewrite row_min_fin. unfold Np.ne, Np.eq.
    rewrite Reqb_true by exact Hmin. reflexivity.
  - intros Hmin. erewrite nth_error_apply_rows by exact Hrow.
    rewrite row_min_fin. unfold Np.ne, Np.eq.
    rewrite Reqb_false by exact Hmin. reflexivity.
  - unfold pseudocount, apply_rows; simpl. rewrite row_min_fin.
    unfold Np.ne, Np.eq, Rmin. destruct (Rle_dec 0 5); [| lra].
    rewrite Reqb_true by reflexivity. unfold row_add, Np.add; simpl.
    replace (0 + 1)%R with 1%R by lra. replace (5 + 1)%R with 6%R by lra.
    reflexivity.
  - unfold pseudocount, apply_rows; simpl. rewrite row_min_fin.
    unfold Np.ne, Np.eq, Rmin. destruct (Rle_dec 3 5); [| lra].
    rewrite Reqb_false by lra. reflexivity.
Qed.

Lemma pseudocount_zeros_only_witness :
  exists t',
    pseudocount "zeros only" (Fin 1)
      [("g1"%string, (Fin 0, Fin 5)); ("g2"%string, (Fin 3, Fin 5))] = Ok t'
    /\ List.length t' = 2
    /\ (Rmin 0 5 = 0%R ->
        nth_error t' 0 = Some ("g1"%string, (Fin (0 + 1), Fin (5 + 1))))
    /\ (Rmin 0 5 <> 0%R ->
        nth_error t' 0 = Some ("g1"%string, (Fin 0, Fin 5)))
    /\ pseudocount "zeros only" (Fin 1) [("g1"%string, (Fin 0, Fin 5))]
       = Ok [("g1"%string, (Fin 1, Fin 6))]
    /\ pseudocount "zeros only" (Fin 1) [("g1"%string, (Fin 3, Fin 5))]
       = Ok [("g1"%string, (Fin 3, Fin 5))].
Proof.
  apply (@pseudocount_zeros_only 1 0 5
           [("g1"%string, (Fin 0, Fin 5)); ("g2"%string, (Fin 3, Fin 5))]
           0 "g1"%string).
  - lra.
  - lra.
  - reflexivity.
Defined.

(** ** C3: the low-count filter *)

Lemma filterLowCounts_all (filterType : string) (T : float64) (t : Frame2) :
  In filterType ["all"; "both"]%string ->
  filterLowCounts t filterType T
  = Ok (map (fun r => if Np.lt (row_min (snd r)) T
                      then (fst r, (NaN, NaN)) else r) t).
Proof.
  intros [<- | [<- | []]]; unfold filterLowCounts; simpl;
    rewrite mask_rows_map; reflexivity.
Qed.

Lemma filterLowCounts_any (filterType : string) (T : float64) (t : Frame2) :
  In filterType ["any"; "either"]%string ->
  filterLowCounts t filterType T
  = Ok (map (fun r => if Np.lt (row_max (snd r)) T
                      then (fst r, (NaN, NaN)) else r) t).
Proof.
  intros [<- | [<- | []]]; unfold filterLowCounts; simpl;
    rewrite mask_rows_map; reflexivity.
Qed.

(** C3.  On a table of two count columns and a threshold [T], the policies
    "all" and "both" mask exactly the rows whose minimum is strictly below
    [T], the policies "any" and "either" exactly the rows whose maximum is
    strictly below [T]; a masked row has the missing value in both cells,
    and every other row is returned as it was. *)
Theorem filterLowCounts_masks_rows
    (filterType : string) (T a b : R) (t : Frame2) (i : nat) (id : guide) :
  nth_error t i = Some (id, (Fin a, Fin b)) ->
  (In filterType ["all"; "both"]%string ->
   exists t',
     filterLowCounts t filterType (Fin T) = Ok t'
     /\ List.length t' = List.length t
     /\ ((Rmin a b < T)%R -> nth_error t' i = Some (id, (NaN, NaN)))
     /\ (~ (Rmin a b < T)%R -> nth_error t' i = Some (id, (Fin a, Fin b))))
  /\ (In filterType ["any"; "either"]%string ->
      exists t',
        filterLowCounts t filterType (Fin T) = Ok t'
        /\ List.length t' = List.length t
        /\ ((Rmax a b < T)%R -> nth_error t' i = Some (id, (NaN, NaN)))
        /\ (~ (Rmax a b < T)%R -> nth_error t' i = Some (id, (Fin a, Fin b)))).
Proof.
  intros Hrow. split; intros Hft.
  - eexists. split; [apply filterLowCounts_all; exact Hft |].
    split; [apply length_map |].
    rewrite nth_error_map, Hrow; simpl. rewrite row_min_fin; simpl.
    split; intros H.
    + rewrite Rltb_true by exact H. reflexivity.
    + rewrite Rltb_false by exact H. reflexivity.
  - eexists. split; [apply filterLowCounts_any; exact Hft |].
    split; [apply length_map |].
    rewrite nth_error_map, Hrow; simpl. rewrite row_max_fin; simpl.
    split; intros H.
    + rewrite Rltb_true by exact H. reflexivity.
    + rewrite Rltb_false by exact H. reflexivity.
Qed.

Lemma filterLowCounts_masks_rows_witness :
  (In "all"%string ["all"; "both"]%string ->
   exists t',
     filterLowCounts [("g1"%string, (Fin 10, Fin 80))] "all" (Fin 50) = Ok t'
     /\ List.length t' = 1
     /\ ((Rmin 10 80 < 50)%R -> nth_error t' 0 = Some ("g1"%string, (NaN, NaN)))
     /\ (~ (Rmin 10 80 < 50)%R ->
         nth_error t' 0 = Some ("g1"%string, (Fin 10, Fin 80))))
  /\ (In "all"%string ["any"; "either"]%string ->
      exists t',
        filterLowCounts [("g1"%string, (Fin 10, Fin 80))] "all" (Fin 50) = Ok t'
        /\ List.length t' = 1
        /\ ((Rmax 10 80 < 50)%R ->
            nth_error t' 0 = Some ("g1"%string, (NaN, NaN)))
        /\ (~ (Rmax 10 80 < 50)%R ->
            nth_error t' 0 = Some ("g1"%string, (Fin 10, Fin 80)))).
Proof.
  apply (@filterLowCounts_masks_rows "all" 50 10 80
           [("g1"%string, (Fin 10, Fin 80))] 0 "g1"%string).
  reflexivity.
Defined.

(** ** C10: unrecognized names *)

Lemma eqb_neq_of_not_In (s x : string) (l : list string) :
  ~ In s l -> In x l -> (s =? x)%string = false.
Proof.
  intros Hs Hx. apply String.eqb_neq. intros ->. contradiction.
Qed.

(** C10.  Each of the three dispatchers raises on a name it does not know:
    [filterLowCounts] on a filter type other than 'both', 'all', 'either',
    'any'; [computePhenotypeScore] on a pseudocount behavior other than
    'default', 'zeros only', 'all values', 'filter out';
    [applyGeneScoreFunction] on an analysis other than 'calculate_ave',
    'calculate_mw', 'calculate_nth'. *)
Theorem dispatchers_raise_on_unrecognized :
  (forall (t : Frame2) (filterType : string) (T : float64),
      ~ In filterType ["both"; "all"; "either"; "any"]%string ->
      filterLowCounts t filterType T
      = Raise (ValueError "filter type not recognized or not implemented"))
  /\ (forall (counts1 counts2 : Series) (lib : LibraryTable) (g : float64)
             (behavior : string) (p : float64) (normToNegs : bool),
         ~ In behavior
             ["default"; "zeros only"; "all values"; "filter out"]%string ->
         computePhenotypeScore counts1 counts2 lib g behavior p normToNegs
         = Raise (ValueError
                    "Pseudocount behavior not recognized or not implemented"))
  /\ (forall mw mw2 (minor : Z) (G : Type) (grouped : Grouped G)
             (negativeTable : Group) (analysis : string) (params : list Z),
         ~ In analysis
             ["calculate_ave"; "calculate_mw"; "calculate_nth"]%string ->
         applyGeneScoreFunction mw mw2 minor grouped negativeTable analysis params
         = Raise (ValueError ("Analysis " ++ analysis
                              ++ " not recognized or not implemented"))).
Proof.
  split; [| split].
  - intros t ft T H. unfold filterLowCounts.
    rewrite !(@eqb_neq_of_not_In _ _ _ H) by (simpl; tauto). reflexivity.
  - intros c1 c2 lib g bh p n H. unfold computePhenotypeScore, pseudocount.
    rewrite !(@eqb_neq_of_not_In _ _ _ H) by (simpl; tauto). reflexivity.
  - intros mw mw2 minor G grouped neg an params H.
    unfold applyGeneScoreFunction.
    rewrite !(@eqb_neq_of_not_In _ _ _ H) by (simpl; tauto). reflexivity.
Qed.

Lemma not_In_strings_dec (s : string) (l : list string) :
  (if in_dec string_dec s l then False else True) -> ~ In s l.
Proof. destruct (in_dec string_dec s l); [contradiction | auto]. Qed.

Lemma dispatchers_raise_on_unrecognized_witness :
  filterLowCounts [("g1"%string, (Fin 10, Fin 80))] "most" (Fin 50)
  = Raise (ValueError "filter type not recognized or not implemented")
  /\ computePhenotypeScore [("g1"%string, Fin 10)] [("g1"%string, Fin 80)]
       [mkLibraryRow "g1"%string (Some "top5"%string) "negative_control" "na"
          "ACGT"]
       (Fin 1) "Zeros Only" (Fin 1) true
     = Raise (ValueError
                "Pseudocount behavior not recognized or not implemented")
  /\ applyGeneScoreFunction (fun _ _ => Ok (Fin 0, Fin 1))
       (fun _ _ => Ok (Fin 0, Fin 1)) 19
       [("geneA"%string, [(("gamma", "Rep1")%string, [Fin 1])])]
       [(("gamma", "Rep1")%string, [Fin 0])] "calculate_ks" [3%Z]
     = Raise (ValueError
                "Analysis calculate_ks not recognized or not implemented").
Proof.
  destruct dispatchers_raise_on_unrecognized as [Hf [Hp Ha]].
  split; [| split].
  - apply Hf. apply not_In_strings_dec. exact I.
  - apply Hp. apply not_In_strings_dec. exact I.
  - apply (Ha _ _ _ _ _ _ "calculate_ks"%string).
    apply not_In_strings_dec. exact I.
Defined.

(** ** C9: Mann-Whitney on a group without a valid score *)

Section MannWhitney.

Variable mw mw2 : list float64 -> list float64 -> result (float64 * float64).
Variable minor : Z.

Lemma applyMW_column_no_valid (name : colkey) (column : list float64)
    (negativeTable : Group) :
  Pd.count column = 0 ->
  applyMW_column mw mw2 minor name column negativeTable = Ok NaN.
Proof.
  unfold Pd.count, applyMW_column. intros ->. simpl.
  destruct (17 <=? minor)%Z; reflexivity.
Qed.

Lemma applyMW_all_no_valid (group negativeTable : Group) :
  (forall c, In c group -> Pd.count (snd c) = 0) ->
  applyMW mw mw2 minor group negativeTable
  = Ok (map (fun c => (fst c, NaN)) group).
Proof.
  unfold applyMW. induction group as [| c group IH]; intros H; simpl.
  - reflexivity.
  - rewrite applyMW_column_no_valid by (apply H; left; reflexivity).
    simpl. rewrite IH by (intros c' Hc'; apply H; right; exact Hc').
    reflexivity.
Qed.

End MannWhitney.

(** C9.  The calculate_mw analysis gives the missing value, and raises
    nothing, on a column of a gene group that holds no valid score: whatever
    the Mann-Whitney routine, the scipy version and the negative table are,
    the column's p-value is NaN, and so is every p-value of a group all of
    whose columns are without a valid score. *)
Theorem applyMW_missing_on_no_valid_guides
    (mw mw2 : list float64 -> list float64 -> result (float64 * float64))
    (minor : Z) (group negativeTable : Group) :
  (forall c, In c group -> Pd.count (snd c) = 0) ->
  applyMW mw mw2 minor group negativeTable
  = Ok (map (fun c => (fst c, NaN)) group)
  /\ forall c, In c group ->
       applyMW_column mw mw2 minor (fst c) (snd c) negativeTable = Ok NaN.
Proof.
  intros H. split.
  - apply applyMW_all_no_valid. exact H.
  - intros c Hc. apply applyMW_column_no_valid. apply H. exact Hc.
Qed.

Lemma applyMW_missing_on_no_valid_guides_witness :
  let raising := fun _ _ : list float64 =>
    @Raise (float64 * float64) (ValueError "All numbers are identical") in
  let group := [(("gamma", "Rep1")%string, [NaN; NaN]);
                (("gamma", "Rep2")%string, [])] in
  applyMW raising raising 19 group [] = Ok (map (fun c => (fst c, NaN)) group)
  /\ forall c, In c group ->
       applyMW_column raising raising 19 (fst c) (snd c) [] = Ok NaN.
Proof.
  intros raising group.
  apply (@applyMW_missing_on_no_valid_guides raising raising 19 group []).
  intros c [<- | [<- | []]]; reflexivity.
Defined.

(** ** C5: the pseudogene stage on an unrecognized mode *)

Lemma pseudogeneStage_unrecognized (exptParameters : ExptParameters)
    (phenotypeTable negTable : Frame) (libraryTable : LibraryTable) (w : World) :
  generate_pseudogene_dist exptParameters <> "off"%string ->
  ~ In (Py.lower (generate_pseudogene_dist exptParameters))
       ["manual"; "auto"]%string ->
  analyses exptParameters <> [] ->
  pseudogeneStage exptParameters phenotypeTable negTable libraryTable w
  = (Raise (ValueError "No objects to concatenate"),
     mkWorld
       (stdout w
        ++ ["Generating a pseudogene distribution from negative controls"%string]
        ++ ["generate_pseudogene_dist parameter not recognized, defaulting to off"%string])
       (draws w) (drawn w)).
Proof.
  intros Hoff Hmode Han. unfold pseudogeneStage.
  apply String.eqb_neq in Hoff. rewrite Hoff.
  destruct (analyses exptParameters) as [| a l]; [contradiction |]. simpl.
  rewrite !(@eqb_neq_of_not_In _ _ _ Hmode) by (simpl; tauto).
  unfold bind, print, ret, lift; simpl. rewrite <- app_assoc. reflexivity.
Qed.

(** C5 (the code does not do this).  With the mode 'foo' and one analysis
    requested, the stage prints its two lines, the second being the warning
    that it falls back to 'off', and then raises [ValueError] from
    [pd.concat] of the empty list of pseudogene tables: the run stops there
    instead of going on without pseudogenes. *)
Theorem pseudogeneStage_mode_foo_raises :
  let exptParameters :=
    mkExptParameters "foo" 0 0 [("calculate_ave"%string, [3%Z])] in
  let table := mkFrame [("gamma", "Rep1")%string] [("g1"%string, [Fin 0])] in
  let libraryTable :=
    [mkLibraryRow "g1"%string (Some "top5"%string) "negative_control" "na"
       "ACGT"] in
  let w := mkWorld [] (fun n => n) 0 in
  pseudogeneStage exptParameters table table libraryTable w
  = (Raise (ValueError "No objects to concatenate"),
     mkWorld
       ["Generating a pseudogene distribution from negative controls"%string;
        "generate_pseudogene_dist parameter not recognized, defaulting to off"%string]
       (fun n => n) 0).
Proof. reflexivity. Qed.

(** ** The list sort permutes its input *)

Section ListSortPermutation.

Variable A : Type.
Variable lt : A -> A -> bool.

Lemma insert_at_perm (i : nat) (x : A) (a : list A) :
  Permutation (Py.insert_at i x a) (x :: a).
Proof.
  unfold Py.insert_at. transitivity (x :: firstn i a ++ skipn i a).
  - symmetry. apply Permutation_middle.
  - rewrite firstn_skipn. reflexivity.
Qed.

Lemma binarysort_perm (rest prefix : list A) :
  Permutation (Py.binarysort lt prefix rest) (prefix ++ rest).
Proof.
  unfold Py.binarysort. revert prefix.
  induction rest as [| x rest IH]; intros prefix; simpl.
  - rewrite app_nil_r. reflexivity.
  - rewrite IH. unfold Py.binary_insert. rewrite insert_at_perm.
    simpl. apply Permutation_middle.
Qed.

Lemma listsort_perm (l : list A) : Permutation (Py.listsort lt l) l.
Proof.
  unfold Py.listsort. destruct l as [| a [| b l]]; try reflexivity.
  generalize (a :: b :: l) as m. intros m.
  destruct (Py.count_run lt m) as [n descending].
  rewrite binarysort_perm.
  transitivity (firstn n m ++ skipn n m).
  - apply Permutation_app_tail.
    destruct descending; [symmetry; apply Permutation_rev | reflexivity].
  - rewrite firstn_skipn. reflexivity.
Qed.

Lemma listsort_length (l : list A) :
  List.length (Py.listsort lt l) = List.length l.
Proof. apply Permutation_length, listsort_perm. Qed.

End ListSortPermutation.

Lemma sorted_perm {A K} (ltK : K -> K -> bool) (key : A -> K) (reverse : bool)
    (l : list A) :
  Permutation (Py.sorted ltK key reverse l) l.
Proof.
  unfold Py.sorted. destruct reverse.
  - rewrite <- Permutation_rev, listsort_perm, <- Permutation_rev. reflexivity.
  - apply listsort_perm.
Qed.

(** ** C8: merging conserves the reads *)

Lemma wrap64_mod (z : Z) : (wrap64 z mod 2 ^ 64 = z mod 2 ^ 64)%Z.
Proof.
  unfold wrap64.
  rewrite Zminus_mod, Zmod_mod, <- Zminus_mod.
  f_equal. lia.
Qed.

Lemma wrap64_congr (a b : Z) :
  (a mod 2 ^ 64 = b mod 2 ^ 64)%Z -> wrap64 a = wrap64 b.
Proof.
  intros H. unfold wrap64.
  rewrite (Zplus_mod a), (Zplus_mod b), H. reflexivity.
Qed.

Lemma wrap64_add_l (a b : Z) : wrap64 (wrap64 a + b) = wrap64 (a + b).
Proof.
  apply wrap64_congr. rewrite Zplus_mod, wrap64_mod, <- Zplus_mod. reflexivity.
Qed.

Lemma wrap64_add_r (a b : Z) : wrap64 (a + wrap64 b) = wrap64 (a + b).
Proof. rewrite Z.add_comm, wrap64_add_l. f_equal. lia. Qed.

Lemma wrap64_small (z : Z) : (- 2 ^ 63 <= z < 2 ^ 63)%Z -> wrap64 z = z.
Proof. intros H. unfold wrap64. rewrite Z.mod_small; lia. Qed.

Lemma fold_add64 (l : list Z) (acc : Z) :
  fold_left add64 l (wrap64 acc) = wrap64 (acc + Zsum l).
Proof.
  revert acc. induction l as [| x l IH]; intros acc; simpl.
  - rewrite Z.add_0_r. reflexivity.
  - unfold add64 at 2. rewrite wrap64_add_l.
    rewrite IH. f_equal. lia.
Qed.

Lemma sum64_Zsum (l : list Z) : sum64 l = wrap64 (Zsum l).
Proof.
  unfold sum64. change 0%Z with (wrap64 0) at 1. apply fold_add64.
Qed.

Lemma zip_add64_length (a b : list Z) :
  List.length a = List.length b ->
  List.length (zip_add64 a b) = List.length a.
Proof.
  revert b. induction a as [| x a IH]; intros [| y b] H; simpl in *;
    try reflexivity; try discriminate.
  f_equal. apply IH. lia.
Qed.

Lemma zip_add64_Zsum (a b : list Z) :
  List.length a = List.length b ->
  wrap64 (Zsum (zip_add64 a b)) = wrap64 (Zsum a + Zsum b).
Proof.
  revert b. induction a as [| x a IH]; intros [| y b] H; simpl in *;
    try reflexivity; try discriminate.
  unfold add64. rewrite wrap64_add_l.
  rewrite <- wrap64_add_r, IH by lia. rewrite wrap64_add_r.
  f_equal. lia.
Qed.

Lemma sum_columns_gen (cols : list (list Z)) (acc : list Z) :
  Forall (fun c => List.length c = List.length acc) cols ->
  List.length (fold_left zip_add64 cols acc) = List.length acc
  /\ wrap64 (Zsum (fold_left zip_add64 cols acc))
     = wrap64 (Zsum acc + Zsum (map Zsum cols)).
Proof.
  revert acc. induction cols as [| c cols IH]; intros acc H; simpl.
  - split; [reflexivity | f_equal; lia].
  - inversion H as [| c' cols' Hc Hcols]; subst.
    assert (Hlen : List.length (zip_add64 acc c) = List.length acc)
      by (apply zip_add64_length; lia).
    destruct (IH (zip_add64 acc c)) as [IHlen IHsum].
    { rewrite Hlen. exact Hcols. }
    split; [lia |].
    rewrite IHsum, <- wrap64_add_l, zip_add64_Zsum by lia.
    rewrite wrap64_add_l. f_equal. lia.
Qed.

Lemma Zsum_repeat_0 (n : nat) : Zsum (repeat 0%Z n) = 0%Z.
Proof. induction n; simpl; [reflexivity | exact IHn]. Qed.

Lemma sum_columns_Zsum (n : nat) (cols : list (list Z)) :
  Forall (fun c => List.length c = n) cols ->
  wrap64 (Zsum (sum_columns n cols)) = wrap64 (Zsum (map Zsum cols)).
Proof.
  intros H. unfold sum_columns.
  destruct (@sum_columns_gen cols (repeat 0%Z n)) as [_ Hs].
  { rewrite repeat_length. exact H. }
  rewrite Hs, Zsum_repeat_0. reflexivity.
Qed.

Lemma colkey_eqb_eq (a b : colkey) : colkey_eqb a b = true <-> a = b.
Proof.
  unfold colkey_eqb. destruct a as [a1 a2], b as [b1 b2]; simpl.
  rewrite andb_true_iff, !String.eqb_eq. split.
  - intros [-> ->]. reflexivity.
  - intros H. inversion H. split; reflexivity.
Qed.

Lemma colkey_eqb_refl (a : colkey) : colkey_eqb a a = true.
Proof. apply colkey_eqb_eq. reflexivity. Qed.

Section Dedup.

Variable A : Type.
Variable eqb : A -> A -> bool.
Hypothesis eqb_eq : forall a b, eqb a b = true <-> a = b.

Lemma dedup_In (x : A) (l : list A) : In x (dedup eqb l) <-> In x l.
Proof.
  induction l as [| y l IH]; simpl; [tauto |].
  rewrite filter_In, IH. split.
  - intros [H | [H _]]; auto.
  - intros [H | H]; [auto |].
    destruct (eqb y x) eqn:E.
    + left. apply eqb_eq. exact E.
    + right. split; [exact H | reflexivity].
Qed.

Lemma dedup_NoDup (l : list A) : NoDup (dedup eqb l).
Proof.
  induction l as [| y l IH]; simpl; constructor.
  - rewrite filter_In. intros [_ H].
    assert (E : eqb y y = true) by (apply eqb_eq; reflexivity).
    rewrite E in H. discriminate.
  - apply NoDup_filter. exact IH.
Qed.

End Dedup.

Lemma Zsum_app (a b : list Z) : Zsum (a ++ b) = (Zsum a + Zsum b)%Z.
Proof. induction a as [| x a IH]; simpl; [reflexivity | rewrite IH; lia]. Qed.

Lemma Zsum_perm (a b : list Z) : Permutation a b -> Zsum a = Zsum b.
Proof. induction 1; simpl; lia. Qed.

Lemma wrap64_Zsum_map {A} (h : A -> Z) (l : list A) :
  wrap64 (Zsum (map (fun x => wrap64 (h x)) l)) = wrap64 (Zsum (map h l)).
Proof.
  induction l as [| x l IH]; simpl; [reflexivity |].
  rewrite wrap64_add_l, <- wrap64_add_r, IH, wrap64_add_r. reflexivity.
Qed.

Lemma wrap64_Zsum_map_ext {A} (f h : A -> Z) (l : list A) :
  (forall x, In x l -> wrap64 (f x) = wrap64 (h x)) ->
  wrap64 (Zsum (map f l)) = wrap64 (Zsum (map h l)).
Proof.
  intros H. rewrite <- (wrap64_Zsum_map f), <- (wrap64_Zsum_map h).
  do 2 f_equal. apply map_ext_in. exact H.
Qed.

(** Summing group by group is summing everything, when every column falls
    in exactly one group. *)
Section GroupSums.

Variable C : Type.
Variable key : C -> colkey.
Variable f : C -> Z.

Lemma group_sum_cons_other (c : C) (cols : list C) (ks : list colkey) :
  ~ In (key c) ks ->
  Zsum (map (group_sum key f (c :: cols)) ks)
  = Zsum (map (group_sum key f cols) ks).
Proof.
  intros H. f_equal. apply map_ext_in. intros k Hk. unfold group_sum; simpl.
  destruct (colkey_eqb (key c) k) eqn:E; [| reflexivity].
  apply colkey_eqb_eq in E. subst k. contradiction.
Qed.

Lemma group_sum_cons (c : C) (cols : list C) (ks : list colkey) :
  NoDup ks -> In (key c) ks ->
  Zsum (map (group_sum key f (c :: cols)) ks)
  = (f c + Zsum (map (group_sum key f cols) ks))%Z.
Proof.
  induction 1 as [| k ks Hk Hnd IH]; intros Hin; simpl in *; [contradiction |].
  destruct (colkey_eqb (key c) k) eqn:E.
  - apply colkey_eqb_eq in E. subst k.
    rewrite group_sum_cons_other by exact Hk.
    unfold group_sum; simpl. rewrite colkey_eqb_refl. simpl. lia.
  - destruct Hin as [Heq | Hin].
    + subst k. rewrite colkey_eqb_refl in E. discriminate.
    + rewrite IH by exact Hin.
      unfold group_sum at 1; simpl. rewrite E.
      fold (group_sum key f cols k). lia.
Qed.

Lemma group_sums_total (cols : list C) (ks : list colkey) :
  NoDup ks -> (forall c, In c cols -> In (key c) ks) ->
  Zsum (map (group_sum key f cols) ks) = Zsum (map f cols).
Proof.
  intros Hnd. induction cols as [| c cols IH]; intros Hall.
  - unfold group_sum; simpl. clear Hnd Hall.
    induction ks; simpl; [reflexivity | assumption].
  - rewrite group_sum_cons; [| exact Hnd | apply Hall; left; reflexivity].
    simpl. rewrite IH; [reflexivity |].
    intros c' Hc'. apply Hall. right. exact Hc'.
Qed.

End GroupSums.

Lemma wrap64_idem (z : Z) : wrap64 (wrap64 z) = wrap64 z.
Proof. apply wrap64_congr, wrap64_mod. Qed.

Lemma total_reads_Zsum {K} (t : CountsTable K) :
  total_reads t = wrap64 (Zsum (map (fun c => Zsum (snd c)) (ct_columns t))).
Proof.
  unfold total_reads, column_totals. rewrite sum64_Zsum, map_map; simpl.
  rewrite <- (wrap64_Zsum_map (fun c : K * list Z => Zsum (snd c))).
  do 2 f_equal. apply map_ext. intros c. apply sum64_Zsum.
Qed.

Lemma merged_group_total (t : CountsTable rawkey) (k : colkey) :
  aligned t ->
  wrap64 (Zsum (sum_columns (List.length (ct_index t))
                  (map snd (filter (fun c => colkey_eqb (level01 (fst c)) k)
                                   (ct_columns t)))))
  = wrap64 (group_sum (fun c => level01 (fst c)) (fun c => Zsum (snd c))
              (ct_columns t) k).
Proof.
  intros Hal. rewrite sum_columns_Zsum.
  - unfold group_sum. rewrite map_map. reflexivity.
  - apply Forall_map. apply Forall_forall. intros c Hc.
    apply filter_In in Hc. destruct Hc as [Hc _].
    unfold aligned in Hal. rewrite Forall_forall in Hal. apply Hal. exact Hc.
Qed.

Lemma Zsum_nonneg (l : list Z) :
  Forall (fun v => (0 <= v)%Z) l -> (0 <= Zsum l)%Z.
Proof. induction 1; simpl; lia. Qed.

Lemma Zsum_bounds_element (l : list Z) (x : Z) :
  Forall (fun v => (0 <= v)%Z) l -> In x l -> (0 <= x <= Zsum l)%Z.
Proof.
  induction 1 as [| v l Hv Hl IH]; intros Hin; simpl in *; [contradiction |].
  pose proof (Zsum_nonneg Hl). destruct Hin as [-> | Hin]; [lia |].
  specialize (IH Hin). lia.
Qed.

(** Totals that are not negative and add up to less than 2^63 are not
    changed by the wrap-around. *)
Lemma map_wrap64_exact {A} (h : A -> Z) (l : list A) :
  Forall (fun x => (0 <= h x)%Z) l -> (Zsum (map h l) < 2 ^ 63)%Z ->
  map (fun x => wrap64 (h x)) l = map h l.
Proof.
  intros Hnn Hlt. apply map_ext_in. intros x Hx.
  assert (Hb : (0 <= h x <= Zsum (map h l))%Z).
  { apply Zsum_bounds_element.
    - apply Forall_map. exact Hnn.
    - apply in_map. exact Hx. }
  apply wrap64_small. lia.
Qed.

Lemma group_sum_nonneg {C} (key : C -> colkey) (f : C -> Z) (cols : list C)
    (k : colkey) :
  Forall (fun c => (0 <= f c)%Z) cols -> (0 <= group_sum key f cols k)%Z.
Proof.
  intros H. unfold group_sum. apply Zsum_nonneg. apply Forall_map.
  rewrite Forall_forall in *. intros c Hc. apply filter_In in Hc.
  apply H. tauto.
Qed.

Lemma column_totals_exact {K} (t : CountsTable K) :
  nonneg_counts t -> (exact_reads t < 2 ^ 63)%Z ->
  map snd (column_totals t) = map (fun c => Zsum (snd c)) (ct_columns t).
Proof.
  intros Hnn Hlt. unfold column_totals. rewrite map_map; simpl.
  rewrite <- (@map_wrap64_exact _ (fun c : K * list Z => Zsum (snd c)));
    [| | exact Hlt].
  - apply map_ext. intros c. apply sum64_Zsum.
  - unfold nonneg_counts in Hnn. rewrite Forall_forall in *. intros c Hc.
    apply Zsum_nonneg. apply Hnn. exact Hc.
Qed.

Lemma merged_totals_by_group (t : CountsTable rawkey) :
  aligned t ->
  map snd (column_totals (mergeCounts t))
  = map (fun k => wrap64 (group_sum (fun c => level01 (fst c))
                            (fun c => Zsum (snd c)) (ct_columns t) k))
        (map fst (exptGroups t)).
Proof.
  intros Hal. unfold column_totals, mergeCounts, exptGroups; simpl.
  rewrite !map_map; simpl. apply map_ext. intros k.
  rewrite sum64_Zsum. apply merged_group_total. exact Hal.
Qed.

Lemma exptGroups_keys (t : CountsTable rawkey) :
  Permutation (map fst (exptGroups t))
    (dedup colkey_eqb (map (fun c => level01 (fst c)) (ct_columns t))).
Proof.
  unfold exptGroups. rewrite map_map; simpl. rewrite map_id.
  apply listsort_perm.
Qed.

Lemma group_sums_of_table (t : CountsTable rawkey) :
  Zsum (map (group_sum (fun c => level01 (fst c)) (fun c => Zsum (snd c))
               (ct_columns t))
            (map fst (exptGroups t)))
  = exact_reads t.
Proof.
  rewrite (Zsum_perm (Permutation_map _ (exptGroups_keys t))).
  apply group_sums_total.
  - apply dedup_NoDup. exact colkey_eqb_eq.
  - intros c Hc. apply dedup_In; [exact colkey_eqb_eq |].
    apply in_map_iff. exists c. split; [reflexivity | exact Hc].
Qed.

(** C8.  Merging the raw counts by (condition, replicate) conserves the
    reads: the sum of the totals of the merged columns equals the sum of the
    totals of the raw columns.  This holds for the sums as int64 computes
    them, and, when no count is negative and the reads number fewer than
    2^63, for the exact sums, both being the number of reads. *)
Theorem merge_conserves_reads (countsTable : CountsTable rawkey) :
  aligned countsTable ->
  total_reads (mergeCounts countsTable) = total_reads countsTable
  /\ (nonneg_counts countsTable ->
      (exact_reads countsTable < 2 ^ 63)%Z ->
      Zsum (map snd (column_totals (mergeCounts countsTable)))
      = Zsum (map snd (column_totals countsTable))
      /\ Zsum (map snd (column_totals countsTable)) = exact_reads countsTable).
Proof.
  intros Hal. split.
  - unfold total_reads at 1. rewrite sum64_Zsum, (merged_totals_by_group Hal).
    rewrite wrap64_Zsum_map, group_sums_of_table.
    rewrite total_reads_Zsum. reflexivity.
  - intros Hnn Hlt.
    rewrite (column_totals_exact Hnn Hlt).
    split; [| reflexivity].
    rewrite (merged_totals_by_group Hal), map_wrap64_exact.
    + apply group_sums_of_table.
    + apply Forall_forall. intros k _. apply group_sum_nonneg.
      unfold nonneg_counts in Hnn. rewrite Forall_forall in *. intros c Hc.
      apply Zsum_nonneg. apply Hnn. exact Hc.
    + rewrite group_sums_of_table. exact Hlt.
Qed.

Lemma merge_conserves_reads_witness :
  let countsTable :=
    mkCountsTable ["g1"; "g2"]%string
      [(("T0", "Rep1", "lane1.counts")%string, [3; 0]%Z);
       (("T0", "Rep1", "lane2.counts")%string, [4; 1]%Z);
       (("treated", "Rep1", "lane1.counts")%string, [10; 20]%Z)] in
  total_reads (mergeCounts countsTable) = total_reads countsTable
  /\ (nonneg_counts countsTable ->
      (exact_reads countsTable < 2 ^ 63)%Z ->
      Zsum (map snd (column_totals (mergeCounts countsTable)))
      = Zsum (map snd (column_totals countsTable))
      /\ Zsum (map snd (column_totals countsTable)) = exact_reads countsTable).
Proof.
  intros countsTable. apply (@merge_conserves_reads countsTable).
  repeat constructor.
Defined.

(** ** Averaging the replicates: the sums and the dict *)

Lemma add_NaN_l (x : float64) : Np.add NaN x = NaN.
Proof. reflexivity. Qed.

Lemma add_NaN_r (x : float64) : Np.add x NaN = NaN.
Proof. destruct x; reflexivity. Qed.

Lemma fold_add_NaN (l : list float64) : fold_left Np.add l NaN = NaN.
Proof. induction l as [| x l IH]; simpl; [reflexivity | exact IH]. Qed.

Lemma sum_with_NaN (l : list float64) (acc : float64) :
  In NaN l -> fold_left Np.add l acc = NaN.
Proof.
  revert acc. induction l as [| x l IH]; intros acc H; simpl in *.
  - contradiction.
  - destruct H as [-> | H].
    + rewrite add_NaN_r. apply fold_add_NaN.
    + apply IH. exact H.
Qed.

Lemma sum_of_Fin (rs : list R) (a : R) :
  fold_left Np.add (map Fin rs) (Fin a) = Fin (a + Rsum rs).
Proof.
  revert a. induction rs as [| r rs IH]; intros a; simpl.
  - f_equal. lra.
  - rewrite IH. f_equal. lra.
Qed.

Lemma mean_with_NaN (l : list float64) : In NaN l -> Np.mean l = NaN.
Proof.
  intros H. unfold Np.mean, Np.sum. rewrite sum_with_NaN by exact H.
  reflexivity.
Qed.

Lemma mean_of_Fin (rs : list R) :
  rs <> [] ->
  Np.mean (map Fin rs) = Fin (Rsum rs / INR (List.length rs)).
Proof.
  intros Hne. unfold Np.mean, Np.sum, Np.of_nat.
  rewrite sum_of_Fin, length_map. unfold Np.div.
  rewrite Reqb_false.
  - f_equal. f_equal. lra.
  - apply not_0_INR. destruct rs; [contradiction | discriminate].
Qed.

Lemma dict_get_set_same {V} (k : colkey) (v : V) (d : list (colkey * V)) :
  dict_get k (dict_set k v d) = Some v.
Proof.
  induction d as [| kv d IH]; simpl.
  - rewrite colkey_eqb_refl. reflexivity.
  - destruct (colkey_eqb (fst kv) k) eqn:E; simpl.
    + rewrite colkey_eqb_refl. reflexivity.
    + rewrite E. exact IH.
Qed.

Lemma dict_get_set_other {V} (k k' : colkey) (v : V) (d : list (colkey * V)) :
  k' <> k -> dict_get k' (dict_set k v d) = dict_get k' d.
Proof.
  intros Hne. induction d as [| kv d IH]; simpl.
  - destruct (colkey_eqb k k') eqn:E; [| reflexivity].
    apply colkey_eqb_eq in E. congruence.
  - destruct (colkey_eqb (fst kv) k) eqn:E; simpl.
    + apply colkey_eqb_eq in E.
      destruct (colkey_eqb k k') eqn:E1.
      * apply colkey_eqb_eq in E1. congruence.
      * destruct (colkey_eqb (fst kv) k') eqn:E2; [| reflexivity].
        apply colkey_eqb_eq in E2. congruence.
    + destruct (colkey_eqb (fst kv) k'); [reflexivity | exact IH].
Qed.

Lemma replicate_columns_set_other (p q lab : string) (v : Series)
    (d : list (colkey * Series)) :
  q <> p ->
  replicate_columns q (dict_set (p, lab) v d) = replicate_columns q d.
Proof.
  intros Hne. unfold replicate_columns.
  assert (Hp : (p =? q)%string = false) by (apply String.eqb_neq; congruence).
  induction d as [| [[kp kl] kv] d IH]; simpl.
  - rewrite Hp. reflexivity.
  - destruct (colkey_eqb (kp, kl) (p, lab)) eqn:E; simpl.
    + apply colkey_eqb_eq in E. inversion E; subst. rewrite Hp. reflexivity.
    + rewrite IH. reflexivity.
Qed.

Section Averaging.

Variable replicateList : list string.

Lemma averaging_keeps_other_columns (ps : list string) (q : string)
    (d : list (colkey * Series)) :
  ~ In q ps ->
  replicate_columns q (fold_left (average_step replicateList) ps d) = replicate_columns q d.
Proof.
  revert d. induction ps as [| p ps IH]; intros d Hq; simpl.
  - reflexivity.
  - rewrite IH by (intros H; apply Hq; right; exact H).
    apply replicate_columns_set_other. intros ->. apply Hq. left. reflexivity.
Qed.

Lemma averaging_keeps_other_keys (ps : list string) (k : colkey)
    (d : list (colkey * Series)) :
  ~ In (fst k) ps -> dict_get k (fold_left (average_step replicateList) ps d) = dict_get k d.
Proof.
  revert d. induction ps as [| p ps IH]; intros d Hq; simpl.
  - reflexivity.
  - rewrite IH by (intros H; apply Hq; right; exact H).
    apply dict_get_set_other. intros ->. apply Hq. left. reflexivity.
Qed.

Lemma averaging_sets_average (ps : list string) (q : string)
    (d : list (colkey * Series)) :
  NoDup ps -> In q ps ->
  dict_get (q, ave_label replicateList) (fold_left (average_step replicateList) ps d)
  = Some (mean_of_columns (replicate_columns q d)).
Proof.
  intros Hnd. revert d. induction Hnd as [| p ps Hp Hnd IH]; intros d Hq.
  - contradiction.
  - simpl. destruct Hq as [-> | Hq].
    + rewrite averaging_keeps_other_keys by exact Hp.
      apply dict_get_set_same.
    + rewrite IH by exact Hq. f_equal. f_equal.
      apply replicate_columns_set_other. intros ->. contradiction.
Qed.

End Averaging.

Lemma nth_error_enumerated {A} (l : list A) (a i : nat) (x : A) :
  nth_error l i = Some x ->
  nth_error (combine (seq a (List.length l)) l) i = Some (a + i, x).
Proof.
  revert a i. induction l as [| y l IH]; intros a [| i] H; simpl in *;
    try discriminate.
  - inversion H. subst. rewrite Nat.add_0_r. reflexivity.
  - rewrite (IH (S a) i H). do 2 f_equal. lia.
Qed.

(** ** The phenotype score on positive counts *)

Lemma dropna_Fin (rs : list R) : Pd.dropna (map Fin rs) = map Fin rs.
Proof. induction rs as [| r rs IH]; simpl; [reflexivity | rewrite IH; reflexivity]. Qed.

Lemma pd_sum_Fin (rs : list R) : Pd.sum (map Fin rs) = Fin (Rsum rs).
Proof.
  unfold Pd.sum, Np.sum. rewrite dropna_Fin, sum_of_Fin. f_equal. lra.
Qed.

Lemma positive_first_column (t : Frame2) :
  positive_counts t ->
  map (fun r => fst (snd r)) t = map Fin (map (fun r => toR (fst (snd r))) t).
Proof.
  intros H. rewrite map_map. apply map_ext_in. intros r Hr.
  unfold positive_counts in H. rewrite Forall_forall in H.
  destruct (H r Hr) as (a & b & E & _). rewrite E. reflexivity.
Qed.

Lemma positive_second_column (t : Frame2) :
  positive_counts t ->
  map (fun r => snd (snd r)) t = map Fin (map (fun r => toR (snd (snd r))) t).
Proof.
  intros H. rewrite map_map. apply map_ext_in. intros r Hr.
  unfold positive_counts in H. rewrite Forall_forall in H.
  destruct (H r Hr) as (a & b & E & _). rewrite E. reflexivity.
Qed.

Lemma Rsum_positive (rs : list R) :
  rs <> [] -> Forall (fun r => 0 < r)%R rs -> (0 < Rsum rs)%R.
Proof.
  intros Hne H. induction H as [| r rs Hr Hrs IH]; [contradiction |].
  simpl. destruct rs as [| r' rs'].
  - simpl. lra.
  - assert (0 < Rsum (r' :: rs'))%R by (apply IH; discriminate). lra.
Qed.

Lemma positive_column_sums (t : Frame2) :
  t <> [] -> positive_counts t ->
  (0 < Rsum (map (fun r => toR (fst (snd r))) t))%R
  /\ (0 < Rsum (map (fun r => toR (snd (snd r))) t))%R.
Proof.
  intros Hne H. unfold positive_counts in H. rewrite Forall_forall in H.
  split; apply Rsum_positive;
    try (destruct t; [contradiction | discriminate]);
    apply Forall_forall; intros x Hx; apply in_map_iff in Hx;
    destruct Hx as (r & <- & Hr); destruct (H r Hr) as (a & b & E & Ha & Hb);
    rewrite E; simpl; assumption.
Qed.

Lemma spec_countsRatio_positive (t : Frame2) :
  t <> [] -> positive_counts t -> (0 < spec_countsRatio t)%R.
Proof.
  intros Hne H. destruct (positive_column_sums Hne H) as [H1 H2].
  unfold spec_countsRatio. apply Rdiv_lt_0_compat; assumption.
Qed.

(** The code's ratio of the column totals is the ratio of the exact sums. *)
Lemma code_countsRatio (t : Frame2) :
  t <> [] -> positive_counts t ->
  Np.div (Pd.sum (map (fun r => fst (snd r)) t))
         (Pd.sum (map (fun r => snd (snd r)) t))
  = Fin (spec_countsRatio t).
Proof.
  intros Hne H. destruct (positive_column_sums Hne H) as [H1 H2].
  rewrite (positive_first_column H), (positive_second_column H), !pd_sum_Fin.
  unfold Np.div. rewrite Reqb_false by lra. reflexivity.
Qed.

(** On a row of positive counts the code's [calcLog2e] takes no special
    value on its way. *)
Lemma calcLog2e_positive (rho a b : R) (growthValue wtLog2E : float64) :
  (0 < rho)%R -> (0 < a)%R -> (0 < b)%R ->
  calcLog2e (Fin a, Fin b) (Fin rho) growthValue wtLog2E
  = Np.div (Np.sub (Fin (Rlog2 (rho * b / a))) wtLog2E) growthValue.
Proof.
  intros Hr Ha Hb. unfold calcLog2e; simpl.
  rewrite Reqb_false by lra. unfold Np.log2.
  rewrite Rltb_true; [reflexivity |].
  apply Rdiv_lt_0_compat; [apply Rmult_lt_0_compat |]; assumption.
Qed.

Lemma calcLog2e_baseline (rho a b : R) :
  (0 < rho)%R -> (0 < a)%R -> (0 < b)%R ->
  calcLog2e (Fin a, Fin b) (Fin rho) (Fin 1) (Fin 0)
  = Fin (Rlog2 (rho * b / a)).
Proof.
  intros Hr Ha Hb. rewrite calcLog2e_positive by assumption.
  unfold Np.sub, Np.neg, Np.add, Np.div. rewrite Reqb_false by lra.
  f_equal. field.
Qed.

Lemma positive_row (t : Frame2) (r : guide * (float64 * float64)) :
  positive_counts t -> In r t ->
  exists a b : R, snd r = (Fin a, Fin b) /\ (0 < a)%R /\ (0 < b)%R.
Proof.
  unfold positive_counts. rewrite Forall_forall. intros H Hr. exact (H r Hr).
Qed.

Lemma scoresOfPseudo_spec (t : Frame2) (libraryTable : LibraryTable) (g : R) :
  positive_counts t ->
  scoresOfPseudo t libraryTable (Fin g) true = spec_scores t libraryTable g.
Proof.
  intros Hpos. destruct t as [| r0 t0] eqn:Et; [reflexivity |].
  rewrite <- Et in *.
  assert (Hne : t <> []) by (rewrite Et; discriminate).
  clear Et r0 t0.
  pose proof (spec_countsRatio_positive Hne Hpos) as Hrho.
  unfold scoresOfPseudo, spec_scores, spec_wtLog2E, align_inner_negatives.
  rewrite (code_countsRatio Hne Hpos).
  replace (map (fun r => calcLog2e (snd r) (Fin (spec_countsRatio t)) (Fin 1) (Fin 0))
               (filter (fun r => is_negative_control libraryTable (fst r)) t))
    with (map (fun r : guide * (float64 * float64) => Fin (spec_log2e t (snd r)))
              (filter (fun r => is_negative_control libraryTable (fst r)) t)).
  - apply map_ext_in. intros r Hr.
    destruct (@positive_row _ _ Hpos Hr) as (a & b & E & Ha & Hb).
    rewrite E, calcLog2e_positive by assumption. reflexivity.
  - apply map_ext_in. intros r Hr. apply filter_In in Hr. destruct Hr as [Hr _].
    destruct (@positive_row _ _ Hpos Hr) as (a & b & E & Ha & Hb).
    rewrite E, calcLog2e_baseline by assumption. reflexivity.
Qed.

Lemma Forall_Fin_map (l : list float64) :
  Forall (fun x => exists r, x = Fin r) l -> exists rs, l = map Fin rs.
Proof.
  induction 1 as [| x l [r ->] _ [rs ->]].
  - exists []. reflexivity.
  - exists (r :: rs). reflexivity.
Qed.

(** The median of finitely many finite values is a finite value. *)
Lemma median_Fin (rs : list R) :
  rs <> [] -> exists w : R, Pd.median (map Fin rs) = Fin w.
Proof.
  intros Hne. unfold Pd.median. rewrite dropna_Fin.
  set (v := Py.listsort Np.lt (map Fin rs)).
  assert (Hperm : Permutation v (map Fin rs)) by apply listsort_perm.
  assert (Hlen : List.length v = List.length rs).
  { rewrite (Permutation_length Hperm). apply length_map. }
  assert (Hfin : forall i, i < List.length v -> exists r, nth i v NaN = Fin r).
  { intros i Hi.
    assert (Hin : In (nth i v NaN) (map Fin rs)).
    { eapply Permutation_in; [exact Hperm | apply nth_In; exact Hi]. }
    apply in_map_iff in Hin. destruct Hin as (r & Hr & _). exists r. auto. }
  assert (Hpos : 0 < List.length v).
  { rewrite Hlen. destruct rs; [contradiction | simpl; lia]. }
  destruct (List.length v =? 0) eqn:E0; [apply Nat.eqb_eq in E0; lia |].
  assert (Hhalf : List.length v / 2 < List.length v)
    by (apply Nat.div_lt; lia).
  destruct (Nat.odd (List.length v)).
  - apply Hfin. exact Hhalf.
  - destruct (Hfin (List.length v / 2 - 1)) as [x Hx]; [lia |].
    destruct (Hfin (List.length v / 2)) as [y Hy]; [exact Hhalf |].
    rewrite Hx, Hy. simpl. rewrite Reqb_false by lra. eexists. reflexivity.
Qed.

(** ** The list sort sorts, on elements that the comparison orders *)

Lemma StronglySorted_app_iff {A} (R : A -> A -> Prop) (l1 l2 : list A) :
  StronglySorted R (l1 ++ l2)
  <-> StronglySorted R l1 /\ StronglySorted R l2
      /\ (forall x y, In x l1 -> In y l2 -> R x y).
Proof.
  induction l1 as [| a l1 IH]; simpl.
  - split.
    + intros H. repeat split; [constructor | exact H | intros x y []].
    + intros (_ & H & _). exact H.
  - split.
    + intros H. apply StronglySorted_inv in H. destruct H as [Hs Hf].
      apply IH in Hs. destruct Hs as (H1 & H2 & H12).
      rewrite Forall_app in Hf. destruct Hf as [Hf1 Hf2].
      repeat split.
      * constructor; assumption.
      * exact H2.
      * intros x y [<- | Hx] Hy.
        -- rewrite Forall_forall in Hf2. apply Hf2. exact Hy.
        -- apply H12; assumption.
    + intros (H1 & H2 & H12).
      apply StronglySorted_inv in H1. destruct H1 as [Hs Hf].
      constructor.
      * apply IH. repeat split; [exact Hs | exact H2 |].
        intros x y Hx Hy. apply H12; [right |]; assumption.
      * apply Forall_app. split; [exact Hf |].
        apply Forall_forall. intros y Hy. apply H12; [left; reflexivity | exact Hy].
Qed.

Section StronglySortedFacts.

Variable A : Type.
Variable R : A -> A -> Prop.

Lemma StronglySorted_rev (l : list A) :
  StronglySorted R l -> StronglySorted (fun x y => R y x) (rev l).
Proof.
  induction 1 as [| a l Hs IH Hf]; simpl.
  - constructor.
  - apply StronglySorted_app_iff. repeat split.
    + exact IH.
    + constructor; constructor.
    + intros x y Hx [<- | []]. apply in_rev in Hx.
      rewrite Forall_forall in Hf. apply Hf. exact Hx.
Qed.

Lemma StronglySorted_nth (l : list A) (d : A) (i j : nat) :
  StronglySorted R l -> i < j -> j < List.length l ->
  R (nth i l d) (nth j l d).
Proof.
  intros Hs. revert i j. induction Hs as [| a l Hs IH Hf]; intros i j Hij Hj.
  - simpl in Hj. lia.
  - destruct j as [| j]; [lia |]. simpl in Hj. destruct i as [| i]; simpl.
    + rewrite Forall_forall in Hf. apply Hf. apply nth_In. lia.
    + apply IH; lia.
Qed.

Variable P : A -> Prop.
Hypothesis R_trans :
  forall x y z, P x -> P y -> P z -> R x y -> R y z -> R x z.

Lemma Sorted_StronglySorted_on (l : list A) :
  Forall P l -> Sorted R l -> StronglySorted R l.
Proof.
  induction l as [| a l IH]; intros HP Hs.
  - constructor.
  - inversion HP as [| a' l' Pa Pl]; subst.
    inversion Hs as [| a' l' Hs' Hhd]; subst.
    specialize (IH Pl Hs'). constructor; [exact IH |].
    destruct l as [| b l]; [constructor |].
    inversion Hhd as [| b' l' Rab]; subst.
    inversion Pl as [| b' l' Pb Pl']; subst.
    apply StronglySorted_inv in IH. destruct IH as [_ Hfb].
    constructor; [exact Rab |].
    rewrite Forall_forall in *. intros z Hz.
    apply (R_trans Pa Pb (Pl' z Hz) Rab). apply Hfb. exact Hz.
Qed.

End StronglySortedFacts.

Lemma StronglySorted_impl_on {A} (R R' : A -> A -> Prop) (P : A -> Prop)
    (l : list A) :
  (forall x y, P x -> P y -> R x y -> R' x y) ->
  Forall P l -> StronglySorted R l -> StronglySorted R' l.
Proof.
  intros Himp HP Hs. induction Hs as [| a l Hs IH Hf].
  - constructor.
  - inversion HP as [| a' l' Pa Pl]; subst.
    constructor; [apply IH; exact Pl |].
    rewrite Forall_forall in *. intros y Hy.
    apply Himp; [exact Pa | apply Pl; exact Hy | apply Hf; exact Hy].
Qed.

Section ListSortSorts.

Variable A : Type.
Variable lt : A -> A -> bool.
(** The elements the comparison orders (for float64 keys: not NaN). *)
Variable P : A -> Prop.

Hypothesis leq_trans :
  forall x y z, P x -> P y -> P z ->
                leq lt x y -> leq lt y z -> leq lt x z.
Hypothesis lt_asym :
  forall x y, P x -> P y -> lt x y = true -> lt y x = false.

Lemma below_leq_below (x y z : A) :
  P x -> P y -> P z -> lt x y = true -> leq lt y z -> lt x z = true.
Proof.
  intros Px Py Pz Hxy Hyz. destruct (lt x z) eqn:E; [reflexivity |].
  assert (H : leq lt y x) by (apply (@leq_trans y z x); assumption).
  unfold leq in H. congruence.
Qed.

Lemma below_trans (x y z : A) :
  P x -> P y -> P z -> below lt x y -> below lt y z -> below lt x z.
Proof.
  unfold below. intros Px Py Pz Hxy Hyz.
  apply (@below_leq_below x y z); try assumption.
  unfold leq. apply lt_asym; assumption.
Qed.

Lemma run_asc_sorted (l : list A) (a : A) :
  Sorted (leq lt) (firstn (S (Py.run_asc lt a l)) (a :: l)).
Proof.
  revert a. induction l as [| x l IH]; intros a; simpl.
  - repeat constructor.
  - destruct (lt x a) eqn:E; simpl.
    + repeat constructor.
    + constructor; [apply IH |]. constructor. exact E.
Qed.

Lemma run_desc_sorted (l : list A) (a : A) :
  Sorted (fun x y => below lt y x) (firstn (S (Py.run_desc lt a l)) (a :: l)).
Proof.
  revert a. induction l as [| x l IH]; intros a; simpl.
  - repeat constructor.
  - destruct (lt x a) eqn:E; simpl.
    + constructor; [apply IH |]. constructor. exact E.
    + repeat constructor.
Qed.

Lemma Forall_firstn_of (n : nat) (l : list A) :
  Forall P l -> Forall P (firstn n l).
Proof.
  intros H. rewrite <- (firstn_skipn n l) in H.
  apply Forall_app in H. tauto.
Qed.

Lemma Forall_skipn_of (n : nat) (l : list A) :
  Forall P l -> Forall P (skipn n l).
Proof.
  intros H. rewrite <- (firstn_skipn n l) in H.
  apply Forall_app in H. tauto.
Qed.

(** The run counted first, reversed when it descends, is sorted. *)
Lemma first_run_sorted (l : list A) :
  Forall P l ->
  let (n, descending) := Py.count_run lt l in
  StronglySorted (leq lt)
    (if descending then rev (firstn n l) else firstn n l).
Proof.
  intros HP. destruct l as [| a [| b l]]; simpl.
  - constructor.
  - repeat constructor.
  - destruct (lt b a) eqn:E.
    + pose proof (run_desc_sorted l b) as Hs.
      assert (Hs' : Sorted (fun x y => below lt y x)
                      (firstn (2 + Py.run_desc lt b l) (a :: b :: l))).
      { simpl. constructor; [exact Hs |]. constructor. exact E. }
      apply (@Sorted_StronglySorted_on _ _ P) in Hs'.
      * apply StronglySorted_rev in Hs'.
        apply (@StronglySorted_impl_on _ _ (leq lt) P) in Hs'; [exact Hs' | |].
        -- intros x y Px Py Hxy. unfold leq. apply lt_asym; assumption.
        -- apply Forall_rev, Forall_firstn_of, HP.
      * intros x y z Px Py Pz Hxy Hyz.
        apply (@below_trans z y x); assumption.
      * apply Forall_firstn_of, HP.
    + pose proof (run_asc_sorted l b) as Hs.
      assert (Hs' : Sorted (leq lt)
                      (firstn (2 + Py.run_asc lt b l) (a :: b :: l))).
      { simpl. constructor; [exact Hs |]. constructor. exact E. }
      apply (@Sorted_StronglySorted_on _ _ P) in Hs'; [exact Hs' | |].
      * exact leq_trans.
      * apply Forall_firstn_of, HP.
Qed.

Lemma bisect_S (fuel : nat) (pivot : A) (a : list A) (l r : nat) :
  Py.bisect lt (S fuel) pivot a l r
  = if l <? r then
      if lt pivot (nth (l + (r - l) / 2) a pivot)
      then Py.bisect lt fuel pivot a l (l + (r - l) / 2)
      else Py.bisect lt fuel pivot a (l + (r - l) / 2 + 1) r
    else l.
Proof. reflexivity. Qed.

(** The binary search finds the place after the elements that are not
    above the pivot. *)
Lemma bisect_spec (pivot : A) (a : list A) :
  P pivot -> Forall P a -> StronglySorted (leq lt) a ->
  forall fuel l r,
    l <= r -> r <= List.length a -> r - l <= fuel ->
    (forall j, j < l -> lt pivot (nth j a pivot) = false) ->
    (forall j, r <= j -> j < List.length a -> lt pivot (nth j a pivot) = true) ->
    let i := Py.bisect lt fuel pivot a l r in
    i <= List.length a
    /\ (forall j, j < i -> lt pivot (nth j a pivot) = false)
    /\ (forall j, i <= j -> j < List.length a ->
                  lt pivot (nth j a pivot) = true).
Proof.
  intros Pp Pa Hs.
  assert (Pnth : forall j, j < List.length a -> P (nth j a pivot)).
  { intros j Hj. rewrite Forall_forall in Pa. apply Pa, nth_In, Hj. }
  induction fuel as [| fuel IH]; intros l r Hlr Hr Hfuel Hlo Hhi.
  - simpl. assert (l = r) by lia. subst r.
    repeat split; [lia | exact Hlo | exact Hhi].
  - rewrite bisect_S. cbv zeta. destruct (l <? r) eqn:Elr.
    + apply Nat.ltb_lt in Elr.
      assert (Hd : (r - l) / 2 < r - l) by (apply Nat.div_lt; lia).
      set (p := l + (r - l) / 2) in *.
      assert (Hp : l <= p /\ p < r) by (unfold p; lia).
      destruct (lt pivot (nth p a pivot)) eqn:Ep.
      * apply IH; try lia; [exact Hlo |].
        intros j Hj Hjlen.
        destruct (Nat.eq_dec j p) as [-> | Hne]; [exact Ep |].
        apply (@below_leq_below pivot (nth p a pivot) (nth j a pivot));
          try assumption; try (apply Pnth; lia).
        apply StronglySorted_nth; [exact Hs | lia | lia].
      * apply IH; try lia; [| exact Hhi].
        intros j Hj.
        destruct (Nat.eq_dec j p) as [-> | Hne]; [exact Ep |].
        apply (@leq_trans (nth j a pivot) (nth p a pivot) pivot);
          try assumption; try (apply Pnth; lia).
        apply StronglySorted_nth; [exact Hs | lia | lia].
    + apply Nat.ltb_ge in Elr. assert (l = r) by lia. subst r.
      repeat split; [lia | exact Hlo | exact Hhi].
Qed.

Lemma binary_insert_sorted (a : list A) (pivot : A) :
  P pivot -> Forall P a -> StronglySorted (leq lt) a ->
  StronglySorted (leq lt) (Py.binary_insert lt a pivot).
Proof.
  intros Pp Pa Hs. unfold Py.binary_insert.
  destruct (@bisect_spec pivot a Pp Pa Hs (List.length a) 0 (List.length a))
    as (Hi & Hlo & Hhi); try lia.
  set (i := Py.bisect lt (List.length a) pivot a 0 (List.length a)) in *.
  pose proof Hs as Hs'. rewrite <- (firstn_skipn i a) in Hs'.
  apply StronglySorted_app_iff in Hs'. destruct Hs' as (H1 & H2 & H12).
  assert (Hbefore : forall x, In x (firstn i a) -> leq lt x pivot).
  { intros x Hx. destruct (In_nth _ _ pivot Hx) as (j & Hj & <-).
    rewrite length_firstn in Hj. rewrite nth_firstn.
    assert (E : (j <? i) = true) by (apply Nat.ltb_lt; lia).
    rewrite E. apply Hlo. lia. }
  assert (Hafter : forall y, In y (skipn i a) -> leq lt pivot y).
  { intros y Hy. destruct (In_nth _ _ pivot Hy) as (j & Hj & <-).
    rewrite length_skipn in Hj. rewrite nth_skipn.
    assert (Py : P (nth (i + j) a pivot)).
    { rewrite Forall_forall in Pa. apply Pa, nth_In. lia. }
    unfold leq. apply lt_asym; [exact Pp | exact Py |]. apply Hhi; lia. }
  unfold Py.insert_at. apply StronglySorted_app_iff. repeat split.
  - exact H1.
  - constructor; [exact H2 |]. apply Forall_forall. exact Hafter.
  - intros x y Hx [<- | Hy]; [apply Hbefore; exact Hx | apply H12; assumption].
Qed.

Lemma binarysort_sorted (rest prefix : list A) :
  Forall P prefix -> Forall P rest -> StronglySorted (leq lt) prefix ->
  StronglySorted (leq lt) (Py.binarysort lt prefix rest).
Proof.
  unfold Py.binarysort. revert prefix.
  induction rest as [| x rest IH]; intros prefix Pp Pr Hs; simpl.
  - exact Hs.
  - inversion Pr as [| x' rest' Px Prest]; subst. apply IH.
    + eapply Permutation_Forall.
      * symmetry. unfold Py.binary_insert. apply insert_at_perm.
      * constructor; assumption.
    + exact Prest.
    + apply binary_insert_sorted; assumption.
Qed.

Lemma listsort_sorted (l : list A) :
  Forall P l -> StronglySorted (leq lt) (Py.listsort lt l).
Proof.
  intros HP. unfold Py.listsort.
  destruct l as [| a [| b l]]; [constructor | repeat constructor |].
  pose proof (first_run_sorted HP) as Hrun.
  generalize dependent (a :: b :: l). intros m HP Hrun.
  destruct (Py.count_run lt m) as [n descending].
  apply binarysort_sorted.
  - destruct descending; [apply Forall_rev |]; apply Forall_firstn_of, HP.
  - apply Forall_skipn_of, HP.
  - exact Hrun.
Qed.

End ListSortSorts.

(** ** The order of float64 values that are not NaN *)

Ltac float_cases :=
  repeat match goal with
    | x : float64 |- _ => destruct x as [? | [|] |]
    end;
  unfold valid, leq in *; simpl in *;
  try discriminate; try reflexivity; try congruence.

Lemma lt_leq_trans (x y z : float64) :
  valid x -> valid y -> valid z ->
  leq Np.lt x y -> leq Np.lt y z -> leq Np.lt x z.
Proof.
  intros Vx Vy Vz Hxy Hyz. float_cases.
  apply Rltb_false_iff in Hxy, Hyz. apply Rltb_false. lra.
Qed.

Lemma lt_asym (x y : float64) :
  valid x -> valid y -> Np.lt x y = true -> Np.lt y x = false.
Proof.
  intros Vx Vy H. float_cases.
  apply Rltb_iff in H. apply Rltb_false. lra.
Qed.

Lemma lt_total (x y : float64) :
  valid x -> valid y -> Np.lt x y = false -> Np.le y x = true.
Proof.
  intros Vx Vy H. unfold Np.le. float_cases.
  apply Rltb_false_iff in H.
  match goal with
  | |- Rltb ?a ?b || Reqb ?a ?b = true =>
      destruct (Req_dec_T a b) as [E | E];
      [rewrite (Reqb_true E); apply orb_true_r
      | rewrite Rltb_true by lra; reflexivity]
  end.
Qed.

Lemma abs_valid (x : float64) : valid x -> valid (Np.abs x).
Proof. destruct x; unfold valid; simpl; auto. Qed.

Lemma dropna_valid (l : list float64) : Forall valid (Pd.dropna l).
Proof.
  apply Forall_forall. intros x Hx. apply filter_In in Hx.
  destruct Hx as [_ Hx]. unfold valid. destruct (isnan x); [discriminate | reflexivity].
Qed.

(** On valid scores [sorted(..., key=abs, reverse=True)] puts no score
    before one of larger absolute value. *)
Lemma sorted_by_abs_descending (l : list float64) :
  Forall valid l ->
  StronglySorted (fun x y => Np.lt (Np.abs x) (Np.abs y) = false)
    (Py.sorted Np.lt Np.abs true l).
Proof.
  intros Hv. unfold Py.sorted.
  apply (@StronglySorted_rev _
           (leq (fun x y => Np.lt (Np.abs x) (Np.abs y)))).
  apply listsort_sorted with (P := valid).
  - intros x y z Vx Vy Vz. unfold leq.
    apply (@lt_leq_trans (Np.abs x) (Np.abs y) (Np.abs z));
      apply abs_valid; assumption.
  - intros x y Vx Vy. apply lt_asym; apply abs_valid; assumption.
  - apply Forall_rev. exact Hv.
Qed.

(** The values [Pd.median] takes the middle of are the finite values, each
    once, in ascending order. *)
Lemma median_sorts (rs : list R) :
  let v := Py.listsort Np.lt (Pd.dropna (map Fin rs)) in
  Permutation v (map Fin rs) /\ StronglySorted (leq Np.lt) v.
Proof.
  intros v. unfold v. rewrite dropna_Fin. split.
  - apply listsort_perm.
  - apply listsort_sorted with (P := valid).
    + exact lt_leq_trans.
    + exact lt_asym.
    + apply Forall_forall. intros x Hx. apply in_map_iff in Hx.
      destruct Hx as (r & <- & _). reflexivity.
Qed.

(** ** C7: the average of the strongest scores *)

Lemma slice_to_firstn {A} (l : list A) (N : Z) :
  (0 < N)%Z -> Py.slice_to l N = firstn (Z.to_nat N) l.
Proof.
  intros H. unfold Py.slice_to.
  destruct (N <? 0)%Z eqn:E; [apply Z.ltb_lt in E; lia | reflexivity].
Qed.

Lemma by_strength_perm (column : list float64) :
  Permutation (by_strength column) (Pd.dropna column).
Proof. apply sorted_perm. Qed.

Lemma by_strength_length (column : list float64) :
  List.length (by_strength column) = Pd.count column.
Proof. apply Permutation_length, by_strength_perm. Qed.

Lemma strongest_weaker (column : list float64) (N : Z) :
  (0 < N)%Z -> strongest column N ++ weaker column N = by_strength column.
Proof.
  intros H. unfold strongest, weaker. rewrite slice_to_firstn by exact H.
  apply firstn_skipn.
Qed.

Lemma strongest_length (column : list float64) (N : Z) :
  (0 < N)%Z ->
  List.length (strongest column N) = Nat.min (Z.to_nat N) (Pd.count column).
Proof.
  intros H. unfold strongest. rewrite slice_to_firstn by exact H.
  rewrite length_firstn, by_strength_length. reflexivity.
Qed.

Lemma strongest_dominate (column : list float64) (N : Z) (x y : float64) :
  (0 < N)%Z -> In x (strongest column N) -> In y (weaker column N) ->
  Np.le (Np.abs y) (Np.abs x) = true.
Proof.
  intros H Hx Hy.
  pose proof (sorted_by_abs_descending (dropna_valid column)) as Hs.
  fold (by_strength column) in Hs.
  assert (Hv : Forall valid (by_strength column)).
  { eapply Permutation_Forall; [symmetry; apply by_strength_perm |].
    apply dropna_valid. }
  rewrite <- (strongest_weaker column H) in Hs, Hv.
  apply StronglySorted_app_iff in Hs. destruct Hs as (_ & _ & H12).
  apply Forall_app in Hv. destruct Hv as [Hv1 Hv2].
  rewrite Forall_forall in Hv1, Hv2.
  apply lt_total; [apply abs_valid, Hv1, Hx | apply abs_valid, Hv2, Hy |].
  apply H12; assumption.
Qed.

Lemma averageBestN_column_strongest (column : list float64) (N : Z) :
  averageBestN_column column N
  = if 0 <? Pd.count column then Np.mean (strongest column N) else NaN.
Proof. reflexivity. Qed.

(** Evaluates the float64 comparisons of concrete non-negative numbers. *)
Ltac float_eval :=
  repeat (cbn;
          repeat match goal with
            | |- context [Rabs ?a] => rewrite (Rabs_pos_eq a) by lra
            end;
          rdec).

Lemma by_strength_example :
  by_strength [Fin 1; Fin 2; Fin 3] = [Fin 3; Fin 2; Fin 1].
Proof.
  unfold by_strength, Py.sorted, Py.listsort. float_eval. reflexivity.
Qed.

(** C7 as the code has it.  For N > 0 the calculate_ave analysis gives, for
    every column of every gene group, the arithmetic mean of the N valid
    scores of largest absolute value (of all the valid scores when there are
    fewer than N, and the missing value when there is none), and emits beside
    it the number of valid scores of the column: that number is the count of
    the scores averaged only when it does not exceed N. *)
Theorem calculate_ave_strongest
    (mw mw2 : list float64 -> list float64 -> result (float64 * float64))
    (minor : Z) (G : Type) (grouped : Grouped G) (negativeTable : Group)
    (N : Z) (params : list Z) :
  (0 < N)%Z ->
  exists gs : GeneScores G,
    applyGeneScoreFunction mw mw2 minor grouped negativeTable "calculate_ave"
      (N :: params) = Ok gs
    /\ stat gs
       = map (fun g =>
                (fst g,
                 map (fun c => (fst c, averageBestN_column (snd c) N)) (snd g)))
             grouped
    /\ counts gs
       = map (fun g => (fst g, map (fun c => (fst c, Pd.count (snd c))) (snd g)))
             grouped
    /\ forall column : list float64,
         Permutation (strongest column N ++ weaker column N) (Pd.dropna column)
         /\ List.length (strongest column N)
            = Nat.min (Z.to_nat N) (Pd.count column)
         /\ (forall x y, In x (strongest column N) -> In y (weaker column N) ->
                         Np.le (Np.abs y) (Np.abs x) = true)
         /\ (Pd.count column = 0 -> averageBestN_column column N = NaN)
         /\ (0 < Pd.count column ->
             averageBestN_column column N = Np.mean (strongest column N))
         /\ (forall rs, strongest column N = map Fin rs -> rs <> [] ->
                        Np.mean (strongest column N)
                        = Fin (Rsum rs / INR (List.length rs)))
         /\ (Pd.count column <= Z.to_nat N ->
             Pd.count column = List.length (strongest column N)).
Proof.
  intros HN. eexists. split; [| split; [| split]].
  - unfold applyGeneScoreFunction; simpl.
    destruct (N <=? 0)%Z eqn:E; [apply Z.leb_le in E; lia |]. reflexivity.
  - reflexivity.
  - reflexivity.
  - intros column. repeat split.
    + rewrite strongest_weaker by exact HN. apply by_strength_perm.
    + apply strongest_length. exact HN.
    + intros x y. apply strongest_dominate. exact HN.
    + intros H0. rewrite averageBestN_column_strongest, H0. reflexivity.
    + intros Hpos. rewrite averageBestN_column_strongest.
      apply Nat.ltb_lt in Hpos. rewrite Hpos. reflexivity.
    + intros rs -> Hne. apply mean_of_Fin. exact Hne.
    + intros Hle. rewrite strongest_length by exact HN. lia.
Qed.

Lemma calculate_ave_strongest_witness :
  let mw := fun _ _ : list float64 => Ok (Fin 0, Fin 1) in
  let grouped :=
    [("geneA"%string, [(("gamma", "Rep1")%string, [Fin 1; Fin 2; Fin 3])])] in
  exists gs : GeneScores string,
    applyGeneScoreFunction mw mw 19 grouped [] "calculate_ave" [2%Z] = Ok gs
    /\ stat gs
       = map (fun g =>
                (fst g,
                 map (fun c => (fst c, averageBestN_column (snd c) 2)) (snd g)))
             grouped
    /\ counts gs
       = map (fun g => (fst g, map (fun c => (fst c, Pd.count (snd c))) (snd g)))
             grouped
    /\ forall column : list float64,
         Permutation (strongest column 2 ++ weaker column 2) (Pd.dropna column)
         /\ List.length (strongest column 2)
            = Nat.min (Z.to_nat 2) (Pd.count column)
         /\ (forall x y, In x (strongest column 2) -> In y (weaker column 2) ->
                         Np.le (Np.abs y) (Np.abs x) = true)
         /\ (Pd.count column = 0 -> averageBestN_column column 2 = NaN)
         /\ (0 < Pd.count column ->
             averageBestN_column column 2 = Np.mean (strongest column 2))
         /\ (forall rs, strongest column 2 = map Fin rs -> rs <> [] ->
                        Np.mean (strongest column 2)
                        = Fin (Rsum rs / INR (List.length rs)))
         /\ (Pd.count column <= Z.to_nat 2 ->
             Pd.count column = List.length (strongest column 2)).
Proof.
  intros mw grouped.
  apply (@calculate_ave_strongest mw mw 19 string grouped [] 2 []).
  lia.
Defined.

(** C7 as it is worded fails on the count.  On the scores 1, 2, 3 with
    N = 2 the average is that of 3 and 2, that is 5/2, two scores are used,
    and the count emitted beside it is 3. *)
Lemma calculate_ave_count_counterexample :
  let mw := fun _ _ : list float64 => Ok (Fin 0, Fin 1) in
  let column := [Fin 1; Fin 2; Fin 3] in
  let grouped := [("geneA"%string, [(("gamma", "Rep1")%string, column)])] in
  exists gs : GeneScores string,
    applyGeneScoreFunction mw mw 19 grouped [] "calculate_ave" [2%Z] = Ok gs
    /\ stat gs = [("geneA"%string, [(("gamma", "Rep1")%string, Fin (5 / 2))])]
    /\ strongest column 2 = [Fin 3; Fin 2]
    /\ counts gs = [("geneA"%string, [(("gamma", "Rep1")%string, 3)])]
    /\ 3 <> List.length (strongest column 2).
Proof.
  intros mw column grouped.
  assert (Hs : strongest column 2 = [Fin 3; Fin 2]).
  { unfold strongest, column. rewrite by_strength_example. reflexivity. }
  eexists. split; [reflexivity |]. split; [| split; [| split]].
  - simpl. rewrite averageBestN_column_strongest.
    fold column. rewrite Hs. simpl.
    unfold Np.mean, Np.sum; simpl. rewrite Reqb_false.
    + do 5 f_equal. lra.
    + lra.
  - exact Hs.
  - reflexivity.
  - rewrite Hs. simpl. lia.
Qed.

(** ** C6: the Nth best score *)

Lemma dropna_of_valid (x : list float64) : Forall valid x -> Pd.dropna x = x.
Proof.
  induction 1 as [| v x Hv _ IH]; simpl; [reflexivity |].
  unfold valid in Hv. rewrite Hv. simpl. rewrite IH. reflexivity.
Qed.

(** On a column without a missing score the calculate_nth aggregation does
    what C6 says: it gives the score ranked Nth by absolute value, and the
    missing value when the column has fewer than N scores. *)
Lemma nth_best_on_valid (x : list float64) (N : Z) :
  Forall valid x -> (1 <= N)%Z ->
  ((Z.of_nat (List.length x) < N)%Z -> nth_best x N = Ok NaN)
  /\ ((N <= Z.of_nat (List.length x))%Z ->
      exists before v after,
        by_strength x = before ++ v :: after
        /\ List.length before = Z.to_nat (N - 1)
        /\ nth_best x N = Ok v
        /\ (forall b, In b before -> Np.le (Np.abs v) (Np.abs b) = true)
        /\ (forall a, In a after -> Np.le (Np.abs a) (Np.abs v) = true)).
Proof.
  intros Hv HN. unfold nth_best. split; intros Hlen.
  - destruct (N <=? Z.of_nat (List.length x))%Z eqn:E;
      [apply Z.leb_le in E; lia | reflexivity].
  - apply Z.leb_le in Hlen. rewrite Hlen. apply Z.leb_le in Hlen.
    assert (Hby : by_strength x = Py.sorted Np.lt Np.abs true x)
      by (unfold by_strength; rewrite dropna_of_valid by exact Hv; reflexivity).
    rewrite <- Hby.
    assert (Hl : List.length (by_strength x) = List.length x)
      by (rewrite by_strength_length; unfold Pd.count;
          rewrite dropna_of_valid by exact Hv; reflexivity).
    unfold Py.getitem. rewrite Hl.
    destruct (N - 1 <? 0)%Z eqn:E1; [apply Z.ltb_lt in E1; lia |].
    assert (E2 : ((0 <=? N - 1) && (N - 1 <? Z.of_nat (List.length x)))%Z = true).
    { apply andb_true_iff. split; [apply Z.leb_le | apply Z.ltb_lt]; lia. }
    rewrite E2.
    destruct (nth_error (by_strength x) (Z.to_nat (N - 1))) as [v |] eqn:En.
    + destruct (nth_error_split _ _ En) as (before & after & Hsplit & Hb).
      exists before, v, after.
      pose proof (sorted_by_abs_descending Hv) as Hs.
      rewrite <- Hby, Hsplit in Hs.
      assert (Hvalid : Forall valid (before ++ v :: after)).
      { rewrite <- Hsplit. eapply Permutation_Forall;
          [symmetry; apply by_strength_perm | apply dropna_valid]. }
      apply Forall_app in Hvalid. destruct Hvalid as [Vb Vva].
      inversion Vva as [| v' a' Vv Va]; subst v' a'.
      rewrite Forall_forall in Vb, Va.
      apply StronglySorted_app_iff in Hs. destruct Hs as (_ & Hs2 & H12).
      apply StronglySorted_inv in Hs2. destruct Hs2 as [_ Hva].
      rewrite Forall_forall in Hva.
      repeat split; try assumption.
      * intros b Hb'. apply lt_total; try apply abs_valid; auto.
        apply H12; [exact Hb' | left; reflexivity].
      * intros a Ha. apply lt_total; try apply abs_valid; auto.
    + apply nth_error_None in En. lia.
Qed.

(** C6 (the code does not do this).  The aggregation of calculate_nth
    compares N with the length of the column, missing scores included, and
    sorts them along.  On the column [NaN, 1] with N = 2 there is one valid
    score, yet the result is 1 and not the missing value; on [2, NaN, 5]
    with N = 1 the result is 2, although 5 is the strongest score. *)
Theorem nth_best_counts_missing_scores :
  let mw := fun _ _ : list float64 => Ok (Fin 0, Fin 1) in
  let key := ("gamma", "Rep1")%string in
  Pd.count [NaN; Fin 1] = 1
  /\ nth_best [NaN; Fin 1] 2 = Ok (Fin 1)
  /\ nth_best [Fin 2; NaN; Fin 5] 1 = Ok (Fin 2)
  /\ exists gs,
       applyGeneScoreFunction mw mw 19 [("geneA"%string, [(key, [NaN; Fin 1])])]
         [] "calculate_nth" [2%Z] = Ok gs
       /\ stat gs = [("geneA"%string, [(key, Fin 1)])]
       /\ counts gs = [("geneA"%string, [(key, 1)])].
Proof.
  intros mw key. repeat split.
  eexists. repeat split.
Qed.

(** * Further properties of the pipeline *)

(** ** The low-count filter: index, idempotence, monotonicity *)

Lemma filterLowCounts_cases (t t' : Frame2) (filterType : string) (T : float64) :
  filterLowCounts t filterType T = Ok t' ->
  In filterType ["all"; "both"]%string \/ In filterType ["any"; "either"]%string.
Proof.
  unfold filterLowCounts. intros H.
  destruct (filterType =? "both")%string eqn:E1;
    [apply String.eqb_eq in E1; left; simpl; auto |].
  destruct (filterType =? "all")%string eqn:E2;
    [apply String.eqb_eq in E2; left; simpl; auto |].
  destruct (filterType =? "either")%string eqn:E3;
    [apply String.eqb_eq in E3; right; simpl; auto |].
  destruct (filterType =? "any")%string eqn:E4;
    [apply String.eqb_eq in E4; right; simpl; auto |].
  discriminate.
Qed.

Lemma mask_twice (f : float64 * float64 -> float64) (T : float64) (t : Frame2) :
  f (NaN, NaN) = NaN ->
  map (fun r : guide * (float64 * float64) =>
         if Np.lt (f (snd r)) T then (fst r, (NaN, NaN)) else r)
      (map (fun r : guide * (float64 * float64) =>
              if Np.lt (f (snd r)) T then (fst r, (NaN, NaN)) else r) t)
  = map (fun r : guide * (float64 * float64) =>
           if Np.lt (f (snd r)) T then (fst r, (NaN, NaN)) else r) t.
Proof.
  intros Hf. rewrite map_map. apply map_ext. intros r.
  destruct (Np.lt (f (snd r)) T) eqn:E.
  - simpl. rewrite Hf. reflexivity.
  - rewrite E. reflexivity.
Qed.

Lemma mask_keeps_index (f : float64 * float64 -> float64) (T : float64)
    (t : Frame2) :
  map fst (map (fun r : guide * (float64 * float64) =>
                  if Np.lt (f (snd r)) T then (fst r, (NaN, NaN)) else r) t)
  = map fst t.
Proof.
  rewrite map_map. apply map_ext. intros r.
  destruct (Np.lt (f (snd r)) T); reflexivity.
Qed.

(** X1.  The filter returns a table over the same guides, in the same order,
    and filtering its result again with the same policy and threshold
    changes nothing: a masked row stays masked and no further row is
    masked. *)
Theorem filterLowCounts_idempotent (t t' : Frame2) (filterType : string)
    (T : float64) :
  filterLowCounts t filterType T = Ok t' ->
  map fst t' = map fst t
  /\ filterLowCounts t' filterType T = Ok t'.
Proof.
  intros H. destruct (filterLowCounts_cases _ _ _ H) as [Hft | Hft].
  - rewrite (filterLowCounts_all T t Hft) in H. inversion H as [H1].
    split; [apply mask_keeps_index |].
    rewrite (filterLowCounts_all T _ Hft). f_equal.
    apply (@mask_twice row_min T t). reflexivity.
  - rewrite (filterLowCounts_any T t Hft) in H. inversion H as [H1].
    split; [apply mask_keeps_index |].
    rewrite (filterLowCounts_any T _ Hft). f_equal.
    apply (@mask_twice row_max T t). reflexivity.
Qed.

Lemma filterLowCounts_idempotent_witness :
  let t := [("g1"%string, (Fin 10, Fin 80)); ("g2"%string, (Fin 60, Fin 80))] in
  let t' := [("g1"%string, (NaN, NaN)); ("g2"%string, (Fin 60, Fin 80))] in
  map fst t' = map fst t /\ filterLowCounts t' "all" (Fin 50) = Ok t'.
Proof.
  intros t t'. apply (@filterLowCounts_idempotent t t' "all" (Fin 50)).
  rewrite filterLowCounts_all by (simpl; auto).
  unfold t, t'; simpl. rewrite !row_min_fin; simpl. unfold Rmin.
  destruct (Rle_dec 10 80); [| lra]. destruct (Rle_dec 60 80); [| lra].
  rewrite Rltb_true by lra. rewrite Rltb_false by lra. reflexivity.
Defined.

Lemma lt_threshold_mono (x : float64) (T1 T2 : R) :
  (T1 <= T2)%R -> Np.lt x (Fin T1) = true -> Np.lt x (Fin T2) = true.
Proof.
  intros HT H. destruct x as [a | [|] |]; simpl in *; try assumption.
  apply Rltb_iff in H. apply Rltb_true. lra.
Qed.

Lemma lt_trans_bool (x y z : float64) :
  Np.lt x y = true -> Np.lt y z = true -> Np.lt x z = true.
Proof.
  intros Hxy Hyz.
  destruct x as [a | [|] |], y as [b | [|] |], z as [c | [|] |];
    simpl in *; try discriminate; try reflexivity.
  apply Rltb_iff in Hxy, Hyz. apply Rltb_true. lra.
Qed.

Lemma row_max_below_row_min_below (row : float64 * float64) (T : float64) :
  Np.lt (row_max row) T = true -> Np.lt (row_min row) T = true.
Proof.
  destruct row as [a b]. unfold row_max, row_min, Py.max, Py.min; simpl.
  destruct (Np.lt a b) eqn:Eab; destruct (Np.lt b a) eqn:Eba; intros H;
    try assumption.
  - eapply lt_trans_bool; eassumption.
  - eapply lt_trans_bool; eassumption.
Qed.

Lemma nth_error_masked_map (f g : float64 * float64 -> float64)
    (T T' : float64) (t : Frame2) (i : nat) (id : guide) :
  (forall row, Np.lt (f row) T = true -> Np.lt (g row) T' = true) ->
  nth_error (map (fun r : guide * (float64 * float64) =>
                    if Np.lt (f (snd r)) T then (fst r, (NaN, NaN)) else r) t) i
  = Some (id, (NaN, NaN)) ->
  nth_error (map (fun r : guide * (float64 * float64) =>
                    if Np.lt (g (snd r)) T' then (fst r, (NaN, NaN)) else r) t) i
  = Some (id, (NaN, NaN)).
Proof.
  intros Himp. rewrite !nth_error_map.
  destruct (nth_error t i) as [r |]; simpl; [| discriminate].
  destruct (Np.lt (f (snd r)) T) eqn:E.
  - rewrite (Himp _ E). auto.
  - intros H. inversion H as [Hr]. subst r. simpl.
    destruct (Np.lt (g (NaN, NaN)) T'); reflexivity.
Qed.

(** X2.  The filter is monotone in its threshold: with one policy, a guide
    whose row is masked at the threshold T1 is masked at every threshold
    T2 >= T1. *)
Theorem filterLowCounts_monotone (t t1 t2 : Frame2) (filterType : string)
    (T1 T2 : R) (i : nat) (id : guide) :
  (T1 <= T2)%R ->
  filterLowCounts t filterType (Fin T1) = Ok t1 ->
  filterLowCounts t filterType (Fin T2) = Ok t2 ->
  nth_error t1 i = Some (id, (NaN, NaN)) ->
  nth_error t2 i = Some (id, (NaN, NaN)).
Proof.
  intros HT H1 H2. destruct (filterLowCounts_cases _ _ _ H1) as [Hft | Hft].
  - rewrite (filterLowCounts_all _ t Hft) in H1.
    rewrite (filterLowCounts_all _ t Hft) in H2.
    inversion H1; inversion H2; subst.
    apply nth_error_masked_map. intros row. apply lt_threshold_mono. exact HT.
  - rewrite (filterLowCounts_any _ t Hft) in H1.
    rewrite (filterLowCounts_any _ t Hft) in H2.
    inversion H1; inversion H2; subst.
    apply nth_error_masked_map. intros row. apply lt_threshold_mono. exact HT.
Qed.

Lemma filter_example_any_50 :
  filterLowCounts [("g1"%string, (Fin 10, Fin 30)); ("g2"%string, (Fin 60, Fin 80))]
    "any" (Fin 50)
  = Ok [("g1"%string, (NaN, NaN)); ("g2"%string, (Fin 60, Fin 80))].
Proof.
  rewrite filterLowCounts_any by (simpl; auto). simpl.
  rewrite !row_max_fin; simpl. unfold Rmax.
  destruct (Rle_dec 10 30); [| lra]. destruct (Rle_dec 60 80); [| lra].
  rewrite Rltb_true by lra. rewrite Rltb_false by lra. reflexivity.
Qed.

Lemma filter_example_any_100 :
  filterLowCounts [("g1"%string, (Fin 10, Fin 30)); ("g2"%string, (Fin 60, Fin 80))]
    "any" (Fin 100)
  = Ok [("g1"%string, (NaN, NaN)); ("g2"%string, (NaN, NaN))].
Proof.
  rewrite filterLowCounts_any by (simpl; auto). simpl.
  rewrite !row_max_fin; simpl. unfold Rmax.
  destruct (Rle_dec 10 30); [| lra]. destruct (Rle_dec 60 80); [| lra].
  rewrite !Rltb_true by lra. reflexivity.
Qed.

Lemma filter_example_all_50 :
  filterLowCounts [("g1"%string, (Fin 10, Fin 30)); ("g2"%string, (Fin 60, Fin 80))]
    "all" (Fin 50)
  = Ok [("g1"%string, (NaN, NaN)); ("g2"%string, (Fin 60, Fin 80))].
Proof.
  rewrite filterLowCounts_all by (simpl; auto). simpl.
  rewrite !row_min_fin; simpl. unfold Rmin.
  destruct (Rle_dec 10 30); [| lra]. destruct (Rle_dec 60 80); [| lra].
  rewrite Rltb_true by lra. rewrite Rltb_false by lra. reflexivity.
Qed.

Lemma filterLowCounts_monotone_witness :
  nth_error [("g1"%string, (NaN, NaN)); ("g2"%string, (NaN, NaN))] 0
  = Some ("g1"%string, (NaN, NaN)).
Proof.
  apply (@filterLowCounts_monotone
           [("g1"%string, (Fin 10, Fin 30)); ("g2"%string, (Fin 60, Fin 80))]
           [("g1"%string, (NaN, NaN)); ("g2"%string, (Fin 60, Fin 80))]
           [("g1"%string, (NaN, NaN)); ("g2"%string, (NaN, NaN))]
           "any" 50 100 0 "g1"%string).
  - lra.
  - exact filter_example_any_50.
  - exact filter_example_any_100.
  - reflexivity.
Defined.

(** X3.  The policy "any" is the lenient one: at one threshold, every guide
    it masks is also masked by the policy "all". *)
Theorem filterLowCounts_any_within_all (t ta tb : Frame2)
    (anyType allType : string) (T : float64) (i : nat) (id : guide) :
  In anyType ["any"; "either"]%string ->
  In allType ["all"; "both"]%string ->
  filterLowCounts t anyType T = Ok ta ->
  filterLowCounts t allType T = Ok tb ->
  nth_error ta i = Some (id, (NaN, NaN)) ->
  nth_error tb i = Some (id, (NaN, NaN)).
Proof.
  intros Hany Hall Ha Hb.
  rewrite (filterLowCounts_any _ t Hany) in Ha.
  rewrite (filterLowCounts_all _ t Hall) in Hb.
  inversion Ha; inversion Hb; subst.
  apply nth_error_masked_map. intros row. apply row_max_below_row_min_below.
Qed.

Lemma filterLowCounts_any_within_all_witness :
  nth_error [("g1"%string, (NaN, NaN)); ("g2"%string, (Fin 60, Fin 80))] 0
  = Some ("g1"%string, (NaN, NaN)).
Proof.
  apply (@filterLowCounts_any_within_all
           [("g1"%string, (Fin 10, Fin 30)); ("g2"%string, (Fin 60, Fin 80))]
           [("g1"%string, (NaN, NaN)); ("g2"%string, (Fin 60, Fin 80))]
           [("g1"%string, (NaN, NaN)); ("g2"%string, (Fin 60, Fin 80))]
           "any" "all" (Fin 50) 0 "g1"%string).
  - simpl; auto.
  - simpl; auto.
  - exact filter_example_any_50.
  - exact filter_example_all_50.
  - reflexivity.
Defined.

(** ** Masked rows in the phenotype scorer *)

Lemma calcLog2e_masked (countsRatio growthValue wtLog2E : float64) :
  calcLog2e (NaN, NaN) countsRatio growthValue wtLog2E = NaN.
Proof. unfold calcLog2e; simpl. destruct countsRatio; reflexivity. Qed.

Lemma index_eqb_eq (i1 i2 : list guide) :
  Pd.index_eqb i1 i2 = true <-> i1 = i2.
Proof.
  revert i2. induction i1 as [| a i1 IH]; intros [| b i2]; simpl;
    try (split; [discriminate | discriminate]); [tauto |].
  rewrite andb_true_iff, String.eqb_eq, IH. split.
  - intros [-> ->]. reflexivity.
  - intros H. inversion H. auto.
Qed.

Lemma zip_same_index (s1 s2 : Series) :
  map fst s1 = map fst s2 ->
  combine (map fst s1) (combine (map snd s1) (map snd s2))
  = map (fun p => (fst (fst p), (snd (fst p), snd (snd p)))) (combine s1 s2).
Proof.
  revert s2. induction s1 as [| [g x] s1 IH]; intros [| [g' y] s2] H;
    simpl in *; try reflexivity; try discriminate.
  inversion H. f_equal. apply IH. assumption.
Qed.

(** Two Series over one index are paired as they come. *)
Lemma concat_axis1_same_index (s1 s2 : Series) :
  map fst s1 = map fst s2 ->
  Pd.concat_axis1 s1 s2
  = map (fun p => (fst (fst p), (snd (fst p), snd (snd p)))) (combine s1 s2).
Proof.
  intros H. unfold Pd.concat_axis1, Pd.joint_columns, Pd.joint_index.
  assert (E : Pd.same_indexes [s1; s2] = true).
  { simpl. rewrite andb_true_r. apply index_eqb_eq. symmetry. exact H. }
  rewrite E. simpl. apply zip_same_index. exact H.
Qed.

(** Two Series over different indexes are paired label by label. *)
Lemma concat_axis1_by_label :
  Pd.concat_axis1 [("g1"%string, Fin 2); ("g2"%string, Fin 4)]
                  [("g2"%string, Fin 40); ("g3"%string, Fin 30);
                   ("g1"%string, Fin 20)]
  = [("g1"%string, (Fin 2, Fin 20)); ("g2"%string, (Fin 4, Fin 40));
     ("g3"%string, (NaN, Fin 30))].
Proof. reflexivity. Qed.

Lemma concat_columns (t : Frame2) :
  Pd.concat_axis1 (first_column t) (second_column t) = t.
Proof.
  rewrite concat_axis1_same_index
    by (unfold first_column, second_column; rewrite !map_map; reflexivity).
  unfold first_column, second_column.
  induction t as [| [id [a b]] t IH]; simpl; [reflexivity |].
  f_equal. exact IH.
Qed.

Lemma unmasked_positive (t : Frame2) :
  masked_or_positive t -> positive_counts (unmasked t).
Proof.
  unfold masked_or_positive, positive_counts, unmasked.
  induction 1 as [| r t Hr _ IH]; simpl; [constructor |].
  destruct Hr as [Hr | (a & b & Hr & Ha & Hb)]; unfold masked; rewrite Hr; simpl.
  - exact IH.
  - constructor; [| exact IH]. exists a, b. auto.
Qed.

Lemma dropna_first_column (t : Frame2) :
  masked_or_positive t ->
  Pd.dropna (map (fun r => fst (snd r)) t)
  = map (fun r => fst (snd r)) (unmasked t).
Proof.
  unfold masked_or_positive, unmasked.
  induction 1 as [| [id [x y]] t Hr _ IH]; simpl; [reflexivity |].
  destruct Hr as [Hr | (a & b & Hr & _)]; simpl in Hr; inversion Hr; subst;
    unfold masked; simpl.
  - exact IH.
  - f_equal. exact IH.
Qed.

Lemma dropna_second_column (t : Frame2) :
  masked_or_positive t ->
  Pd.dropna (map (fun r => snd (snd r)) t)
  = map (fun r => snd (snd r)) (unmasked t).
Proof.
  unfold masked_or_positive, unmasked.
  induction 1 as [| [id [x y]] t Hr _ IH]; simpl; [reflexivity |].
  destruct Hr as [Hr | (a & b & Hr & _)]; simpl in Hr; inversion Hr; subst;
    unfold masked; simpl.
  - exact IH.
  - f_equal. exact IH.
Qed.

Lemma dropna_idem (l : list float64) : Pd.dropna (Pd.dropna l) = Pd.dropna l.
Proof.
  unfold Pd.dropna. induction l as [| x l IH]; simpl; [reflexivity |].
  destruct (isnan x) eqn:E; simpl; [exact IH |].
  rewrite E. simpl. f_equal. exact IH.
Qed.

Lemma pd_sum_dropna (l l' : list float64) :
  Pd.dropna l = Pd.dropna l' -> Pd.sum l = Pd.sum l'.
Proof. unfold Pd.sum. intros ->. reflexivity. Qed.

Lemma pd_median_dropna (l l' : list float64) :
  Pd.dropna l = Pd.dropna l' -> Pd.median l = Pd.median l'.
Proof. unfold Pd.median. intros ->. reflexivity. Qed.

Lemma column_sums_ignore_masked (t : Frame2) :
  masked_or_positive t ->
  Pd.sum (map (fun r => fst (snd r)) t)
  = Pd.sum (map (fun r => fst (snd r)) (unmasked t))
  /\ Pd.sum (map (fun r => snd (snd r)) t)
     = Pd.sum (map (fun r => snd (snd r)) (unmasked t)).
Proof.
  intros H. split; apply pd_sum_dropna.
  - rewrite <- (dropna_first_column H), dropna_idem. reflexivity.
  - rewrite <- (dropna_second_column H), dropna_idem. reflexivity.
Qed.

Lemma all_masked (t : Frame2) :
  masked_or_positive t -> unmasked t = [] ->
  forall r, In r t -> snd r = (NaN, NaN).
Proof.
  unfold masked_or_positive, unmasked.
  induction 1 as [| r t Hr _ IH]; simpl; intros Hu x Hx; [contradiction |].
  destruct Hr as [Hr | (a & b & Hr & _)]; unfold masked in Hu;
    rewrite Hr in Hu; simpl in Hu; [| discriminate].
  destruct Hx as [<- | Hx]; [exact Hr | apply IH; assumption].
Qed.

Lemma baseline_rows (rho : R) (t : Frame2) (libraryTable : LibraryTable) :
  (0 < rho)%R -> masked_or_positive t ->
  Pd.dropna
    (map (fun r => calcLog2e (snd r) (Fin rho) (Fin 1) (Fin 0))
         (filter (fun r => is_negative_control libraryTable (fst r)) t))
  = map (fun r : guide * (float64 * float64) =>
           Fin (Rlog2 (rho * toR (snd (snd r)) / toR (fst (snd r)))))
        (filter (fun r => is_negative_control libraryTable (fst r))
                (unmasked t)).
Proof.
  intros Hrho. unfold masked_or_positive, unmasked.
  induction 1 as [| [id [x y]] t Hr _ IH]; simpl; [reflexivity |].
  destruct Hr as [Hr | (a & b & Hr & Ha & Hb)]; simpl in Hr; inversion Hr;
    subst; unfold masked; simpl;
    destruct (is_negative_control libraryTable id); simpl; try exact IH.
  rewrite calcLog2e_baseline by assumption. simpl. f_equal. exact IH.
Qed.

Lemma scoresOfPseudo_masked (t : Frame2) (libraryTable : LibraryTable) (g : R) :
  masked_or_positive t ->
  scoresOfPseudo t libraryTable (Fin g) true
  = spec_scores_masked t libraryTable g.
Proof.
  intros Hmp. unfold scoresOfPseudo, spec_scores_masked, align_inner_negatives.
  destruct (column_sums_ignore_masked Hmp) as [-> ->].
  destruct (unmasked t) as [| r0 u0] eqn:Eu.
  - apply map_ext_in. intros r Hr.
    rewrite (all_masked Hmp Eu r Hr), calcLog2e_masked.
    unfold masked. rewrite (all_masked Hmp Eu r Hr). reflexivity.
  - rewrite <- Eu in *.
    assert (Hne : unmasked t <> []) by (rewrite Eu; discriminate).
    clear Eu r0 u0.
    pose proof (unmasked_positive Hmp) as Hpos.
    pose proof (spec_countsRatio_positive Hne Hpos) as Hrho.
    rewrite (code_countsRatio Hne Hpos).
    rewrite (@pd_median_dropna _
               (map (fun r => Fin (spec_log2e (unmasked t) (snd r)))
                    (filter (fun r => is_negative_control libraryTable (fst r))
                            (unmasked t)))).
    + apply map_ext_in. intros [id [x y]] Hr.
      unfold masked_or_positive in Hmp. rewrite Forall_forall in Hmp.
      destruct (Hmp _ Hr) as [E | (a & b & E & Ha & Hb)]; simpl in E;
        inversion E; subst; unfold masked; simpl.
      * rewrite calcLog2e_masked. reflexivity.
      * rewrite calcLog2e_positive by assumption. reflexivity.
    + rewrite (baseline_rows libraryTable Hrho Hmp).
      unfold spec_log2e.
      symmetry. rewrite <- map_map with (g := Fin). apply dropna_Fin.
Qed.

Lemma pseudocount_keeps_masked (behavior : string) (p : float64)
    (t t' : Frame2) :
  pseudocount behavior p t = Ok t' ->
  map fst t' = map fst t
  /\ forall i id, nth_error t i = Some (id, (NaN, NaN)) ->
                  nth_error t' i = Some (id, (NaN, NaN)).
Proof.
  unfold pseudocount. intros H.
  destruct ((behavior =? "default")%string || (behavior =? "zeros only")%string).
  - inversion H; subst. unfold apply_rows. split.
    + rewrite map_map. reflexivity.
    + intros i id Hi. rewrite nth_error_map, Hi. reflexivity.
  - destruct (behavior =? "all values")%string.
    + inversion H; subst. unfold apply_rows. split.
      * rewrite map_map. reflexivity.
      * intros i id Hi. rewrite nth_error_map, Hi. reflexivity.
    + destruct (behavior =? "filter out")%string; [| discriminate].
      inversion H; subst. rewrite mask_rows_map. split.
      * rewrite map_map. apply map_ext. intros r.
        destruct (Np.le (row_min (snd r)) (Fin 0)); reflexivity.
      * intros i id Hi. rewrite nth_error_map, Hi. reflexivity.
Qed.

(** X4.  For two columns of counts over one index, whose pseudocounted rows
    are each either masked or hold two positive counts: the scores come back
    over that index, a masked guide gets the missing score and takes no part
    in the scores of the others, the column totals, their ratio and the
    negative-control median being those of the rows that are not masked. *)
Theorem computePhenotypeScore_masked_rows
    (counts1 counts2 : Series) (libraryTable : LibraryTable) (g : R)
    (pseudocountBehavior : string) (pseudocountValue : float64)
    (pseudo : Frame2) :
  map fst counts1 = map fst counts2 ->
  pseudocount pseudocountBehavior pseudocountValue
    (Pd.concat_axis1 counts1 counts2) = Ok pseudo ->
  masked_or_positive pseudo ->
  map fst pseudo = map fst counts1
  /\ computePhenotypeScore counts1 counts2 libraryTable (Fin g)
       pseudocountBehavior pseudocountValue true
     = Ok (spec_scores_masked pseudo libraryTable g).
Proof.
  intros Hidx Hps Hmp. split.
  - destruct (pseudocount_keeps_masked _ _ _ Hps) as [E _]. rewrite E.
    rewrite (concat_axis1_same_index _ _ Hidx), map_map. simpl.
    clear - Hidx. revert counts2 Hidx.
    induction counts1 as [| [g1 x] c1 IH]; intros [| [g2 y] c2] H;
      simpl in *; try reflexivity; try discriminate.
    inversion H. f_equal. apply IH. assumption.
  - unfold computePhenotypeScore. rewrite Hps. simpl.
    rewrite scoresOfPseudo_masked by exact Hmp. reflexivity.
Qed.

Lemma computePhenotypeScore_masked_rows_witness :
  let counts1 :=
    [("g1"%string, Fin 2); ("g2"%string, NaN); ("g3"%string, Fin 4)] in
  let counts2 :=
    [("g1"%string, Fin 4); ("g2"%string, NaN); ("g3"%string, Fin 2)] in
  let libraryTable :=
    [mkLibraryRow "g1"%string (Some "top5"%string) "negative_control" "na"
       "ACGT"] in
  let pseudo :=
    [("g1"%string, (Fin 2, Fin 4)); ("g2"%string, (NaN, NaN));
     ("g3"%string, (Fin 4, Fin 2))] in
  map fst pseudo = map fst counts1
  /\ computePhenotypeScore counts1 counts2 libraryTable (Fin 1) "zeros only"
       (Fin 1) true
     = Ok (spec_scores_masked pseudo libraryTable 1).
Proof.
  intros counts1 counts2 libraryTable pseudo.
  apply (@computePhenotypeScore_masked_rows counts1 counts2 libraryTable 1
           "zeros only" (Fin 1) pseudo).
  - reflexivity.
  - unfold pseudocount, apply_rows; simpl. rewrite !row_min_fin.
    unfold Np.ne, Np.eq, Rmin.
    destruct (Rle_dec 2 4); [| lra]. destruct (Rle_dec 4 2); [lra |].
    rewrite Reqb_false by lra. reflexivity.
  - apply Forall_cons; [| apply Forall_cons; [| apply Forall_cons]].
    + right. exists 2%R, 4%R. repeat split; lra.
    + left. reflexivity.
    + right. exists 4%R, 2%R. repeat split; lra.
    + apply Forall_nil.
Defined.

(** ** Filtering and scoring composed *)

(** X5.  In the scoring of one comparison, the scores come back over the
    guides of the two columns, and a guide whose row the low-count filter
    masked has the missing score, whatever the counts of the other guides,
    the pseudocount policy, the growth value and the library are. *)
Theorem scoreComparison_filtered_guide_missing
    (column1 column2 : Series) (libraryTable : LibraryTable)
    (growthValue : float64) (filter_type : string) (minimum_reads : float64)
    (pseudocount_behavior : string) (pseudocountValue : float64)
    (filtCols : Frame2) (score : Series) :
  filterLowCounts (Pd.concat_axis1 column1 column2) filter_type minimum_reads
  = Ok filtCols ->
  scoreComparison column1 column2 libraryTable growthValue filter_type
    minimum_reads pseudocount_behavior pseudocountValue = Ok score ->
  map fst score = map fst (Pd.concat_axis1 column1 column2)
  /\ forall i id, nth_error filtCols i = Some (id, (NaN, NaN)) ->
                  nth_error score i = Some (id, NaN).
Proof.
  intros Hf Hs. unfold scoreComparison in Hs. rewrite Hf in Hs. simpl in Hs.
  unfold computePhenotypeScore in Hs. rewrite concat_columns in Hs.
  destruct (pseudocount pseudocount_behavior pseudocountValue filtCols)
    as [pseudo | e] eqn:Ep; [| discriminate].
  simpl in Hs. inversion Hs as [Hscore]. clear Hs.
  destruct (pseudocount_keeps_masked _ _ _ Ep) as [Hidx Hmask].
  destruct (filterLowCounts_cases _ _ _ Hf) as [Hft | Hft].
  - rewrite (filterLowCounts_all _ _ Hft) in Hf. inversion Hf as [Hf'].
    split.
    + unfold scoresOfPseudo. rewrite map_map; simpl.
      change (map (fun x : guide * (float64 * float64) => fst x) pseudo)
        with (map fst pseudo).
      rewrite Hidx, <- Hf'. apply mask_keeps_index.
    + intros i id Hi. rewrite Hf' in Hi. apply Hmask in Hi.
      unfold scoresOfPseudo. rewrite nth_error_map, Hi. simpl.
      rewrite calcLog2e_masked. reflexivity.
  - rewrite (filterLowCounts_any _ _ Hft) in Hf. inversion Hf as [Hf'].
    split.
    + unfold scoresOfPseudo. rewrite map_map; simpl.
      change (map (fun x : guide * (float64 * float64) => fst x) pseudo)
        with (map fst pseudo).
      rewrite Hidx, <- Hf'. apply mask_keeps_index.
    + intros i id Hi. rewrite Hf' in Hi. apply Hmask in Hi.
      unfold scoresOfPseudo. rewrite nth_error_map, Hi. simpl.
      rewrite calcLog2e_masked. reflexivity.
Qed.

Lemma scoreComparison_filtered_guide_missing_witness :
  let column1 := [("g1"%string, Fin 10); ("g2"%string, Fin 60)] in
  let column2 := [("g1"%string, Fin 30); ("g2"%string, Fin 80)] in
  let filtCols :=
    [("g1"%string, (NaN, NaN)); ("g2"%string, (Fin 60, Fin 80))] in
  let score := scoresOfPseudo filtCols [] (Fin 1) true in
  map fst score = map fst (Pd.concat_axis1 column1 column2)
  /\ forall i id, nth_error filtCols i = Some (id, (NaN, NaN)) ->
                  nth_error score i = Some (id, NaN).
Proof.
  intros column1 column2 filtCols score.
  apply (@scoreComparison_filtered_guide_missing column1 column2 [] (Fin 1)
           "any" (Fin 50) "zeros only" (Fin 1) filtCols score).
  - exact filter_example_any_50.
  - unfold scoreComparison.
    change (Pd.concat_axis1 column1 column2)
      with [("g1"%string, (Fin 10, Fin 30)); ("g2"%string, (Fin 60, Fin 80))].
    rewrite filter_example_any_50. unfold rbind, computePhenotypeScore.
    rewrite concat_columns.
    assert (Hp : pseudocount "zeros only" (Fin 1)
                   [("g1"%string, (NaN, NaN)); ("g2"%string, (Fin 60, Fin 80))]
                 = Ok filtCols).
    { unfold pseudocount, apply_rows; simpl. rewrite row_min_fin.
      unfold Np.ne, Np.eq, Rmin. destruct (Rle_dec 60 80); [| lra].
      rewrite Reqb_false by lra. reflexivity. }
    rewrite Hp. reflexivity.
Defined.

(** ** The "filter out" policy *)

(** X7.  Under the policy "filter out" no pseudocount is added: a row of two
    counts with a count that is zero or negative becomes a masked row, every
    other row of two counts is left as it is, and so is a row that was
    already masked. *)
Theorem pseudocount_filter_out (p : float64) (t : Frame2) :
  exists t',
    pseudocount "filter out" p t = Ok t'
    /\ map fst t' = map fst t
    /\ (forall i id (a b : R),
          nth_error t i = Some (id, (Fin a, Fin b)) ->
          ((Rmin a b <= 0)%R -> nth_error t' i = Some (id, (NaN, NaN)))
          /\ ((0 < Rmin a b)%R -> nth_error t' i = Some (id, (Fin a, Fin b))))
    /\ (forall i id, nth_error t i = Some (id, (NaN, NaN)) ->
                     nth_error t' i = Some (id, (NaN, NaN)))
    /\ (masked_or_nonnegative t -> masked_or_positive t').
Proof.
  eexists. split; [reflexivity |]. rewrite mask_rows_map.
  split; [| split; [| split]].
  - rewrite map_map. apply map_ext. intros r.
    destruct (Np.le (row_min (snd r)) (Fin 0)); reflexivity.
  - intros i id a b Hi. rewrite nth_error_map, Hi. simpl.
    rewrite row_min_fin. unfold Np.le; simpl. split; intros H.
    + destruct (Req_dec_T (Rmin a b) 0) as [E | E].
      * rewrite (Reqb_true E), orb_true_r. reflexivity.
      * rewrite Rltb_true by lra. reflexivity.
    + rewrite Rltb_false, Reqb_false by lra. reflexivity.
  - intros i id Hi. rewrite nth_error_map, Hi. reflexivity.
  - unfold masked_or_nonnegative, masked_or_positive.
    induction 1 as [| [id row] t0 Hr _ IH]; simpl; constructor; try exact IH.
    simpl in Hr. destruct Hr as [-> | (a & b & -> & Ha & Hb)].
    + left. reflexivity.
    + rewrite row_min_fin. unfold Np.le; simpl.
      destruct (Rlt_dec (Rmin a b) 0) as [L | L];
        [rewrite (Rltb_true L); left; reflexivity |].
      rewrite (Rltb_false L). simpl.
      destruct (Req_dec_T (Rmin a b) 0) as [E | E].
      * rewrite (Reqb_true E). left. reflexivity.
      * rewrite (Reqb_false E). right. exists a, b. split; [reflexivity |].
        unfold Rmin in *. destruct (Rle_dec a b); lra.
Qed.

(** ** The merged counts, guide by guide *)

Lemma zip_add64_nth (a b : list Z) (i : nat) :
  List.length a = List.length b -> i < List.length a ->
  nth i (zip_add64 a b) 0%Z = add64 (nth i a 0%Z) (nth i b 0%Z).
Proof.
  revert b i. induction a as [| x a IH]; intros [| y b] i Hlen Hi;
    simpl in *; try lia.
  destruct i as [| i]; [reflexivity |]. apply IH; lia.
Qed.

Lemma sum_columns_nth_gen (cols : list (list Z)) (acc : list Z) (i : nat) :
  Forall (fun c => List.length c = List.length acc) cols ->
  i < List.length acc ->
  wrap64 (nth i (fold_left zip_add64 cols acc) 0%Z)
  = wrap64 (nth i acc 0%Z + Zsum (map (fun c => nth i c 0%Z) cols)).
Proof.
  revert acc. induction cols as [| c cols IH]; intros acc H Hi; simpl.
  - f_equal. lia.
  - inversion H as [| c' cols' Hc Hcols]; subst.
    assert (Hlen : List.length (zip_add64 acc c) = List.length acc)
      by (apply zip_add64_length; lia).
    rewrite IH; [| rewrite Hlen; exact Hcols | lia].
    rewrite zip_add64_nth by lia. unfold add64.
    rewrite wrap64_add_l. f_equal. lia.
Qed.

Lemma nth_repeat_0 (n i : nat) : nth i (repeat 0%Z n) 0%Z = 0%Z.
Proof.
  revert i. induction n as [| n IH]; intros [| i]; simpl; auto.
Qed.

Lemma fold_zip_add64_wrapped (cols : list (list Z)) (acc : list Z) (i : nat) :
  cols <> [] ->
  wrap64 (nth i (fold_left zip_add64 cols acc) 0%Z)
  = nth i (fold_left zip_add64 cols acc) 0%Z.
Proof.
  intros Hne. destruct cols as [| c cols]; [contradiction |]. clear Hne.
  revert acc c. induction cols as [| c' cols IH]; intros acc c; simpl.
  - revert acc c. induction i as [| i IHi]; intros [| x acc] [| y c]; simpl;
      try reflexivity; try (unfold add64; apply wrap64_idem).
    apply IHi.
  - apply (IH (zip_add64 acc c) c').
Qed.

Lemma merged_column_origin (t : CountsTable rawkey) (k : colkey) (col : list Z) :
  In (k, col) (ct_columns (mergeCounts t)) ->
  col = sum_columns (List.length (ct_index t))
          (map snd (filter (fun c => colkey_eqb (level01 (fst c)) k)
                           (ct_columns t)))
  /\ exists c, In c (ct_columns t) /\ level01 (fst c) = k.
Proof.
  unfold mergeCounts, exptGroups; simpl. rewrite map_map; simpl.
  intros H. apply in_map_iff in H. destruct H as (k' & E & Hk').
  inversion E; subst k' col. split; [reflexivity |].
  apply (Permutation_in _ (listsort_perm colkey_ltb _)) in Hk'.
  apply dedup_In in Hk'; [| exact colkey_eqb_eq].
  apply in_map_iff in Hk'. destruct Hk' as (c & Hc & Hin). exists c. auto.
Qed.

Lemma group_sum_le_total {C} (key : C -> colkey) (f h : C -> Z) (cols : list C)
    (k : colkey) :
  (forall c, In c cols -> (0 <= f c <= h c)%Z) ->
  (0 <= group_sum key f cols k <= Zsum (map h cols))%Z.
Proof.
  unfold group_sum. induction cols as [| c cols IH]; intros H; simpl; [lia |].
  assert (Hc : (0 <= f c <= h c)%Z) by (apply H; left; reflexivity).
  assert (IH' : (0 <= Zsum (map f (filter (fun c0 => colkey_eqb (key c0) k) cols))
                 <= Zsum (map h cols))%Z)
    by (apply IH; intros c' Hc'; apply H; right; exact Hc').
  destruct (colkey_eqb (key c) k); simpl; lia.
Qed.

(** X8.  Guide by guide, the merged count of a (condition, replicate) is the
    sum of the raw counts of the columns with that label, taken in int64;
    it is their exact sum when no count is negative and the reads number
    fewer than 2^63.  Every merged column stems from at least one raw column
    and is as long as the guide index. *)
Theorem merged_count_of_guide (countsTable : CountsTable rawkey)
    (k : colkey) (col : list Z) (i : nat) :
  aligned countsTable ->
  In (k, col) (ct_columns (mergeCounts countsTable)) ->
  i < List.length (ct_index countsTable) ->
  nth i col 0%Z
  = wrap64 (group_sum (fun c => level01 (fst c)) (fun c => nth i (snd c) 0%Z)
              (ct_columns countsTable) k)
  /\ List.length col = List.length (ct_index countsTable)
  /\ (exists c, In c (ct_columns countsTable) /\ level01 (fst c) = k)
  /\ (nonneg_counts countsTable -> (exact_reads countsTable < 2 ^ 63)%Z ->
      nth i col 0%Z
      = group_sum (fun c => level01 (fst c)) (fun c => nth i (snd c) 0%Z)
          (ct_columns countsTable) k).
Proof.
  intros Hal Hin Hi.
  destruct (merged_column_origin _ _ _ Hin) as [-> (c0 & Hc0 & Hk0)].
  set (group := filter (fun c => colkey_eqb (level01 (fst c)) k)
                       (ct_columns countsTable)).
  assert (Hlens : Forall (fun c => List.length c
                                   = List.length (repeat 0%Z (List.length (ct_index countsTable))))
                         (map snd group)).
  { rewrite repeat_length. apply Forall_map. apply Forall_forall. intros c Hc.
    apply filter_In in Hc. unfold aligned in Hal. rewrite Forall_forall in Hal.
    apply Hal. tauto. }
  assert (Hne : map snd group <> []).
  { assert (Hg : In c0 group).
    { apply filter_In. split; [exact Hc0 |]. apply colkey_eqb_eq. exact Hk0. }
    destruct group; [contradiction | discriminate]. }
  assert (Hval : nth i (sum_columns (List.length (ct_index countsTable))
                          (map snd group)) 0%Z
                 = wrap64 (group_sum (fun c => level01 (fst c))
                             (fun c => nth i (snd c) 0%Z)
                             (ct_columns countsTable) k)).
  { unfold sum_columns. rewrite <- fold_zip_add64_wrapped by exact Hne.
    rewrite sum_columns_nth_gen; [| exact Hlens | rewrite repeat_length; exact Hi].
    rewrite nth_repeat_0, map_map. unfold group_sum. reflexivity. }
  split; [exact Hval |]. split; [| split].
  - unfold sum_columns.
    destruct (@sum_columns_gen (map snd group)
                (repeat 0%Z (List.length (ct_index countsTable))) Hlens)
      as [Hl _].
    rewrite Hl. apply repeat_length.
  - exists c0. auto.
  - intros Hnn Hlt. rewrite Hval. apply wrap64_small.
    assert (Hb : (0 <= group_sum (fun c => level01 (fst c))
                        (fun c => nth i (snd c) 0%Z) (ct_columns countsTable) k
                  <= exact_reads countsTable)%Z).
    { apply group_sum_le_total. intros c Hc.
      unfold nonneg_counts in Hnn. rewrite Forall_forall in Hnn.
      unfold aligned in Hal. rewrite Forall_forall in Hal.
      apply Zsum_bounds_element; [apply Hnn; exact Hc |].
      apply nth_In. rewrite (Hal c Hc). exact Hi. }
    lia.
Qed.

Lemma merged_count_of_guide_witness :
  let countsTable :=
    mkCountsTable ["g1"; "g2"]%string
      [(("T0", "Rep1", "lane1.counts")%string, [3; 0]%Z);
       (("T0", "Rep1", "lane2.counts")%string, [4; 1]%Z);
       (("treated", "Rep1", "lane1.counts")%string, [10; 20]%Z)] in
  let k := ("T0", "Rep1")%string in
  nth 0 [7; 1]%Z 0%Z
  = wrap64 (group_sum (fun c => level01 (fst c)) (fun c => nth 0 (snd c) 0%Z)
              (ct_columns countsTable) k)
  /\ List.length [7; 1]%Z = List.length (ct_index countsTable)
  /\ (exists c, In c (ct_columns countsTable) /\ level01 (fst c) = k)
  /\ (nonneg_counts countsTable -> (exact_reads countsTable < 2 ^ 63)%Z ->
      nth 0 [7; 1]%Z 0%Z
      = group_sum (fun c => level01 (fst c)) (fun c => nth 0 (snd c) 0%Z)
          (ct_columns countsTable) k).
Proof.
  intros countsTable k.
  apply (@merged_count_of_guide countsTable k [7; 1]%Z 0).
  - repeat constructor.
  - left. reflexivity.
  - simpl. lia.
Defined.

(** ** The labels of the merged columns *)

Section StrictTotalOrder.

Variable A : Type.
Variable lt : A -> A -> bool.
Hypothesis lt_trans : forall x y z, lt x y = true -> lt y z = true -> lt x z = true.
Hypothesis lt_irrefl : forall x, lt x x = false.
Hypothesis lt_total : forall x y, lt x y = false -> lt y x = false -> x = y.

Lemma sto_asym (x y : A) : lt x y = true -> lt y x = false.
Proof.
  intros H. destruct (lt y x) eqn:E; [| reflexivity].
  rewrite <- (lt_irrefl x). symmetry. eapply lt_trans; eassumption.
Qed.

Lemma sto_leq_trans (x y z : A) : leq lt x y -> leq lt y z -> leq lt x z.
Proof.
  unfold leq. intros H1 H2. destruct (lt z x) eqn:E; [| reflexivity].
  destruct (lt x y) eqn:Exy.
  - rewrite <- H2. symmetry. eapply lt_trans; eassumption.
  - assert (x = y) by (apply lt_total; assumption). subst y. congruence.
Qed.

Lemma listsort_strictly_sorted (l : list A) :
  NoDup l -> StronglySorted (below lt) (Py.listsort lt l).
Proof.
  intros Hnd.
  assert (Hs : StronglySorted (leq lt) (Py.listsort lt l)).
  { apply listsort_sorted with (P := fun _ => True).
    - intros x y z _ _ _. apply sto_leq_trans.
    - intros x y _ _. apply sto_asym.
    - apply Forall_forall. auto. }
  assert (Hnd' : NoDup (Py.listsort lt l)).
  { eapply Permutation_NoDup; [symmetry; apply listsort_perm | exact Hnd]. }
  induction Hs as [| a m Hs IH Hf]; constructor.
  - apply IH. inversion Hnd'. assumption.
  - inversion Hnd' as [| a' m' Hnotin Hnd'']; subst.
    rewrite Forall_forall in *. intros y Hy. unfold below.
    destruct (lt a y) eqn:E; [reflexivity |].
    assert (a = y) by (apply lt_total; [exact E | apply Hf; exact Hy]).
    subst y. contradiction.
Qed.

End StrictTotalOrder.

Lemma string_ltb_lt (a b : string) :
  (a <? b)%string = true <-> OrderedTypeEx.String_as_OT.lt a b.
Proof.
  rewrite <- OrderedTypeEx.String_as_OT.cmp_lt. unfold String.ltb, OrderedTypeEx.String_as_OT.cmp.
  destruct (String.compare a b); split; intros; try reflexivity;
    try discriminate.
Qed.

Lemma string_ltb_trans (a b c : string) :
  (a <? b)%string = true -> (b <? c)%string = true -> (a <? c)%string = true.
Proof.
  rewrite !string_ltb_lt. apply OrderedTypeEx.String_as_OT.lt_trans.
Qed.

Lemma string_ltb_irrefl (a : string) : (a <? a)%string = false.
Proof.
  destruct (a <? a)%string eqn:E; [| reflexivity].
  apply string_ltb_lt in E. apply OrderedTypeEx.String_as_OT.lt_not_eq in E.
  exfalso. apply E. reflexivity.
Qed.

Lemma string_ltb_total (a b : string) :
  (a <? b)%string = false -> (b <? a)%string = false -> a = b.
Proof.
  unfold String.ltb.
  pose proof (OrderedTypeEx.String_as_OT.cmp_antisym b a) as Hanti.
  unfold OrderedTypeEx.String_as_OT.cmp in Hanti. rewrite Hanti.
  destruct (String.compare a b) eqn:E; simpl; try discriminate.
  intros _ _. apply String.compare_eq_iff. exact E.
Qed.

Lemma colkey_ltb_trans (a b c : colkey) :
  colkey_ltb a b = true -> colkey_ltb b c = true -> colkey_ltb a c = true.
Proof.
  unfold colkey_ltb. destruct a as [a1 a2], b as [b1 b2], c as [c1 c2]; simpl.
  rewrite !orb_true_iff, !andb_true_iff, !String.eqb_eq.
  intros [H1 | [-> H1]] [H2 | [-> H2]].
  - left. eapply string_ltb_trans; eassumption.
  - left. exact H1.
  - left. exact H2.
  - right. split; [reflexivity | eapply string_ltb_trans; eassumption].
Qed.

Lemma colkey_ltb_irrefl (a : colkey) : colkey_ltb a a = false.
Proof.
  unfold colkey_ltb. rewrite !string_ltb_irrefl, andb_false_r. reflexivity.
Qed.

Lemma colkey_ltb_total (a b : colkey) :
  colkey_ltb a b = false -> colkey_ltb b a = false -> a = b.
Proof.
  unfold colkey_ltb. destruct a as [a1 a2], b as [b1 b2]; simpl.
  rewrite !orb_false_iff, !andb_false_iff. intros [H1 H2] [H3 H4].
  assert (a1 = b1) by (apply string_ltb_total; assumption). subst b1.
  rewrite String.eqb_refl in *.
  destruct H2 as [H2 | H2]; [discriminate |].
  destruct H4 as [H4 | H4]; [discriminate |].
  f_equal. apply string_ltb_total; assumption.
Qed.

(** X9.  The merged table has one column for every (condition, replicate)
    that labels a raw column and no other; its labels come in strictly
    ascending order, so no label occurs twice. *)
Theorem merged_labels_sorted (countsTable : CountsTable rawkey) :
  StronglySorted (below colkey_ltb)
    (map fst (ct_columns (mergeCounts countsTable)))
  /\ forall k : colkey,
       In k (map fst (ct_columns (mergeCounts countsTable)))
       <-> exists c, In c (ct_columns countsTable) /\ level01 (fst c) = k.
Proof.
  assert (E : map fst (ct_columns (mergeCounts countsTable))
              = Py.listsort colkey_ltb
                  (dedup colkey_eqb
                     (map (fun c => level01 (fst c)) (ct_columns countsTable)))).
  { unfold mergeCounts, exptGroups; simpl. rewrite !map_map; simpl.
    apply map_id. }
  rewrite E. split.
  - apply listsort_strictly_sorted.
    + exact colkey_ltb_trans.
    + exact colkey_ltb_irrefl.
    + exact colkey_ltb_total.
    + apply dedup_NoDup. exact colkey_eqb_eq.
  - intros k. split.
    + intros H. apply (Permutation_in _ (listsort_perm colkey_ltb _)) in H.
      apply dedup_In in H; [| exact colkey_eqb_eq].
      apply in_map_iff in H. destruct H as (c & Hc & Hin). exists c. auto.
    + intros (c & Hc & Hk).
      apply (Permutation_in _ (Permutation_sym (listsort_perm colkey_ltb _))).
      apply dedup_In; [exact colkey_eqb_eq |].
      apply in_map_iff. exists c. auto.
Qed.

(** ** Averaging leaves the replicate columns alone *)

Lemma string_length_append (a b : string) :
  String.length (a ++ b) = String.length a + String.length b.
Proof. induction a as [| c a IH]; simpl; [reflexivity | rewrite IH; reflexivity]. Qed.

Lemma join_length_ge (sep : string) (l : list string) (r : string) :
  In r l -> String.length r <= String.length (Py.join sep l).
Proof.
  induction l as [| x l IH]; intros Hin; [contradiction |].
  destruct l as [| y l].
  - destruct Hin as [-> | []]. simpl. lia.
  - change (Py.join sep (x :: y :: l))
      with (x ++ sep ++ Py.join sep (y :: l))%string.
    rewrite !string_length_append. destruct Hin as [-> | Hin]; [lia |].
    specialize (IH Hin). lia.
Qed.

Lemma ave_label_fresh (replicateList : list string) :
  ~ In (ave_label replicateList) replicateList.
Proof.
  intros Hin. apply (join_length_ge "_") in Hin.
  unfold ave_label in Hin. rewrite string_length_append in Hin.
  simpl in Hin. lia.
Qed.

(** X10.  The label of the averaged column differs from every replicate id,
    so averaging never overwrites the scores of a replicate: every column
    labelled with a replicate of the list is, after averaging, the column it
    was before. *)
Theorem averaging_keeps_replicate_columns
    (phenotypeList replicateList : list string)
    (phenotypeScoreDict : list (colkey * Series)) (k : colkey) :
  In (snd k) replicateList ->
  snd k <> ave_label replicateList
  /\ dict_get k (averageReplicates phenotypeList replicateList phenotypeScoreDict)
     = dict_get k phenotypeScoreDict.
Proof.
  intros Hin.
  assert (Hne : snd k <> ave_label replicateList).
  { intros E. rewrite E in Hin. exact (ave_label_fresh _ Hin). }
  split; [exact Hne |].
  unfold averageReplicates. destruct (1 <? List.length replicateList);
    [| reflexivity].
  revert phenotypeScoreDict.
  induction phenotypeList as [| p ps IH]; intros d; simpl; [reflexivity |].
  rewrite IH. unfold average_step. apply dict_get_set_other.
  intros E. apply Hne. rewrite E. reflexivity.
Qed.

Lemma averaging_keeps_replicate_columns_witness :
  let d := [(("gamma", "Rep1")%string, [("g1"%string, Fin (1 / 2))]);
            (("gamma", "Rep2")%string, [("g1"%string, NaN)])] in
  "Rep2"%string <> ave_label ["Rep1"; "Rep2"]%string
  /\ dict_get ("gamma", "Rep2")%string
       (averageReplicates ["gamma"%string] ["Rep1"; "Rep2"]%string d)
     = dict_get ("gamma", "Rep2")%string d.
Proof.
  intros d.
  apply (@averaging_keeps_replicate_columns ["gamma"%string]
           ["Rep1"; "Rep2"]%string d ("gamma", "Rep2")%string).
  simpl. auto.
Defined.

(** ** The shape of the gene scores *)

Lemma rmap_Forall2 {A B} (f : A -> result B) (l : list A) (l' : list B) :
  rmap f l = Ok l' -> Forall2 (fun x y => f x = Ok y) l l'.
Proof.
  revert l'. induction l as [| x l IH]; intros l' H; simpl in H.
  - inversion H. constructor.
  - destruct (f x) as [y |] eqn:Ex; [| discriminate]. simpl in H.
    destruct (rmap f l) as [ys |] eqn:El; [| discriminate]. simpl in H.
    inversion H; subst. constructor; [exact Ex | apply IH; reflexivity].
Qed.

Lemma Forall2_map_eq {A B C} (R : A -> B -> Prop) (ka : A -> C) (kb : B -> C)
    (l : list A) (l' : list B) :
  (forall x y, R x y -> kb y = ka x) ->
  Forall2 R l l' -> map kb l' = map ka l.
Proof.
  intros H. induction 1 as [| x y l l' Hxy _ IH]; simpl; [reflexivity |].
  rewrite (H _ _ Hxy), IH. reflexivity.
Qed.

Lemma rmap_keys {A B K} (f : A -> result B) (ka : A -> K) (kb : B -> K)
    (l : list A) (l' : list B) :
  (forall x y, f x = Ok y -> kb y = ka x) ->
  rmap f l = Ok l' -> map kb l' = map ka l.
Proof.
  intros H Hr. apply rmap_Forall2 in Hr.
  eapply Forall2_map_eq; [| exact Hr]. exact H.
Qed.

Lemma tagged_keys {A B K} (r : result B) (k : K) (y : K * B)
    (ka : A) :
  rbind r (fun v => Ok (k, v)) = Ok y -> fst y = k.
Proof.
  destruct r; simpl; intros H; [inversion H; reflexivity | discriminate].
Qed.

(** The labels of the groups with, for each, the labels of its columns. *)
Lemma group_counts_labels {G} (grouped : Grouped G) :
  map (fun g => (fst g, map fst (snd g))) (group_counts grouped)
  = map (fun g => (fst g, map fst (snd g))) grouped.
Proof.
  unfold group_counts. rewrite map_map; simpl. apply map_ext. intros g.
  rewrite map_map. reflexivity.
Qed.

Ltac case_rbind H :=
  match type of H with
  | rbind ?r _ = Ok _ =>
      let E := fresh "E" in
      destruct r eqn:E; simpl in H; [| discriminate H]
  end.

(** X11.  Whatever the analysis, when [applyGeneScoreFunction] returns, the
    statistic has one entry for every gene group and every column of the
    group, in the order of the grouped table, and the count emitted beside
    it is the number of valid scores of that column of the group. *)
Theorem applyGeneScoreFunction_shape
    (mw mw2 : list float64 -> list float64 -> result (float64 * float64))
    (minor : Z) (G : Type) (grouped : Grouped G) (negativeTable : Group)
    (analysis : string) (params : list Z) (gs : GeneScores G) :
  applyGeneScoreFunction mw mw2 minor grouped negativeTable analysis params
  = Ok gs ->
  map (fun g => (fst g, map fst (snd g))) (stat gs)
  = map (fun g => (fst g, map fst (snd g))) grouped
  /\ counts gs
     = map (fun g => (fst g, map (fun c => (fst c, Pd.count (snd c))) (snd g)))
           grouped.
Proof.
  unfold applyGeneScoreFunction. intros H.
  destruct (analysis =? "calculate_ave")%string.
  - case_rbind H.
    destruct (a <=? 0)%Z; inversion H; subst; simpl; split; try reflexivity;
      rewrite map_map; simpl; apply map_ext; intros g; f_equal;
      unfold averageBestN; rewrite map_map; reflexivity.
  - destruct (analysis =? "calculate_mw")%string.
    + case_rbind H. inversion H; subst; simpl. split; [| reflexivity].
      eapply rmap_keys; [| exact E].
      intros g y Hy. simpl in Hy. case_rbind Hy.
      inversion Hy; subst; simpl. f_equal.
      unfold applyMW in E0. eapply rmap_keys; [| exact E0].
      intros c z Hz. simpl in Hz. case_rbind Hz.
      inversion Hz. reflexivity.
    + destruct (analysis =? "calculate_nth")%string; [| discriminate H].
      case_rbind H. case_rbind H.
      inversion H; subst; simpl. split; [| reflexivity].
      unfold per_column in E0. eapply rmap_keys; [| exact E0].
      intros g y Hy. simpl in Hy. case_rbind Hy.
      inversion Hy; subst; simpl. f_equal.
      eapply rmap_keys; [| exact E1].
      intros c z Hz. simpl in Hz. case_rbind Hz.
      inversion Hz. reflexivity.
Qed.

Lemma applyGeneScoreFunction_shape_witness :
  let mw := fun _ _ : list float64 => Ok (Fin 0, Fin 1) in
  let grouped :=
    [("geneA"%string, [(("gamma", "Rep1")%string, [NaN; Fin 1])])] in
  let gs :=
    mkGeneScores "Mann-Whitney p-value"
      [("geneA"%string, [(("gamma", "Rep1")%string, Fin 1)])]
      "sgRNA count_MW"
      [("geneA"%string, [(("gamma", "Rep1")%string, 1)])] in
  map (fun g => (fst g, map fst (snd g))) (stat gs)
  = map (fun g => (fst g, map fst (snd g))) grouped
  /\ counts gs
     = map (fun g => (fst g, map (fun c => (fst c, Pd.count (snd c))) (snd g)))
           grouped.
Proof.
  intros mw grouped gs.
  apply (@applyGeneScoreFunction_shape mw mw 19 string grouped
           [(("gamma", "Rep1")%string, [Fin 0])] "calculate_mw" [] gs).
  reflexivity.
Defined.

(** ** The parameter 0 of calculate_nth *)

Lemma last_of_sorted (x : list float64) (v : float64) (before : list float64) :
  Forall valid x ->
  by_strength x = before ++ [v] ->
  forall y, In y x -> Np.le (Np.abs v) (Np.abs y) = true.
Proof.
  intros Hv Hsplit y Hy.
  assert (Hby : by_strength x = Py.sorted Np.lt Np.abs true x)
    by (unfold by_strength; rewrite dropna_of_valid by exact Hv; reflexivity).
  pose proof (sorted_by_abs_descending Hv) as Hs.
  rewrite <- Hby, Hsplit in Hs.
  assert (Hperm : Permutation (before ++ [v]) x).
  { rewrite <- Hsplit, Hby. apply sorted_perm. }
  assert (Hvalid : Forall valid (before ++ [v])).
  { eapply Permutation_Forall; [symmetry; exact Hperm | exact Hv]. }
  apply (Permutation_in _ (Permutation_sym Hperm)) in Hy.
  apply Forall_app in Hvalid. destruct Hvalid as [Vb Vv].
  inversion Vv as [| v' l' Vv' _]; subst.
  apply StronglySorted_app_iff in Hs. destruct Hs as (_ & _ & H12).
  apply in_app_or in Hy. destruct Hy as [Hy | [<- | []]].
  - rewrite Forall_forall in Vb.
    apply lt_total; try apply abs_valid; auto.
    apply H12; [exact Hy | left; reflexivity].
  - apply lt_total; try apply abs_valid; auto.
    destruct (Np.abs v) as [a | [|] |] eqn:E; simpl; try reflexivity.
    apply Rltb_false. lra.
Qed.

(** X13.  The parameter 0 of calculate_nth is read as a Python index -1: on a
    column of valid scores that is not empty, the aggregation neither fails
    nor gives the missing value, it returns the weakest score, one whose
    absolute value no other score of the column is below. *)
Theorem nth_best_zero_is_weakest (x : list float64) :
  Forall valid x -> x <> [] ->
  exists v,
    nth_best x 0 = Ok v
    /\ In v x
    /\ forall y, In y x -> Np.le (Np.abs v) (Np.abs y) = true.
Proof.
  intros Hv Hne.
  assert (Hby : by_strength x = Py.sorted Np.lt Np.abs true x)
    by (unfold by_strength; rewrite dropna_of_valid by exact Hv; reflexivity).
  assert (Hperm : Permutation (by_strength x) x)
    by (rewrite Hby; apply sorted_perm).
  assert (Hl : List.length (by_strength x) = List.length x)
    by (apply Permutation_length, Hperm).
  assert (Hpos : 0 < List.length x) by (destruct x; [contradiction | simpl; lia]).
  destruct (exists_last (l := by_strength x)) as (before & v & Hsplit).
  { intros E. rewrite E in Hl. simpl in Hl. lia. }
  exists v. split; [| split].
  - unfold nth_best. rewrite <- Hby.
    destruct (0 <=? Z.of_nat (List.length x))%Z eqn:E0;
      [| apply Z.leb_gt in E0; lia].
    unfold Py.getitem. rewrite Hl.
    change (0 - 1 <? 0)%Z with true. cbv iota.
    assert (E2 : ((0 <=? 0 - 1 + Z.of_nat (List.length x))
                  && (0 - 1 + Z.of_nat (List.length x)
                      <? Z.of_nat (List.length x)))%Z = true).
    { apply andb_true_iff. split; [apply Z.leb_le | apply Z.ltb_lt]; lia. }
    rewrite E2. rewrite Hsplit.
    assert (Hlen : List.length x = S (List.length before)).
    { rewrite <- Hl, Hsplit, length_app. simpl. lia. }
    replace (Z.to_nat (0 - 1 + Z.of_nat (List.length x)))
      with (List.length before) by lia.
    rewrite nth_error_app2 by lia. rewrite Nat.sub_diag. reflexivity.
  - apply (Permutation_in _ Hperm). rewrite Hsplit.
    apply in_or_app. right. left. reflexivity.
  - apply (@last_of_sorted x v before Hv Hsplit).
Qed.

Lemma nth_best_zero_is_weakest_witness :
  exists v,
    nth_best [Fin 3; Fin 1] 0 = Ok v
    /\ In v [Fin 3; Fin 1]
    /\ forall y, In y [Fin 3; Fin 1] -> Np.le (Np.abs v) (Np.abs y) = true.
Proof.
  apply (@nth_best_zero_is_weakest [Fin 3; Fin 1]).
  - repeat constructor.
  - discriminate.
Defined.

(** ** The pseudogene stage in the manual mode *)

Lemma randint_ok (high : nat) (size : Z) (w : World) :
  0 < high -> (0 <= size)%Z ->
  randint high size w
  = (Ok (map (fun i => draws w (drawn w + i) mod high) (seq 0 (Z.to_nat size))),
     advance (Z.to_nat size) w).
Proof.
  intros Hh Hs. unfold randint.
  destruct (size <? 0)%Z eqn:E; [apply Z.ltb_lt in E; lia |].
  destruct (high =? 0) eqn:E0; [apply Nat.eqb_eq in E0; lia |].
  reflexivity.
Qed.

Lemma take_rows_in (negValues : list (list float64)) (indices : list nat) :
  Forall (fun i => i < List.length negValues) indices ->
  Forall (fun row => In row negValues) (take_rows negValues indices).
Proof.
  unfold take_rows. intros H. apply Forall_map.
  eapply Forall_impl; [| exact H]. intros i Hi. apply nth_In. exact Hi.
Qed.

Lemma manual_pseudogene_ok (exptParameters : ExptParameters)
    (negValues : list (list float64)) (pseudogene : nat) (w : World) :
  negValues <> [] -> (0 <= pseudogene_size exptParameters)%Z ->
  let size := Z.to_nat (pseudogene_size exptParameters) in
  exists pseudoTable : list (list float64),
    manual_pseudogene exptParameters negValues pseudogene w
    = (Ok (combine (pseudo_ids pseudogene size) pseudoTable,
           pseudo_library pseudogene size),
       advance size w)
    /\ List.length pseudoTable = size
    /\ Forall (fun row => In row negValues) pseudoTable.
Proof.
  intros Hne Hs size.
  assert (Hlen : 0 < List.length negValues)
    by (destruct negValues; [contradiction | simpl; lia]).
  unfold manual_pseudogene, bind. rewrite (randint_ok w Hlen Hs).
  eexists. split; [reflexivity |]. split.
  - unfold take_rows. rewrite !length_map, length_seq. reflexivity.
  - apply take_rows_in. apply Forall_map. apply Forall_forall.
    intros i _. apply Nat.mod_upper_bound. lia.
Qed.

Lemma advance_advance (a b : nat) (w : World) :
  advance b (advance a w) = advance (a + b) w.
Proof. unfold advance; simpl. f_equal. lia. Qed.

Lemma map_fst_combine_eq {A B} (a : list A) (b : list B) :
  List.length a = List.length b -> map fst (combine a b) = a.
Proof.
  revert b. induction a as [| x a IH]; intros [| y b] H; simpl in *;
    try reflexivity; try discriminate.
  f_equal. apply IH. lia.
Qed.

Lemma map_snd_combine_eq {A B} (a : list A) (b : list B) :
  List.length a = List.length b -> map snd (combine a b) = b.
Proof.
  revert b. induction a as [| x a IH]; intros [| y b] H; simpl in *;
    try reflexivity; try discriminate.
  f_equal. apply IH. lia.
Qed.

Lemma advance_0 (w : World) : advance 0 w = w.
Proof. destruct w. unfold advance; simpl. rewrite Nat.add_0_r. reflexivity. Qed.

Lemma forM_manual (exptParameters : ExptParameters)
    (negValues : list (list float64)) (l : list nat) (w : World) :
  negValues <> [] -> (0 <= pseudogene_size exptParameters)%Z ->
  let size := Z.to_nat (pseudogene_size exptParameters) in
  exists tables : list (list (guide * list float64) * LibraryTable),
    forM l (manual_pseudogene exptParameters negValues) w
    = (Ok tables, advance (List.length l * size) w)
    /\ map snd tables = map (fun j => pseudo_library j size) l
    /\ Forall2 (fun j tb =>
                  map fst (fst tb) = pseudo_ids j size
                  /\ Forall (fun r => In (snd r) negValues) (fst tb))
               l tables.
Proof.
  intros Hne Hs size. revert w.
  induction l as [| j l IH]; intros w.
  - exists []. simpl. rewrite advance_0. repeat split; constructor.
  - destruct (@manual_pseudogene_ok exptParameters negValues j w Hne Hs)
      as (tb & E & Hl & Hin).
    destruct (IH (advance size w)) as (tables & Et & Hlib & Hall).
    eexists. split; [| split].
    + simpl. unfold bind at 1. fold size in E. rewrite E.
      unfold bind at 1. rewrite Et. unfold ret.
      rewrite advance_advance. reflexivity.
    + simpl. f_equal. exact Hlib.
    + constructor; [| exact Hall]. simpl. split.
      * apply map_fst_combine_eq.
        unfold pseudo_ids. rewrite length_map, length_seq. fold size. lia.
      * apply Forall_forall. intros r Hr.
        rewrite Forall_forall in Hin. apply Hin.
        destruct r as [id row]. eapply in_combine_r. exact Hr.
Qed.

Lemma pd_concat_nonempty {A} (frames : list (list A)) :
  frames <> [] -> Pd.concat frames = Ok (List.concat frames).
Proof. destruct frames; [contradiction | reflexivity]. Qed.

Lemma manual_tables_rows (negValues : list (list float64)) (size : nat)
    (l : list nat) (tables : list (list (guide * list float64) * LibraryTable)) :
  Forall2 (fun j tb =>
             map fst (fst tb) = pseudo_ids j size
             /\ Forall (fun r => In (snd r) negValues) (fst tb))
          l tables ->
  map fst (List.concat (map fst tables))
  = flat_map (fun j => pseudo_ids j size) l
  /\ Forall (fun r => In (snd r) negValues) (List.concat (map fst tables)).
Proof.
  induction 1 as [| j tb l tables [Hid Hin] _ [IH1 IH2]]; simpl.
  - split; constructor.
  - split.
    + rewrite map_app. f_equal; [exact Hid | exact IH1].
    + apply Forall_app. split; assumption.
Qed.

Lemma length_flat_map_const {A B} (f : A -> list B) (n : nat) (l : list A) :
  (forall x, List.length (f x) = n) ->
  List.length (flat_map f l) = List.length l * n.
Proof.
  intros H. induction l as [| x l IH]; simpl; [reflexivity |].
  rewrite length_app, H, IH. reflexivity.
Qed.

(** X14.  In the manual mode, with at least one negative-control row, a
    positive number of pseudogenes and a size that is not negative, the stage
    succeeds: it prints one line, draws one random number per pseudo guide,
    keeps the rows of the phenotype table and of the library and appends to
    each one row per pseudo guide, pseudogene after pseudogene.  The scores
    of every appended row are the scores of a row of the negative table. *)
Theorem pseudogeneStage_manual (exptParameters : ExptParameters)
    (phenotypeTable negTable : Frame) (libraryTable : LibraryTable) (w : World) :
  Py.lower (generate_pseudogene_dist exptParameters) = "manual"%string ->
  analyses exptParameters <> [] ->
  rows negTable <> [] ->
  (0 < num_pseudogenes exptParameters)%Z ->
  (0 <= pseudogene_size exptParameters)%Z ->
  let n := Z.to_nat (num_pseudogenes exptParameters) in
  let size := Z.to_nat (pseudogene_size exptParameters) in
  exists pseudoRows : list (guide * list float64),
    pseudogeneStage exptParameters phenotypeTable negTable libraryTable w
    = (Ok (mkFrame (columns phenotypeTable) (rows phenotypeTable ++ pseudoRows),
           libraryTable ++ flat_map (fun j => pseudo_library j size) (seq 0 n)),
       mkWorld
         (stdout w
          ++ ["Generating a pseudogene distribution from negative controls"%string])
         (draws w) (drawn w + n * size))
    /\ map fst pseudoRows = flat_map (fun j => pseudo_ids j size) (seq 0 n)
    /\ List.length pseudoRows = n * size
    /\ Forall (fun r => In (snd r) (map snd (rows negTable))) pseudoRows.
Proof.
  intros Hmode Han Hneg Hnum Hsize n size.
  assert (Hoff : (generate_pseudogene_dist exptParameters =? "off")%string = false).
  { apply String.eqb_neq. intros E. rewrite E in Hmode. discriminate. }
  assert (Hnegv : map snd (rows negTable) <> []).
  { destruct (rows negTable); [contradiction | discriminate]. }
  destruct (@forM_manual exptParameters (map snd (rows negTable)) (seq 0 n)
              (mkWorld
                 (stdout w
                  ++ ["Generating a pseudogene distribution from negative controls"%string])
                 (draws w) (drawn w)) Hnegv Hsize)
    as (tables & Efor & Hlib & Hall).
  destruct (@manual_tables_rows _ _ _ _ Hall) as [Hids Hrows].
  assert (Hne : tables <> []).
  { apply Forall2_length in Hall. rewrite length_seq in Hall.
    assert (0 < n) by (unfold n; lia).
    destruct tables; [simpl in Hall; lia | discriminate]. }
  exists (List.concat (map fst tables)).
  split; [| split; [exact Hids | split; [| exact Hrows]]].
  - unfold pseudogeneStage. rewrite Hoff.
    destruct (analyses exptParameters) as [| a l]; [contradiction |].
    cbn [List.length Nat.ltb Nat.leb negb andb].
    rewrite Hmode. simpl ("manual" =? "manual")%string. cbv iota.
    unfold bind at 1. unfold print at 1.
    unfold bind at 1. fold n. rewrite Efor.
    unfold bind at 1, lift at 1.
    rewrite pd_concat_nonempty
      by (intros E; apply map_eq_nil in E; exact (Hne E)).
    unfold bind at 1, lift at 1.
    rewrite pd_concat_nonempty
      by (intros E; apply map_eq_nil in E; exact (Hne E)).
    unfold ret. rewrite Hlib, <- !flat_map_concat_map.
    unfold advance; simpl. rewrite length_seq. reflexivity.
  - rewrite <- (length_map fst), Hids.
    rewrite (@length_flat_map_const _ _ _ size), length_seq; [reflexivity |].
    intros j. unfold pseudo_ids. rewrite length_map, length_seq. reflexivity.
Qed.

Lemma pseudogeneStage_manual_witness :
  let exptParameters :=
    mkExptParameters "Manual" 2 2 [("calculate_ave"%string, [3%Z])] in
  let table :=
    mkFrame [("gamma", "Rep1")%string]
      [("g1"%string, [Fin 0]); ("g2"%string, [NaN])] in
  let w := mkWorld [] (fun n => n) 0 in
  exists pseudoRows : list (guide * list float64),
    pseudogeneStage exptParameters table table [] w
    = (Ok (mkFrame (columns table) (rows table ++ pseudoRows),
           [] ++ flat_map (fun j => pseudo_library j 2) (seq 0 2)),
       mkWorld
         (stdout w
          ++ ["Generating a pseudogene distribution from negative controls"%string])
         (draws w) (drawn w + 2 * 2))
    /\ map fst pseudoRows = flat_map (fun j => pseudo_ids j 2) (seq 0 2)
    /\ List.length pseudoRows = 2 * 2
    /\ Forall (fun r => In (snd r) (map snd (rows table))) pseudoRows.
Proof.
  intros exptParameters table w.
  apply (@pseudogeneStage_manual exptParameters table table [] w).
  - reflexivity.
  - discriminate.
  - discriminate.
  - simpl. lia.
  - simpl. lia.
Defined.

(** X15.  In the manual mode a number of pseudogenes that is zero or
    negative leaves the list of pseudogene tables empty: the stage prints its
    first line, draws nothing, and stops on the [ValueError] of [pd.concat]. *)
Theorem pseudogeneStage_manual_no_pseudogene (exptParameters : ExptParameters)
    (phenotypeTable negTable : Frame) (libraryTable : LibraryTable) (w : World) :
  Py.lower (generate_pseudogene_dist exptParameters) = "manual"%string ->
  analyses exptParameters <> [] ->
  (num_pseudogenes exptParameters <= 0)%Z ->
  pseudogeneStage exptParameters phenotypeTable negTable libraryTable w
  = (Raise (ValueError "No objects to concatenate"),
     mkWorld
       (stdout w
        ++ ["Generating a pseudogene distribution from negative controls"%string])
       (draws w) (drawn w)).
Proof.
  intros Hmode Han Hnum.
  assert (Hoff : (generate_pseudogene_dist exptParameters =? "off")%string = false).
  { apply String.eqb_neq. intros E. rewrite E in Hmode. discriminate. }
  unfold pseudogeneStage. rewrite Hoff.
  destruct (analyses exptParameters) as [| a l]; [contradiction |].
  cbn [List.length Nat.ltb Nat.leb negb andb].
  rewrite Hmode. simpl ("manual" =? "manual")%string. cbv iota.
  replace (Z.to_nat (num_pseudogenes exptParameters)) with 0 by lia.
  reflexivity.
Qed.

Lemma pseudogeneStage_manual_no_pseudogene_witness :
  let exptParameters :=
    mkExptParameters "manual" 0 5 [("calculate_ave"%string, [3%Z])] in
  let table := mkFrame [("gamma", "Rep1")%string] [("g1"%string, [Fin 0])] in
  let w := mkWorld [] (fun n => n) 0 in
  pseudogeneStage exptParameters table table [] w
  = (Raise (ValueError "No objects to concatenate"),
     mkWorld
       (stdout w
        ++ ["Generating a pseudogene distribution from negative controls"%string])
       (draws w) (drawn w)).
Proof.
  intros exptParameters table w.
  apply (@pseudogeneStage_manual_no_pseudogene exptParameters table table [] w).
  - reflexivity.
  - discriminate.
  - simpl. lia.
Defined.



(** ** The ids of the pseudo guides are distinct *)

Lemma format_d_inj (n m : Z) : Py.format_d n = Py.format_d m -> n = m.
Proof.
  unfold Py.format_d. intros H. apply DecimalZ.to_int_inj.
  assert (E : Some (Z.to_int n) = Some (Z.to_int m)).
  { rewrite <- !NilEmpty.isi. rewrite H. reflexivity. }
  inversion E. reflexivity.
Qed.

Lemma nat_d_inj (n m : nat) : nat_d n = nat_d m -> n = m.
Proof. unfold nat_d. intros H. apply format_d_inj in H. lia. Qed.

Lemma string_of_uint_no_underscore (d : Decimal.uint) :
  occurs "_" (NilEmpty.string_of_uint d) = false.
Proof. induction d; simpl; auto. Qed.

Lemma format_d_no_underscore (n : Z) : occurs "_" (Py.format_d n) = false.
Proof.
  unfold Py.format_d. destruct (Z.to_int n); simpl;
    apply string_of_uint_no_underscore.
Qed.

(** Two texts cut at their first underscore are equal part by part. *)
Lemma underscore_split (a a' b b' : string) :
  occurs "_" a = false -> occurs "_" a' = false ->
  (a ++ "_" ++ b)%string = (a' ++ "_" ++ b')%string ->
  a = a' /\ b = b'.
Proof.
  revert a'. induction a as [| c a IH]; intros [| c' a'] Ha Ha' H;
    simpl in *.
  - inversion H. auto.
  - inversion H; subst. simpl in Ha'. discriminate.
  - inversion H; subst. simpl in Ha. discriminate.
  - inversion H; subst.
    apply orb_false_iff in Ha, Ha'.
    destruct (IH a' (proj2 Ha) (proj2 Ha') H2) as [-> ->]. auto.
Qed.

Lemma append_inj_l (p a b : string) : (p ++ a)%string = (p ++ b)%string -> a = b.
Proof.
  induction p as [| c p IH]; simpl; intros H; [exact H |].
  inversion H. auto.
Qed.

Lemma tagged_id_inj (prefix : string) (j j' i i' : nat) :
  (prefix ++ nat_d j ++ "_" ++ nat_d i)%string
  = (prefix ++ nat_d j' ++ "_" ++ nat_d i')%string ->
  j = j' /\ i = i'.
Proof.
  intros H. apply append_inj_l in H.
  apply underscore_split in H; try apply format_d_no_underscore.
  destruct H as [Hj Hi]. split; apply nat_d_inj; assumption.
Qed.

Lemma NoDup_flat_map_disjoint {A B} (f : A -> list B) (l : list A) :
  NoDup l ->
  (forall x, In x l -> NoDup (f x)) ->
  (forall x y z, In x l -> In y l -> In z (f x) -> In z (f y) -> x = y) ->
  NoDup (flat_map f l).
Proof.
  induction 1 as [| x l Hx Hnd IH]; intros Hf Hdis; simpl; [constructor |].
  apply NoDup_app. repeat split.
  - apply Hf. left. reflexivity.
  - apply IH.
    + intros y Hy. apply Hf. right. exact Hy.
    + intros y y' z Hy Hy'. apply Hdis; right; assumption.
  - intros z Hz Hz'. apply in_flat_map in Hz'. destruct Hz' as (y & Hy & Hzy).
    assert (x = y) by (apply (Hdis x y z); auto; [left; reflexivity | right; exact Hy]).
    subst y. contradiction.
Qed.

Lemma tagged_ids_NoDup (prefix : string) (n size : nat) :
  NoDup (flat_map
           (fun j => map (fun i => (prefix ++ nat_d j ++ "_" ++ nat_d i)%string)
                         (seq 0 size))
           (seq 0 n)).
Proof.
  apply NoDup_flat_map_disjoint.
  - apply seq_NoDup.
  - intros j _. apply NoDup_map_NoDup_ForallPairs; [| apply seq_NoDup].
    intros i i' _ _ H. apply tagged_id_inj in H. tauto.
  - intros j j' z _ _ Hz Hz'.
    apply in_map_iff in Hz, Hz'.
    destruct Hz as (i & <- & _). destruct Hz' as (i' & H & _).
    apply tagged_id_inj in H. destruct H as [H _]. auto.
Qed.

Lemma pseudo_library_ids (j size : nat) :
  map lib_id (pseudo_library j size) = pseudo_ids j size
  /\ map sequence (pseudo_library j size) = pseudo_seqs j size.
Proof.
  unfold pseudo_library. rewrite !map_map; simpl.
  assert (Hl : List.length (pseudo_ids j size) = List.length (pseudo_seqs j size))
    by (unfold pseudo_ids, pseudo_seqs; rewrite !length_map; reflexivity).
  split.
  - apply (map_fst_combine_eq _ _ Hl).
  - apply (map_snd_combine_eq _ _ Hl).
Qed.

Lemma map_flat_map {A B C} (g : B -> C) (f : A -> list B) (l : list A) :
  map g (flat_map f l) = flat_map (fun x => map g (f x)) l.
Proof.
  induction l as [| x l IH]; simpl; [reflexivity |].
  rewrite map_app, IH. reflexivity.
Qed.

Lemma drop_duplicates_fresh (l : LibraryTable) (seen : list colkey) :
  NoDup (map sequence l) ->
  (forall r k, In r l -> In k seen -> k <> (gene r, sequence r)) ->
  drop_duplicates seen l = l.
Proof.
  revert seen. induction l as [| r l IH]; intros seen Hnd Hseen; simpl;
    [reflexivity |].
  inversion Hnd as [| s l' Hnotin Hnd']; subst.
  destruct (existsb (colkey_eqb (gene r, sequence r)) seen) eqn:E.
  - apply existsb_exists in E. destruct E as (k & Hk & Ek).
    apply colkey_eqb_eq in Ek. exfalso.
    apply (Hseen r k); [left; reflexivity | exact Hk | symmetry; exact Ek].
  - f_equal. apply IH; [exact Hnd' |].
    intros r' k Hr' [<- | Hk].
    + intros Eq. apply Hnotin. inversion Eq as [[Hg Hs]]. rewrite Hs.
      apply in_map. exact Hr'.
    + apply Hseen; [right; exact Hr' | exact Hk].
Qed.

Lemma drop_duplicates_app (l1 l2 : LibraryTable) (seen : list colkey)
    (pseudo : string -> bool) :
  (forall r, In r l1 -> pseudo (gene r) = false) ->
  (forall k, In k seen -> pseudo (fst k) = false) ->
  (forall r, In r l2 -> pseudo (gene r) = true) ->
  NoDup (map sequence l2) ->
  drop_duplicates seen (l1 ++ l2) = drop_duplicates seen l1 ++ l2.
Proof.
  intros H1 Hseen H2 Hnd. revert seen Hseen.
  induction l1 as [| r l1 IH]; intros seen Hseen; simpl.
  - apply drop_duplicates_fresh; [exact Hnd |].
    intros r k Hr Hk E. subst k. simpl in *.
    specialize (Hseen _ Hk). simpl in Hseen.
    rewrite (H2 r Hr) in Hseen. discriminate.
  - assert (H1' : forall r', In r' l1 -> pseudo (gene r') = false)
      by (intros r' Hr'; apply H1; right; exact Hr').
    destruct (existsb (colkey_eqb (gene r, sequence r)) seen).
    + apply IH; assumption.
    + simpl. f_equal. apply IH; [exact H1' |].
      intros k [<- | Hk]; [apply H1; left; reflexivity | apply Hseen; exact Hk].
Qed.

(** X17.  The library rows the manual mode builds have pairwise distinct
    guide ids and pairwise distinct sequences; each has the gene 'pseudo_j'
    of its pseudogene, the transcript 'na' and no sublibrary. *)
Theorem pseudo_library_distinct (n size : nat) :
  let pseudoLib := flat_map (fun j => pseudo_library j size) (seq 0 n) in
  NoDup (map lib_id pseudoLib)
  /\ NoDup (map sequence pseudoLib)
  /\ forall r, In r pseudoLib ->
       sublibrary r = None /\ transcripts r = "na"%string
       /\ exists j, j < n /\ gene r = ("pseudo_" ++ nat_d j)%string.
Proof.
  intros pseudoLib. split; [| split].
  - unfold pseudoLib. rewrite map_flat_map.
    erewrite flat_map_ext; [apply (tagged_ids_NoDup "pseudo_" n size) |].
    intros j. apply pseudo_library_ids.
  - unfold pseudoLib. rewrite map_flat_map.
    erewrite flat_map_ext; [apply (tagged_ids_NoDup "seq_" n size) |].
    intros j. apply pseudo_library_ids.
  - intros r Hr. unfold pseudoLib in Hr. apply in_flat_map in Hr.
    destruct Hr as (j & Hj & Hr). apply in_seq in Hj.
    unfold pseudo_library in Hr. apply in_map_iff in Hr.
    destruct Hr as (p & <- & _). simpl. repeat split.
    exists j. split; [lia | reflexivity].
Qed.

(** X18.  When no gene of the library has a name that starts with 'pseudo_',
    the removal of duplicated (gene, sequence) pairs that precedes the gene
    scores (line 253) keeps every row the manual mode appended: the
    deduplicated extended library is the deduplicated library followed by
    all the pseudo guides. *)
Theorem pseudogenes_survive_deduplication (libraryTable : LibraryTable)
    (n size : nat) :
  (forall r, In r libraryTable -> String.prefix "pseudo_" (gene r) = false) ->
  let pseudoLib := flat_map (fun j => pseudo_library j size) (seq 0 n) in
  drop_duplicates [] (libraryTable ++ pseudoLib)
  = drop_duplicates [] libraryTable ++ pseudoLib.
Proof.
  intros Hlib pseudoLib.
  apply (@drop_duplicates_app libraryTable pseudoLib [] (String.prefix "pseudo_")).
  - exact Hlib.
  - intros k [].
  - intros r Hr. unfold pseudoLib in Hr. apply in_flat_map in Hr.
    destruct Hr as (j & _ & Hr).
    unfold pseudo_library in Hr. apply in_map_iff in Hr.
    destruct Hr as (p & <- & _). simpl.
    destruct (nat_d j); reflexivity.
  - unfold pseudoLib. rewrite map_flat_map.
    erewrite flat_map_ext; [apply (tagged_ids_NoDup "seq_" n size) |].
    intros j. apply pseudo_library_ids.
Qed.

Lemma pseudogenes_survive_deduplication_witness :
  let libraryTable :=
    [mkLibraryRow "g1" (Some "top5"%string) "A2M" "P1" "ACGT";
     mkLibraryRow "g2" (Some "top5"%string) "A2M" "P1" "ACGT";
     mkLibraryRow "g3" (Some "top5"%string) "negative_control" "na" "TTTT"]%string in
  let pseudoLib := flat_map (fun j => pseudo_library j 2) (seq 0 2) in
  drop_duplicates [] (libraryTable ++ pseudoLib)
  = drop_duplicates [] libraryTable ++ pseudoLib.
Proof.
  intros libraryTable.
  apply (@pseudogenes_survive_deduplication libraryTable 2 2).
  intros r [<- | [<- | [<- | []]]]; reflexivity.
Defined.

(** ** The effect size label of the gene table *)

Lemma Permutation_filter_pres {A} (f : A -> bool) (l l' : list A) :
  Permutation l l' -> Permutation (filter f l) (filter f l').
Proof.
  induction 1 as [| x l l' _ IH | x y l | l l' l'' _ IH1 _ IH2]; simpl.
  - constructor.
  - destruct (f x); [constructor |]; exact IH.
  - destruct (f x), (f y); try reflexivity. constructor.
  - etransitivity; eassumption.
Qed.

Lemma StronglySorted_filter {A} (R : A -> A -> Prop) (f : A -> bool)
    (l : list A) :
  StronglySorted R l -> StronglySorted R (filter f l).
Proof.
  induction 1 as [| a l Hs IH Hf]; simpl; [constructor |].
  destruct (f a); [| exact IH].
  constructor; [exact IH |].
  rewrite Forall_forall in *. intros y Hy. apply Hf.
  apply filter_In in Hy. tauto.
Qed.

Lemma filter_flat_map_eq {A B} (f : B -> bool) (g : A -> list B) (l : list A) :
  filter f (flat_map g l) = flat_map (fun x => filter f (g x)) l.
Proof.
  induction l as [| x l IH]; simpl; [reflexivity |].
  rewrite filter_app, IH. reflexivity.
Qed.

Lemma nth_label_not_average (n : Z) :
  starts_with_average (Py.format_d n ++ "th best score") = false.
Proof.
  unfold Py.format_d.
  destruct (Z.to_int n) as [d | d]; [destruct d |]; reflexivity.
Qed.

Lemma strongest_label_average (n : Z) :
  starts_with_average ("average phenotype of strongest " ++ Py.format_d n) = true.
Proof. reflexivity. Qed.

(** The labels one analysis contributes that start with 'average'. *)
Lemma average_labels_of_analysis
    (mw mw2 : list float64 -> list float64 -> result (float64 * float64))
    (minor : Z) (G : Type) (grouped : Grouped G) (negativeTable : Group)
    (analysis : string) (params : list Z) (t : GeneScores G) :
  applyGeneScoreFunction mw mw2 minor grouped negativeTable analysis params
  = Ok t ->
  ((analysis =? "calculate_ave")%string = false ->
   filter starts_with_average [stat_name t; count_name t] = [])
  /\ (forall N, analysis = "calculate_ave"%string ->
        Py.getitem params 0 = Ok N ->
        filter starts_with_average [stat_name t; count_name t]
        = if (N <=? 0)%Z
          then ["average of all phenotypes";
                "average of all phenotypes_sgRNAcount"]%string
          else [("average phenotype of strongest " ++ Py.format_d N)%string]).
Proof.
  unfold applyGeneScoreFunction. intros H. split.
  - intros E. rewrite E in H.
    destruct (analysis =? "calculate_mw")%string.
    + case_rbind H. simpl in H. inversion H. reflexivity.
    + destruct (analysis =? "calculate_nth")%string; [| discriminate].
      case_rbind H. simpl in H. case_rbind H. simpl in H. inversion H.
      simpl. rewrite nth_label_not_average. reflexivity.
  - intros N -> HN. simpl in H. rewrite HN in H. simpl in H.
    destruct (N <=? 0)%Z; inversion H; reflexivity.
Qed.

Lemma forM_Forall2 {A B} (f : A -> M B) (l : list A) (ys : list B)
    (w w' : World) :
  forM l f w = (Ok ys, w') ->
  Forall2 (fun x y => exists w1 w2, f x w1 = (Ok y, w2)) l ys.
Proof.
  revert ys w w'. induction l as [| x l IH]; intros ys w w' H; simpl in H.
  - unfold ret in H. inversion H. constructor.
  - unfold bind in H at 1. destruct (f x w) as [[y | e] w1] eqn:Ex;
      [| discriminate].
    unfold bind in H at 1. destruct (forM l f w1) as [[ys' | e] w2] eqn:El;
      [| discriminate].
    unfold ret in H. inversion H; subst. constructor.
    + exists w, w1. exact Ex.
    + eapply IH. exact El.
Qed.

Section EffectLabels.

Variable mw mw2 : list float64 -> list float64 -> result (float64 * float64).
Variable minor : Z.
Variable G : Type.
Variable geneGroups : Grouped G.
Variable negTable : Group.

Lemma average_labels_without_calculate_ave
    (runs : list (string * list Z)) (tables : list (GeneScores G)) :
  Forall2 (fun a t => applyGeneScoreFunction mw mw2 minor geneGroups negTable
                        (fst a) (snd a) = Ok t) runs tables ->
  ~ In "calculate_ave"%string (map fst runs) ->
  filter starts_with_average
    (flat_map (fun t => [stat_name t; count_name t]) tables) = [].
Proof.
  rewrite filter_flat_map_eq.
  induction 1 as [| a t runs tables Ha _ IH]; intros Hno; [reflexivity |].
  cbn [flat_map].
  destruct (average_labels_of_analysis _ _ _ _ _ _ _ Ha) as [Hother _].
  rewrite Hother.
  - apply IH. intros Hin. apply Hno. right. exact Hin.
  - apply String.eqb_neq. intros E. apply Hno. left. exact E.
Qed.

Lemma average_labels_with_calculate_ave
    (runs : list (string * list Z)) (tables : list (GeneScores G))
    (params : list Z) (N : Z) :
  Forall2 (fun a t => applyGeneScoreFunction mw mw2 minor geneGroups negTable
                        (fst a) (snd a) = Ok t) runs tables ->
  NoDup (map fst runs) ->
  In ("calculate_ave"%string, params) runs ->
  Py.getitem params 0 = Ok N ->
  filter starts_with_average
    (flat_map (fun t => [stat_name t; count_name t]) tables)
  = if (N <=? 0)%Z
    then ["average of all phenotypes";
          "average of all phenotypes_sgRNAcount"]%string
    else [("average phenotype of strongest " ++ Py.format_d N)%string].
Proof.
  intros Hall. induction Hall as [| a t runs tables Ha Hall IH];
    intros Hnd Hin HN; [contradiction |].
  simpl in Hnd. inversion Hnd as [| k ks Hnotin Hnd']; subst.
  cbn [flat_map]. rewrite filter_app.
  destruct (average_labels_of_analysis _ _ _ _ _ _ _ Ha) as [Hother Have].
  destruct Hin as [-> | Hin].
  - simpl in *. rewrite (Have N eq_refl HN).
    rewrite (average_labels_without_calculate_ave Hall Hnotin).
    apply app_nil_r.
  - rewrite Hother.
    + apply IH; assumption.
    + apply String.eqb_neq. intros E. apply Hnotin. rewrite E.
      apply (in_map fst) in Hin. exact Hin.
Qed.

End EffectLabels.

Lemma sorted_average_labels (l : list string) :
  let found := filter starts_with_average (Py.listsort String.ltb l) in
  Permutation found (filter starts_with_average l)
  /\ StronglySorted (leq String.ltb) found.
Proof.
  split.
  - apply Permutation_filter_pres, listsort_perm.
  - apply StronglySorted_filter.
    apply listsort_sorted with (P := fun _ => True).
    + intros x y z _ _ _. apply sto_leq_trans.
      * apply string_ltb_trans.
      * apply string_ltb_total.
    + intros x y _ _. apply sto_asym.
      * apply string_ltb_trans.
      * apply string_ltb_irrefl.
    + apply Forall_forall. auto.
Qed.

(** X19.  The effect size label the volcano plot looks up in the gene
    table.  With the analyses given under distinct names and all of them
    succeeding: when calculate_ave ran with a positive N, the label is
    'average phenotype of strongest N'; when it ran with N <= 0, no label is
    returned, since its two columns 'average of all phenotypes' and
    'average of all phenotypes_sgRNAcount' both start with 'average', and the
    message naming both is printed; when calculate_ave did not run, no label
    is returned and the message of the missing column is printed. *)
Theorem effect_size_label_of_gene_table
    (mw mw2 : list float64 -> list float64 -> result (float64 * float64))
    (minor : Z) (G : Type) (exptParameters : ExptParameters)
    (geneGroups : Grouped G) (negTable : Group)
    (tables : list (GeneScores G)) (w w1 : World) :
  NoDup (map fst (analyses exptParameters)) ->
  analysisTables_of mw mw2 minor exptParameters geneGroups negTable w
  = (Ok tables, w1) ->
  let labels := gene_table_labels tables in
  let printed line := mkWorld (stdout w1 ++ [line]) (draws w1) (drawn w1) in
  (forall params N,
      In ("calculate_ave"%string, params) (analyses exptParameters) ->
      Py.getitem params 0 = Ok N ->
      ((0 < N)%Z ->
       getEffectSizeLabel labels w1
       = (Ok (Some ("average phenotype of strongest " ++ Py.format_d N)%string),
          w1))
      /\ ((N <= 0)%Z ->
          getEffectSizeLabel labels w1
          = (Ok None,
             printed
               ("Multiple effect size data columns found, please specifiy one: "
                ++ "average of all phenotypes, "
                ++ "average of all phenotypes_sgRNAcount")%string)))
  /\ (~ In "calculate_ave"%string (map fst (analyses exptParameters)) ->
      getEffectSizeLabel labels w1
      = (Ok None, printed "No gene effect size data columns found"%string)).
Proof.
  intros Hnd Hrun labels printed.
  assert (Hall : Forall2
            (fun a t => applyGeneScoreFunction mw mw2 minor geneGroups negTable
                          (fst a) (snd a) = Ok t)
            (analyses exptParameters) tables).
  { apply forM_Forall2 in Hrun.
    eapply Forall2_impl; [| exact Hrun].
    intros a t (wa & wb & H). unfold bind, print, lift in H.
    inversion H. reflexivity. }
  destruct (sorted_average_labels
              (flat_map (fun t => [stat_name t; count_name t]) tables))
    as [Hperm Hsorted].
  fold (gene_table_labels tables) in Hperm, Hsorted. fold labels in Hperm, Hsorted.
  split.
  - intros params N Hin HN.
    rewrite (@average_labels_with_calculate_ave _ _ _ _ _ _ _ _ _ _ Hall Hnd Hin HN)
      in Hperm.
    split; intros HNs; unfold getEffectSizeLabel.
    + destruct (N <=? 0)%Z eqn:E; [apply Z.leb_le in E; lia |].
      apply Permutation_sym, Permutation_length_1_inv in Hperm.
      rewrite Hperm. reflexivity.
    + destruct (N <=? 0)%Z eqn:E; [| apply Z.leb_gt in E; lia].
      apply Permutation_sym, Permutation_length_2_inv in Hperm.
      destruct Hperm as [Hperm | Hperm]; rewrite Hperm in *.
      * reflexivity.
      * exfalso. inversion Hsorted as [| a l _ Hf]; subst.
        inversion Hf as [| b l' Hleq _]; subst. discriminate Hleq.
  - intros Hno.
    rewrite (@average_labels_without_calculate_ave _ _ _ _ _ _ _ _ Hall Hno)
      in Hperm.
    apply Permutation_sym, Permutation_nil in Hperm. unfold getEffectSizeLabel.
    rewrite Hperm. reflexivity.
Qed.

Lemma effect_size_label_of_gene_table_witness :
  let mw := fun _ _ : list float64 => Ok (Fin 0, Fin 1) in
  let exptParameters :=
    mkExptParameters "off" 0 0
      [("calculate_mw"%string, []); ("calculate_ave"%string, [3%Z])] in
  let geneGroups :=
    [("A2M"%string, [(("gamma", "Rep1")%string, [NaN; NaN])])] in
  let negTable := [(("gamma", "Rep1")%string, [NaN])] in
  let w := mkWorld [] (fun n => n) 0 in
  let w1 := mkWorld ["--calculate_mw"; "--calculate_ave"]%string (fun n => n) 0 in
  exists tables,
    analysisTables_of mw mw 17 exptParameters geneGroups negTable w
    = (Ok tables, w1)
    /\ getEffectSizeLabel (gene_table_labels tables) w1
       = (Ok (Some "average phenotype of strongest 3"%string), w1).
Proof.
  intros mw exptParameters geneGroups negTable w w1.
  eexists. split; [reflexivity |].
  refine (proj1 (proj1 (@effect_size_label_of_gene_table mw mw 17 string
                          exptParameters geneGroups negTable _ w w1 _ _)
                   [3%Z] 3%Z _ _) _).
  - repeat constructor; simpl; intuition discriminate.
  - reflexivity.
  - right. left. reflexivity.
  - reflexivity.
  - lia.
Defined.

(** ** The loader of the counts *)

Lemma rawkey_eqb_eq (a b : rawkey) : rawkey_eqb a b = true <-> a = b.
Proof.
  unfold rawkey_eqb. destruct a as [a1 a2], b as [b1 b2]; simpl.
  rewrite andb_true_iff, colkey_eqb_eq, String.eqb_eq. split.
  - intros [-> ->]. reflexivity.
  - intros H. inversion H. split; reflexivity.
Qed.

Lemma existsb_rawkey (tup : rawkey) (keys : list rawkey) :
  existsb (rawkey_eqb tup) keys = true <-> In tup keys.
Proof.
  rewrite existsb_exists. split.
  - intros (k & Hk & E). apply rawkey_eqb_eq in E. subst k. exact Hk.
  - intros H. exists tup. split; [exact H | apply rawkey_eqb_eq; reflexivity].
Qed.

Lemma find_drop_duplicates_id (id : guide) (records : list (guide * Z))
    (seen : list guide) :
  ~ In id seen ->
  find (fun r : guide * Z => (fst r =? id)%string) (drop_duplicates_id seen records)
  = find (fun r : guide * Z => (fst r =? id)%string) records.
Proof.
  revert seen. induction records as [| r rs IH]; intros seen Hseen; simpl;
    [reflexivity |].
  destruct (existsb (String.eqb (fst r)) seen) eqn:E.
  - apply existsb_exists in E. destruct E as (s & Hs & Es).
    apply String.eqb_eq in Es. subst s.
    destruct (fst r =? id)%string eqn:Eid.
    + apply String.eqb_eq in Eid. subst id. contradiction.
    + apply IH. exact Hseen.
  - simpl. destruct (fst r =? id)%string eqn:Eid; [reflexivity |].
    apply IH. intros [H | H]; [| contradiction].
    rewrite H, String.eqb_refl in Eid. discriminate.
Qed.

Lemma find_first_count (id : guide) (records : list (guide * Z)) :
  match find (fun r : guide * Z => (fst r =? id)%string) records with
  | Some r => snd r
  | None => 0%Z
  end = first_count id records.
Proof.
  induction records as [| r rs IH]; simpl; [reflexivity |].
  destruct (fst r =? id)%string; [reflexivity | exact IH].
Qed.

Lemma align_left_first_count (index : list guide) (records : list (guide * Z)) :
  align_left index (drop_duplicates_id [] records)
  = map (fun id => first_count id records) index.
Proof.
  unfold align_left. apply map_ext. intros id.
  rewrite find_drop_duplicates_id by (intros []).
  apply find_first_count.
Qed.

Lemma NoDup_snoc {A} (l : list A) (a : A) :
  NoDup l -> ~ In a l -> NoDup (l ++ [a]).
Proof.
  intros Hnd Hin. apply (Permutation_NoDup (Permutation_cons_append l a)).
  constructor; assumption.
Qed.

Section LoaderProperties.

Variable readCountsFile : string -> option (list (guide * Z)).
Variable files : string -> list (guide * Z).
Variable index : list guide.

Lemma load_columns_ok (tups : list rawkey) (columnDict : list (rawkey * list Z)) :
  (forall tup, In tup tups -> readCountsFile (snd tup) = Some (files (snd tup))) ->
  NoDup (map fst columnDict ++ tups) ->
  load_columns readCountsFile index tups columnDict
  = ([], inr (columnDict
              ++ map (fun tup =>
                        (tup, map (fun id => first_count id (files (snd tup)))
                                  index))
                     tups)).
Proof.
  revert columnDict. induction tups as [| tup rest IH];
    intros columnDict Hread Hnd; simpl.
  - rewrite app_nil_r. reflexivity.
  - destruct (existsb (rawkey_eqb tup) (map fst columnDict)) eqn:E.
    + apply existsb_rawkey in E. apply NoDup_remove_2 in Hnd.
      exfalso. apply Hnd. apply in_or_app. left. exact E.
    + rewrite (Hread tup (or_introl eq_refl)).
      rewrite align_left_first_count. rewrite IH.
      * rewrite <- app_assoc. reflexivity.
      * intros t Ht. apply Hread. right. exact Ht.
      * rewrite map_app, <- app_assoc. exact Hnd.
Qed.

Lemma load_columns_duplicate (tups : list rawkey)
    (columnDict : list (rawkey * list Z)) :
  (forall tup, In tup tups -> readCountsFile (snd tup) = Some (files (snd tup))) ->
  NoDup (map fst columnDict) ->
  ~ NoDup (map fst columnDict ++ tups) ->
  load_columns readCountsFile index tups columnDict
  = (["Asserting that tuples of condition, replicate, and count file should be unique; are the cases where this should not be enforced?"%string],
     inl (Exception
            "condition, replicate, and count file combination already assigned")).
Proof.
  revert columnDict. induction tups as [| tup rest IH];
    intros columnDict Hread Hkeys Hdup; simpl.
  - rewrite app_nil_r in Hdup. contradiction.
  - destruct (existsb (rawkey_eqb tup) (map fst columnDict)) eqn:E;
      [reflexivity |].
    rewrite (Hread tup (or_introl eq_refl)). apply IH.
    + intros t Ht. apply Hread. right. exact Ht.
    + rewrite map_app. apply NoDup_snoc; [exact Hkeys |].
      simpl. intros Hin. apply existsb_rawkey in Hin. congruence.
    + rewrite map_app, <- app_assoc. exact Hdup.
Qed.

End LoaderProperties.

Lemma Zsum_filter_le (f : guide * Z -> bool) (records : list (guide * Z)) :
  Forall (fun r => (0 <= snd r)%Z) records ->
  (0 <= Zsum (map snd (filter f records)) <= Zsum (map snd records))%Z.
Proof.
  induction 1 as [| r rs Hr _ IH]; simpl; [lia |].
  destruct (f r); simpl; lia.
Qed.

Lemma first_count_split (id : guide) (records : list (guide * Z)) :
  Forall (fun r => (0 <= snd r)%Z) records ->
  (0 <= first_count id records)%Z
  /\ (first_count id records
      + Zsum (map snd (filter (fun r : guide * Z => negb (fst r =? id)%string) records))
      <= Zsum (map snd records))%Z.
Proof.
  induction 1 as [| r rs Hr Hrs IH]; simpl; [lia |].
  destruct (fst r =? id)%string; simpl.
  - pose proof (Zsum_filter_le (fun r : guide * Z => negb (fst r =? id)%string) Hrs). lia.
  - lia.
Qed.

Lemma first_count_other (id id' : guide) (records : list (guide * Z)) :
  id' <> id ->
  first_count id' (filter (fun r : guide * Z => negb (fst r =? id)%string) records)
  = first_count id' records.
Proof.
  intros Hne. induction records as [| r rs IH]; simpl; [reflexivity |].
  destruct (fst r =? id)%string eqn:E; simpl.
  - apply String.eqb_eq in E.
    destruct (fst r =? id')%string eqn:E'; [| exact IH].
    apply String.eqb_eq in E'. congruence.
  - rewrite IH. reflexivity.
Qed.

Lemma first_counts_bounded (index : list guide) :
  NoDup index ->
  forall records : list (guide * Z),
    Forall (fun r => (0 <= snd r)%Z) records ->
    (Zsum (map (fun id => first_count id records) index)
     <= Zsum (map snd records))%Z.
Proof.
  induction 1 as [| id index Hnotin Hnd IH]; intros records Hnn; simpl.
  - pose proof (Zsum_filter_le (fun _ => true) Hnn) as H.
    lia.
  - destruct (first_count_split id Hnn) as [_ Hsplit].
    assert (Hnn' : Forall (fun r => (0 <= snd r)%Z)
                     (filter (fun r : guide * Z => negb (fst r =? id)%string) records)).
    { rewrite Forall_forall in *. intros r Hr. apply Hnn.
      apply filter_In in Hr. tauto. }
    specialize (IH _ Hnn').
    rewrite (map_ext_in
               (fun id' => first_count id'
                             (filter (fun r : guide * Z => negb (fst r =? id)%string) records))
               (fun id' => first_count id' records)) in IH.
    + lia.
    + intros id' Hin. apply first_count_other. intros ->. contradiction.
Qed.

Lemma rawkey_ltb_trans (a b c : rawkey) :
  rawkey_ltb a b = true -> rawkey_ltb b c = true -> rawkey_ltb a c = true.
Proof.
  unfold rawkey_ltb. destruct a as [a1 a2], b as [b1 b2], c as [c1 c2]; simpl.
  rewrite !orb_true_iff, !andb_true_iff, !colkey_eqb_eq.
  intros [H1 | [-> H1]] [H2 | [-> H2]].
  - left. eapply colkey_ltb_trans; eassumption.
  - left. exact H1.
  - left. exact H2.
  - right. split; [reflexivity | eapply string_ltb_trans; eassumption].
Qed.

Lemma rawkey_ltb_irrefl (a : rawkey) : rawkey_ltb a a = false.
Proof.
  unfold rawkey_ltb.
  rewrite colkey_ltb_irrefl, string_ltb_irrefl, andb_false_r. reflexivity.
Qed.

Lemma rawkey_ltb_total (a b : rawkey) :
  rawkey_ltb a b = false -> rawkey_ltb b a = false -> a = b.
Proof.
  unfold rawkey_ltb. destruct a as [a1 a2], b as [b1 b2]; simpl.
  rewrite !orb_false_iff, !andb_false_iff. intros [H1 H2] [H3 H4].
  assert (a1 = b1) by (apply colkey_ltb_total; assumption). subst b1.
  assert (Hrefl : colkey_eqb a1 a1 = true) by (apply colkey_eqb_eq; reflexivity).
  rewrite Hrefl in *.
  destruct H2 as [H2 | H2]; [discriminate |].
  destruct H4 as [H4 | H4]; [discriminate |].
  f_equal. apply string_ltb_total; assumption.
Qed.

(** X20.  The loader on a list of distinct (condition, replicate, file)
    tuples whose files can be read: nothing is printed and the table has the
    library guides as index and one column per tuple, the labels in strictly
    ascending order.  The
    count of a guide is the count of the first record of its id in the file
    (later records of the id are ignored) and 0 when the file has no record
    of it; records of ids outside the library are dropped.  Every column is
    as long as the index. *)
Theorem loadCounts_table (readCountsFile : string -> option (list (guide * Z)))
    (files : string -> list (guide * Z)) (index : list guide)
    (counts_file_list : list rawkey) :
  NoDup counts_file_list ->
  (forall tup, In tup counts_file_list ->
     readCountsFile (snd tup) = Some (files (snd tup))) ->
  exists countsTable,
    loadCounts readCountsFile index counts_file_list = ([], inr countsTable)
    /\ ct_index countsTable = index
    /\ map fst (ct_columns countsTable)
       = Py.listsort rawkey_ltb counts_file_list
    /\ Permutation (map fst (ct_columns countsTable)) counts_file_list
    /\ StronglySorted (below rawkey_ltb) (map fst (ct_columns countsTable))
    /\ aligned countsTable
    /\ forall tup column, In (tup, column) (ct_columns countsTable) ->
         column = map (fun id => first_count id (files (snd tup))) index.
Proof.
  intros Hnd Hread.
  pose proof (listsort_perm rawkey_ltb counts_file_list) as Hperm.
  eexists. split; [| split; [| split; [| split; [| split; [| split]]]]].
  - unfold loadCounts. rewrite (@load_columns_ok readCountsFile files).
    + reflexivity.
    + intros tup Hin. apply Hread. eapply Permutation_in; eassumption.
    + simpl. eapply Permutation_NoDup; [symmetry; exact Hperm | exact Hnd].
  - reflexivity.
  - simpl. rewrite map_map. simpl. apply map_id.
  - simpl. rewrite map_map. simpl. rewrite map_id. exact Hperm.
  - simpl. rewrite map_map. simpl. rewrite map_id.
    apply listsort_strictly_sorted.
    + apply rawkey_ltb_trans.
    + apply rawkey_ltb_irrefl.
    + apply rawkey_ltb_total.
    + exact Hnd.
  - unfold aligned. simpl. apply Forall_forall. intros c Hc.
    apply in_map_iff in Hc. destruct Hc as (tup & <- & _). simpl.
    apply length_map.
  - simpl. intros tup column Hin. apply in_map_iff in Hin.
    destruct Hin as (t & E & _). inversion E. reflexivity.
Qed.

Lemma loadCounts_table_witness :
  let files (path : string) :=
    if (path =? "a.counts")%string
    then [("g2", 5); ("g9", 4); ("g2", 7)]%string%Z
    else [("g1"%string, 3%Z)] in
  let counts_file_list :=
    [("T0", "Rep1", "b.counts"); ("T0", "Rep1", "a.counts")]%string in
  exists countsTable,
    loadCounts (fun path => Some (files path)) ["g1"; "g2"]%string
      counts_file_list
    = ([], inr countsTable)
    /\ ct_columns countsTable
       = [(("T0", "Rep1", "a.counts")%string, [0; 5]%Z);
          (("T0", "Rep1", "b.counts")%string, [3; 0]%Z)].
Proof.
  intros files counts_file_list.
  destruct (@loadCounts_table (fun path => Some (files path)) files
              ["g1"; "g2"]%string counts_file_list)
    as (countsTable & Hload & _).
  - repeat constructor; simpl; intuition discriminate.
  - reflexivity.
  - exists countsTable. split; [exact Hload |].
    vm_compute in Hload. inversion Hload. reflexivity.
Defined.

(** X21.  When a (condition, replicate, file) tuple is listed twice and the
    listed files can be read, the loader prints its assertion line and raises
    the exception 'condition, replicate, and count file combination already
    assigned': no table is made. *)
Theorem loadCounts_duplicate_raises
    (readCountsFile : string -> option (list (guide * Z)))
    (files : string -> list (guide * Z)) (index : list guide)
    (counts_file_list : list rawkey) :
  ~ NoDup counts_file_list ->
  (forall tup, In tup counts_file_list ->
     readCountsFile (snd tup) = Some (files (snd tup))) ->
  loadCounts readCountsFile index counts_file_list
  = (["Asserting that tuples of condition, replicate, and count file should be unique; are the cases where this should not be enforced?"%string],
     inl (Exception
            "condition, replicate, and count file combination already assigned")).
Proof.
  intros Hdup Hread.
  pose proof (listsort_perm rawkey_ltb counts_file_list) as Hperm.
  unfold loadCounts. rewrite (@load_columns_duplicate readCountsFile files).
  - reflexivity.
  - intros tup Hin. apply Hread. eapply Permutation_in; eassumption.
  - constructor.
  - simpl. intros Hnd. apply Hdup.
    eapply Permutation_NoDup; [exact Hperm | exact Hnd].
Qed.

Lemma loadCounts_duplicate_raises_witness :
  let counts_file_list :=
    [("T0", "Rep1", "a.counts"); ("T1", "Rep1", "b.counts");
     ("T0", "Rep1", "a.counts")]%string in
  fst (loadCounts (fun _ => Some [("g1"%string, 3%Z)]) ["g1"%string]
         counts_file_list)
  = ["Asserting that tuples of condition, replicate, and count file should be unique; are the cases where this should not be enforced?"%string].
Proof.
  intros counts_file_list.
  rewrite (@loadCounts_duplicate_raises (fun _ => Some [("g1"%string, 3%Z)])
             (fun _ => [("g1"%string, 3%Z)]) ["g1"%string] counts_file_list).
  - reflexivity.
  - intros Hnd. inversion Hnd as [| a l Hnotin _]; subst.
    apply Hnotin. right. left. reflexivity.
  - reflexivity.
Defined.

(** X22.  With distinct library ids, distinct tuples and counts files that
    hold no negative count, the loaded table holds no negative count and the
    total of a column is at most the total of its file: reads of ids outside
    the library and of repeated records are lost, none is invented. *)
Theorem loadCounts_reads_bounded
    (readCountsFile : string -> option (list (guide * Z)))
    (files : string -> list (guide * Z)) (index : list guide)
    (counts_file_list : list rawkey) :
  NoDup index ->
  NoDup counts_file_list ->
  (forall tup, In tup counts_file_list ->
     readCountsFile (snd tup) = Some (files (snd tup))
     /\ Forall (fun r => (0 <= snd r)%Z) (files (snd tup))) ->
  exists countsTable,
    loadCounts readCountsFile index counts_file_list = ([], inr countsTable)
    /\ nonneg_counts countsTable
    /\ Forall (fun c => (Zsum (snd c)
                         <= Zsum (map snd (files (snd (fst c)))))%Z)
              (ct_columns countsTable).
Proof.
  intros Hidx Hnd Hread.
  pose proof (listsort_perm rawkey_ltb counts_file_list) as Hperm.
  eexists. split; [| split].
  - unfold loadCounts. rewrite (@load_columns_ok readCountsFile files).
    + reflexivity.
    + intros tup Hin. apply Hread. eapply Permutation_in; eassumption.
    + simpl. eapply Permutation_NoDup; [symmetry; exact Hperm | exact Hnd].
  - unfold nonneg_counts. simpl. apply Forall_forall. intros c Hc.
    apply in_map_iff in Hc. destruct Hc as (tup & <- & Hin). simpl.
    apply Forall_forall. intros v Hv. apply in_map_iff in Hv.
    destruct Hv as (id & <- & _).
    apply first_count_split. apply Hread.
    eapply Permutation_in; eassumption.
  - simpl. apply Forall_forall. intros c Hc.
    apply in_map_iff in Hc. destruct Hc as (tup & <- & Hin). simpl.
    apply first_counts_bounded; [exact Hidx |].
    apply Hread. eapply Permutation_in; eassumption.
Qed.

Lemma loadCounts_reads_bounded_witness :
  let files (path : string) := [("g2", 5); ("g9", 4); ("g2", 7)]%string%Z in
  exists countsTable,
    loadCounts (fun path => Some (files path)) ["g1"; "g2"]%string
      [("T0", "Rep1", "a.counts")%string]
    = ([], inr countsTable)
    /\ nonneg_counts countsTable
    /\ Forall (fun c => (Zsum (snd c) <= 16)%Z) (ct_columns countsTable).
Proof.
  intros files.
  apply (@loadCounts_reads_bounded (fun path => Some (files path)) files
           ["g1"; "g2"]%string [("T0", "Rep1", "a.counts")%string]).
  - repeat constructor; simpl; intuition discriminate.
  - repeat constructor; simpl; intuition.
  - intros tup _. split; [reflexivity |].
    repeat constructor; simpl; lia.
Defined.

(** ** C1: the phenotype score against the specification *)

Lemma sorted_Fin (s : list R) :
  StronglySorted (leq Np.lt) (map Fin s) -> StronglySorted Rle s.
Proof.
  induction s as [| a s IH]; simpl; intros H; [constructor |].
  apply StronglySorted_inv in H. destruct H as [Hs Hf].
  constructor; [apply IH; exact Hs |].
  rewrite Forall_forall in *. intros y Hy.
  specialize (Hf (Fin y) (in_map Fin _ _ Hy)).
  unfold leq in Hf. simpl in Hf. apply Rltb_false_iff in Hf. lra.
Qed.

Lemma listsort_Fin (xs : list R) :
  exists s, Py.listsort Np.lt (map Fin xs) = map Fin s
            /\ Permutation s xs /\ StronglySorted Rle s.
Proof.
  destruct (median_sorts xs) as [Hperm Hsorted].
  rewrite dropna_Fin in Hperm, Hsorted.
  destruct (Permutation_map_inv _ _ Hperm) as (s & Es & Hs).
  exists s. rewrite Es in *. repeat split.
  - symmetry. exact Hs.
  - apply sorted_Fin. exact Hsorted.
Qed.

Lemma Rsorted_unique (l l' : list R) :
  StronglySorted Rle l -> StronglySorted Rle l' -> Permutation l l' -> l = l'.
Proof.
  revert l'. induction l as [| a l IH]; intros l' Hs Hs' Hperm.
  - apply Permutation_nil in Hperm. subst. reflexivity.
  - destruct l' as [| b l'];
      [apply Permutation_sym, Permutation_nil in Hperm; discriminate |].
    apply StronglySorted_inv in Hs, Hs'.
    destruct Hs as [Hs Hf], Hs' as [Hs' Hf'].
    rewrite Forall_forall in Hf, Hf'.
    assert (a = b).
    { assert (Ha : In a (b :: l'))
        by (eapply Permutation_in; [exact Hperm | left; reflexivity]).
      assert (Hb : In b (a :: l))
        by (eapply Permutation_in;
            [symmetry; exact Hperm | left; reflexivity]).
      destruct Ha as [Ha | Ha]; [auto |].
      destruct Hb as [Hb | Hb]; [auto |].
      specialize (Hf _ Hb). specialize (Hf' _ Ha). lra. }
    subst b. f_equal. apply IH; try assumption.
    eapply Permutation_cons_inv. exact Hperm.
Qed.

Lemma nth_map_Fin (s : list R) (i : nat) :
  i < List.length s -> nth i (map Fin s) NaN = Fin (nth i s 0%R).
Proof.
  intros Hi. rewrite (nth_indep _ NaN (Fin 0)) by (rewrite length_map; exact Hi).
  apply map_nth.
Qed.

Lemma half_lt (n : nat) : 0 < n -> n / 2 < n.
Proof. intros H. apply Nat.div_lt; lia. Qed.

(** The median of finite values is the middle of their sorted arrangement. *)
Lemma median_middle (xs s : list R) :
  xs <> [] -> Permutation s xs -> StronglySorted Rle s ->
  Pd.median (map Fin xs) = Fin (middle s).
Proof.
  intros Hne Hperm Hsorted.
  destruct (listsort_Fin xs) as (s0 & Es & Hperm0 & Hsorted0).
  assert (s0 = s).
  { apply Rsorted_unique; try assumption.
    etransitivity; [exact Hperm0 | symmetry; exact Hperm]. }
  subst s0.
  unfold Pd.median, middle. rewrite dropna_Fin, Es, length_map.
  assert (Hpos : 0 < List.length s).
  { rewrite (Permutation_length Hperm).
    destruct xs; [contradiction | simpl; lia]. }
  destruct (List.length s =? 0) eqn:E0; [apply Nat.eqb_eq in E0; lia |].
  pose proof (half_lt Hpos) as Hhalf.
  destruct (Nat.odd (List.length s)).
  - apply nth_map_Fin. exact Hhalf.
  - rewrite !nth_map_Fin by lia. simpl. rewrite Reqb_false by lra.
    reflexivity.
Qed.

Lemma middle_rev (s : list R) : middle (rev s) = middle s.
Proof.
  unfold middle. rewrite length_rev.
  destruct s as [| a s']; [reflexivity |].
  set (s := a :: s'). assert (Hpos : 0 < List.length s) by (simpl; lia).
  clearbody s. pose proof (half_lt Hpos) as Hhalf.
  destruct (Nat.odd (List.length s)) eqn:Eodd.
  - rewrite rev_nth by exact Hhalf. f_equal.
    apply Nat.odd_spec in Eodd. destruct Eodd as [k Ek]. rewrite Ek.
    replace ((2 * k + 1) / 2) with k; [lia |].
    apply Nat.div_unique with (r := 1); lia.
  - assert (Heven : Nat.even (List.length s) = true)
      by (rewrite <- Nat.negb_odd, Eodd; reflexivity).
    apply Nat.even_spec in Heven. destruct Heven as [k Ek].
    assert (Ehalf : List.length s / 2 = k).
    { rewrite Ek. symmetry. apply Nat.div_unique with (r := 0); lia. }
    rewrite !rev_nth by lia. rewrite Ehalf.
    replace (List.length s - S (k - 1)) with k by lia.
    replace (List.length s - S k) with (k - 1) by lia.
    lra.
Qed.

Lemma middle_affine (s : list R) (m g : R) :
  s <> [] -> g <> 0%R ->
  middle (map (fun x => ((x - m) / g)%R) s) = ((middle s - m) / g)%R.
Proof.
  intros Hne Hg. unfold middle. rewrite length_map.
  assert (Hpos : 0 < List.length s)
    by (destruct s; [contradiction | simpl; lia]).
  pose proof (half_lt Hpos) as Hhalf.
  assert (Hnth : forall i, i < List.length s ->
            nth i (map (fun x => ((x - m) / g)%R) s) 0%R
            = ((nth i s 0 - m) / g)%R).
  { intros i Hi.
    rewrite (nth_indep _ 0%R ((0 - m) / g)%R) by (rewrite length_map; exact Hi).
    apply (map_nth (fun x => ((x - m) / g)%R)). }
  destruct (Nat.odd (List.length s)).
  - apply Hnth. exact Hhalf.
  - rewrite !Hnth by lia. field. exact Hg.
Qed.

Lemma sorted_affine_increasing (s : list R) (m g : R) :
  (0 < g)%R -> StronglySorted Rle s ->
  StronglySorted Rle (map (fun x => ((x - m) / g)%R) s).
Proof.
  intros Hg. induction 1 as [| a s Hs IH Hf]; simpl; constructor;
    [exact IH |].
  rewrite Forall_forall in *. intros y Hy. apply in_map_iff in Hy.
  destruct Hy as (x & <- & Hx). specialize (Hf x Hx).
  unfold Rdiv. apply Rmult_le_compat_r; [| lra].
  left. apply Rinv_0_lt_compat. exact Hg.
Qed.

Lemma sorted_affine_decreasing (s : list R) (m g : R) :
  (g < 0)%R -> StronglySorted Rle s ->
  StronglySorted (fun x y => Rle y x) (map (fun x => ((x - m) / g)%R) s).
Proof.
  intros Hg. induction 1 as [| a s Hs IH Hf]; simpl; constructor;
    [exact IH |].
  rewrite Forall_forall in *. intros y Hy. apply in_map_iff in Hy.
  destruct Hy as (x & <- & Hx). specialize (Hf x Hx).
  unfold Rdiv. rewrite !(Rmult_comm _ (/ g)).
  apply Rmult_le_compat_neg_l; [| lra].
  left. apply Rinv_lt_0_compat. exact Hg.
Qed.

(** Taking the median off and dividing by [g] leaves the median 0. *)
Lemma is_median_centred (xs : list R) (w g : R) :
  xs <> [] -> g <> 0%R -> is_median xs w ->
  is_median (map (fun x => ((x - w) / g)%R) xs) 0.
Proof.
  intros Hne Hg (s & Hperm & Hsorted & Ew). subst w.
  assert (Hs : s <> []).
  { intros ->. apply Permutation_nil in Hperm. contradiction. }
  assert (Hzero : ((middle s - middle s) / g = 0)%R)
    by (unfold Rdiv; ring).
  destruct (Rdichotomy _ _ Hg) as [Hneg | Hpos].
  - exists (rev (map (fun x => ((x - middle s) / g)%R) s)). repeat split.
    + rewrite <- Permutation_rev. apply Permutation_map. exact Hperm.
    + apply StronglySorted_rev
        with (R := fun x y => Rle y x)
             (l := map (fun x => ((x - middle s) / g)%R) s).
      apply sorted_affine_decreasing; assumption.
    + rewrite middle_rev, middle_affine by assumption.
      symmetry. exact Hzero.
  - exists (map (fun x => ((x - middle s) / g)%R) s). repeat split.
    + apply Permutation_map. exact Hperm.
    + apply sorted_affine_increasing; assumption.
    + rewrite middle_affine by assumption. symmetry. exact Hzero.
Qed.

(** The median of an odd number of values is one of them. *)
Lemma odd_median_In (xs : list R) (m : R) :
  is_median xs m -> Nat.odd (List.length xs) = true -> In m xs.
Proof.
  intros (s & Hperm & _ & ->) Hodd.
  rewrite <- (Permutation_length Hperm) in Hodd.
  unfold middle. rewrite Hodd.
  eapply Permutation_in; [exact Hperm |].
  apply nth_In. apply half_lt.
  destruct s; [discriminate | simpl; lia].
Qed.

(** The median the code takes of finite values is their median. *)
Lemma median_is_median (xs : list R) :
  xs <> [] -> exists m, Pd.median (map Fin xs) = Fin m /\ is_median xs m.
Proof.
  intros Hne. destruct (listsort_Fin xs) as (s & _ & Hperm & Hsorted).
  exists (middle s). split.
  - apply median_middle; assumption.
  - exists s. auto.
Qed.

Lemma is_negative_control_spec (libraryTable : LibraryTable) (id : guide) :
  is_negative_control libraryTable id = true
  <-> negative_control_guide libraryTable id.
Proof.
  unfold is_negative_control, negative_control_guide.
  rewrite existsb_exists. split.
  - intros (r & Hr & E). apply andb_true_iff in E. destruct E as [E1 E2].
    apply String.eqb_eq in E1, E2. exists r. auto.
  - intros (r & Hr & E1 & E2). exists r. split; [exact Hr |].
    apply andb_true_iff. split; apply String.eqb_eq; assumption.
Qed.

Lemma scores_of_guides (keep : guide -> bool)
    (F : guide * (float64 * float64) -> float64) (t : Frame2) :
  map snd (filter (fun s : guide * float64 => keep (fst s))
                  (map (fun r => (fst r, F r)) t))
  = map F (filter (fun r => keep (fst r)) t).
Proof.
  induction t as [| r t IH]; simpl; [reflexivity |].
  destruct (keep (fst r)); simpl; rewrite IH; reflexivity.
Qed.

Lemma pseudocounted_index (behavior : string) (p : float64)
    (counts1 counts2 : Series) (pseudo : Frame2) :
  map fst counts1 = map fst counts2 ->
  pseudocount behavior p (Pd.concat_axis1 counts1 counts2) = Ok pseudo ->
  map fst pseudo = map fst counts1.
Proof.
  intros Hidx Hps.
  destruct (pseudocount_keeps_masked _ _ _ Hps) as [E _]. rewrite E.
  rewrite (concat_axis1_same_index _ _ Hidx), map_map. simpl.
  clear - Hidx. revert counts2 Hidx.
  induction counts1 as [| [g1 x] c1 IH]; intros [| [g2 y] c2] H;
    simpl in *; try reflexivity; try discriminate.
  inversion H. f_equal. apply IH. assumption.
Qed.

(** The scores once the counts are pseudocounted, against the words of the
    specification. *)
Lemma scoresOfPseudo_formula (t : Frame2) (libraryTable : LibraryTable)
    (g : R) (isneg : guide -> bool) :
  positive_counts t ->
  g <> 0%R ->
  (forall id, isneg id = true <-> negative_control_guide libraryTable id) ->
  (exists r, In r t /\ isneg (fst r) = true) ->
  exists wtLog2E : R,
    is_median (map (fun r => spec_log2e t (snd r))
                   (filter (fun r => isneg (fst r)) t))
              wtLog2E
    /\ scoresOfPseudo t libraryTable (Fin g) true
       = map (fun r => (fst r, Fin ((spec_log2e t (snd r) - wtLog2E) / g))) t.
Proof.
  intros Hpos Hg Hneg (r0 & Hr0 & Hn0).
  assert (Hfilter : filter (fun r : guide * (float64 * float64) =>
                              is_negative_control libraryTable (fst r)) t
                    = filter (fun r => isneg (fst r)) t).
  { apply filter_ext. intros r.
    destruct (is_negative_control libraryTable (fst r)) eqn:E1,
             (isneg (fst r)) eqn:E2; try reflexivity.
    - apply is_negative_control_spec, Hneg in E1. congruence.
    - apply Hneg, is_negative_control_spec in E2. congruence. }
  assert (Hne : map (fun r => spec_log2e t (snd r))
                    (filter (fun r => isneg (fst r)) t) <> []).
  { intros E. apply map_eq_nil in E.
    assert (Hin : In r0 (filter (fun r => isneg (fst r)) t))
      by (apply filter_In; split; assumption).
    rewrite E in Hin. contradiction. }
  destruct (median_is_median Hne) as (w & Hw & Hmed).
  exists w. split; [exact Hmed |].
  rewrite scoresOfPseudo_spec by exact Hpos.
  unfold spec_scores, spec_wtLog2E. rewrite Hfilter.
  rewrite map_map in Hw. rewrite Hw.
  apply map_ext. intros r. simpl. rewrite Reqb_false by exact Hg.
  reflexivity.
Qed.

(** C1.  For pseudocounted counts over one index that are all positive, a
    growth value [g] other than 0 and at least one guide whose gene is
    'negative_control', [computePhenotypeScore] returns, guide by guide over
    that index, (log2(countsRatio * count2 / count1) - wtLog2E) / g, where
    countsRatio is the sum of the pseudocounted counts1 over the sum of the
    pseudocounted counts2 and wtLog2E is the median, over the guides whose
    gene is 'negative_control', of log2(countsRatio * count2 / count1).  The
    sums, the logarithm and the median are the ones of the real numbers, as
    the specification writes them. *)
Theorem computePhenotypeScore_formula
    (counts1 counts2 : Series) (libraryTable : LibraryTable) (g : R)
    (pseudocountBehavior : string) (pseudocountValue : float64)
    (pseudo : Frame2) (isneg : guide -> bool) :
  map fst counts1 = map fst counts2 ->
  pseudocount pseudocountBehavior pseudocountValue
    (Pd.concat_axis1 counts1 counts2) = Ok pseudo ->
  positive_counts pseudo ->
  g <> 0%R ->
  (forall id, isneg id = true <-> negative_control_guide libraryTable id) ->
  (exists r, In r pseudo /\ isneg (fst r) = true) ->
  exists wtLog2E : R,
    is_median (map (fun r => spec_log2e pseudo (snd r))
                   (filter (fun r => isneg (fst r)) pseudo))
              wtLog2E
    /\ map fst pseudo = map fst counts1
    /\ computePhenotypeScore counts1 counts2 libraryTable (Fin g)
         pseudocountBehavior pseudocountValue true
       = Ok (map (fun r =>
                    (fst r,
                     Fin ((spec_log2e pseudo (snd r) - wtLog2E) / g)))
                 pseudo).
Proof.
  intros Hidx Hps Hpos Hg Hneg Hex.
  destruct (@scoresOfPseudo_formula pseudo libraryTable g isneg Hpos Hg Hneg Hex)
    as (w & Hmed & Hscores).
  exists w. split; [exact Hmed |]. split.
  - apply (@pseudocounted_index _ _ _ _ _ Hidx Hps).
  - unfold computePhenotypeScore. rewrite Hps. simpl. rewrite Hscores.
    reflexivity.
Qed.

Lemma computePhenotypeScore_formula_witness :
  let counts1 :=
    [("g1"%string, Fin 2); ("g2"%string, Fin 4); ("g3"%string, Fin 8)] in
  let counts2 :=
    [("g1"%string, Fin 4); ("g2"%string, Fin 2); ("g3"%string, Fin 8)] in
  let libraryTable :=
    [mkLibraryRow "g1"%string (Some "top5"%string) "negative_control" "na"
       "ACGT";
     mkLibraryRow "g2"%string (Some "top5"%string) "geneA" "P1" "TTGA";
     mkLibraryRow "g3"%string (Some "top5"%string) "negative_control" "na"
       "GGCA"] in
  let pseudo :=
    [("g1"%string, (Fin 2, Fin 4)); ("g2"%string, (Fin 4, Fin 2));
     ("g3"%string, (Fin 8, Fin 8))] in
  let isneg := fun id => ((id =? "g1") || (id =? "g3"))%string in
  exists wtLog2E : R,
    is_median [spec_log2e pseudo (Fin 2, Fin 4); spec_log2e pseudo (Fin 8, Fin 8)]
              wtLog2E
    /\ map fst pseudo = map fst counts1
    /\ computePhenotypeScore counts1 counts2 libraryTable (Fin 1) "zeros only"
         (Fin 1) true
       = Ok (map (fun r =>
                    (fst r,
                     Fin ((spec_log2e pseudo (snd r) - wtLog2E) / 1)))
                 pseudo).
Proof.
  intros counts1 counts2 libraryTable pseudo isneg.
  apply (@computePhenotypeScore_formula counts1 counts2 libraryTable 1
           "zeros only" (Fin 1) pseudo isneg).
  - reflexivity.
  - unfold pseudocount, apply_rows; simpl. rewrite !row_min_fin.
    unfold Np.ne, Np.eq, Rmin.
    destruct (Rle_dec 2 4); [| lra]. destruct (Rle_dec 4 2); [lra |].
    destruct (Rle_dec 8 8); [| lra].
    rewrite !Reqb_false by lra. reflexivity.
  - repeat constructor.
    + exists 2%R, 4%R. repeat split; lra.
    + exists 4%R, 2%R. repeat split; lra.
    + exists 8%R, 8%R. repeat split; lra.
  - lra.
  - intros id. unfold isneg, negative_control_guide. split.
    + intros E. apply orb_true_iff in E.
      destruct E as [E | E]; apply String.eqb_eq in E; subst id.
      * eexists. split; [left; reflexivity |]. split; reflexivity.
      * eexists. split; [right; right; left; reflexivity |].
        split; reflexivity.
    + intros (r & [<- | [<- | [<- | []]]] & <- & Hg); simpl in *;
        try reflexivity; discriminate.
  - eexists. split; [left; reflexivity | reflexivity].
Defined.

(** X23.  With an odd number of negative-control guides, on pseudocounted
    counts over one index that are all positive and for a growth value other
    than 0, the median of the scores of the negative-control guides is 0, and
    it is the score of one of them: the guide in the middle, whose own log
    ratio is the baseline.  (With an even number the baseline is the mean of
    two log ratios and the median of the scores is 0 up to rounding only.) *)
Theorem negative_controls_centred
    (counts1 counts2 : Series) (libraryTable : LibraryTable) (g : R)
    (pseudocountBehavior : string) (pseudocountValue : float64)
    (pseudo : Frame2) (isneg : guide -> bool) :
  map fst counts1 = map fst counts2 ->
  pseudocount pseudocountBehavior pseudocountValue
    (Pd.concat_axis1 counts1 counts2) = Ok pseudo ->
  positive_counts pseudo ->
  g <> 0%R ->
  (forall id, isneg id = true <-> negative_control_guide libraryTable id) ->
  Nat.odd (List.length (filter (fun r => isneg (fst r)) pseudo)) = true ->
  exists (scores : Series) (xs : list R),
    computePhenotypeScore counts1 counts2 libraryTable (Fin g)
      pseudocountBehavior pseudocountValue true = Ok scores
    /\ map fst scores = map fst counts1
    /\ map snd (filter (fun s => isneg (fst s)) scores) = map Fin xs
    /\ is_median xs 0
    /\ In 0%R xs.
Proof.
  intros Hidx Hps Hpos Hg Hneg Hodd.
  set (negs := filter (fun r => isneg (fst r)) pseudo) in *.
  assert (Hex : exists r, In r pseudo /\ isneg (fst r) = true).
  { destruct negs as [| r negs'] eqn:E; [discriminate |].
    assert (Hin : In r (filter (fun r => isneg (fst r)) pseudo))
      by (fold negs; rewrite E; left; reflexivity).
    apply filter_In in Hin. exists r. exact Hin. }
  destruct (@scoresOfPseudo_formula pseudo libraryTable g isneg Hpos Hg Hneg Hex)
    as (w & Hmed & Hscores).
  fold negs in Hmed.
  exists (map (fun r => (fst r, Fin ((spec_log2e pseudo (snd r) - w) / g)))
              pseudo),
         (map (fun x => ((x - w) / g)%R)
              (map (fun r => spec_log2e pseudo (snd r)) negs)).
  assert (Hne : map (fun r => spec_log2e pseudo (snd r)) negs <> []).
  { intros E. apply map_eq_nil in E. rewrite E in Hodd. discriminate. }
  split; [| split; [| split; [| split]]].
  - unfold computePhenotypeScore. rewrite Hps. simpl. rewrite Hscores.
    reflexivity.
  - rewrite map_map. simpl. apply (@pseudocounted_index _ _ _ _ _ Hidx Hps).
  - rewrite (scores_of_guides isneg
               (fun r => Fin ((spec_log2e pseudo (snd r) - w) / g))).
    fold negs. rewrite !map_map. reflexivity.
  - apply is_median_centred; assumption.
  - apply in_map_iff. exists w. split; [unfold Rdiv; ring |].
    apply (@odd_median_In _ _ Hmed).
    rewrite length_map. exact Hodd.
Qed.

Lemma negative_controls_centred_witness :
  let counts1 :=
    [("g1"%string, Fin 2); ("g2"%string, Fin 4); ("g3"%string, Fin 1)] in
  let counts2 :=
    [("g1"%string, Fin 4); ("g2"%string, Fin 2); ("g3"%string, Fin 1)] in
  let libraryTable :=
    [mkLibraryRow "g1"%string (Some "top5"%string) "negative_control" "na"
       "ACGT";
     mkLibraryRow "g2"%string (Some "top5"%string) "geneA" "P1" "TTGA";
     mkLibraryRow "g3"%string (Some "top5"%string) "geneB" "P1" "GGCA"] in
  let isneg := fun id => (id =? "g1")%string in
  exists (scores : Series) (xs : list R),
    computePhenotypeScore counts1 counts2 libraryTable (Fin (-2)) "all values"
      (Fin 1) true = Ok scores
    /\ map fst scores = map fst counts1
    /\ map snd (filter (fun s => isneg (fst s)) scores) = map Fin xs
    /\ is_median xs 0
    /\ In 0%R xs.
Proof.
  intros counts1 counts2 libraryTable isneg.
  apply (@negative_controls_centred counts1 counts2 libraryTable (-2)
           "all values" (Fin 1)
           [("g1"%string, (Fin (2 + 1), Fin (4 + 1)));
            ("g2"%string, (Fin (4 + 1), Fin (2 + 1)));
            ("g3"%string, (Fin (1 + 1), Fin (1 + 1)))] isneg).
  - reflexivity.
  - reflexivity.
  - repeat constructor.
    + exists (2 + 1)%R, (4 + 1)%R. repeat split; lra.
    + exists (4 + 1)%R, (2 + 1)%R. repeat split; lra.
    + exists (1 + 1)%R, (1 + 1)%R. repeat split; lra.
  - lra.
  - intros id. unfold isneg, negative_control_guide. split.
    + intros E. apply String.eqb_eq in E. subst id.
      eexists. split; [left; reflexivity |]. split; reflexivity.
    + intros (r & [<- | [<- | [<- | []]]] & <- & Hg); simpl in *;
        try reflexivity; discriminate.
  - reflexivity.
Defined.

(** ** The fasta reader *)

Lemma rstrip_line (s : string) :
  no_space s = true -> rstrip (s ++ String (ascii_of_nat 10) "") = s.
Proof.
  induction s as [| c s IH]; simpl; intros H; [reflexivity |].
  apply andb_true_iff in H. destruct H as [Hc Hs].
  rewrite (IH Hs). apply negb_true_iff in Hc. rewrite Hc. reflexivity.
Qed.

Lemma strip_line (s : string) :
  no_space s = true -> strip (s ++ String (ascii_of_nat 10) "") = s.
Proof.
  intros H. unfold strip. destruct s as [| c s]; [reflexivity |].
  pose proof H as H'. simpl in H'. apply andb_true_iff in H'.
  destruct H' as [Hc _]. apply negb_true_iff in Hc.
  simpl lstrip. rewrite Hc. apply (rstrip_line (String c s) H).
Qed.

Lemma read_elements_fasta (elements : list (string * string))
    (rest : list string) :
  read_elements (fasta_lines elements ++ rest)
  = rbind (read_elements rest)
      (fun l =>
         Ok (map (fun e => (strip (fst e ++ String (ascii_of_nat 10) ""),
                            strip (snd e ++ String (ascii_of_nat 10) "")))
                 elements ++ l)).
Proof.
  induction elements as [| e es IH].
  - simpl. destruct (read_elements rest); reflexivity.
  - change (fasta_lines (e :: es) ++ rest)
      with (String ">" (fst e ++ String (ascii_of_nat 10) "")
            :: (snd e ++ String (ascii_of_nat 10) "")%string
            :: (fasta_lines es ++ rest)).
    cbn [read_elements]. rewrite IH.
    change (Ascii.eqb ">" ">") with true. cbn [negb].
    destruct (read_elements rest); reflexivity.
Qed.

Lemma split_map {A B} (l : list (A * B)) :
  List.split l = (map fst l, map snd l).
Proof.
  induction l as [| [a b] l IH]; simpl; [reflexivity |].
  rewrite IH. reflexivity.
Qed.

Lemma stripped_elements (elements : list (string * string)) :
  Forall (fun e => no_space (fst e) = true /\ no_space (snd e) = true)
         elements ->
  map (fun e => (strip (fst e ++ String (ascii_of_nat 10) ""),
                 strip (snd e ++ String (ascii_of_nat 10) "")))
      elements
  = elements.
Proof.
  induction 1 as [| [i s] es [Hi Hs] _ IH]; simpl; [reflexivity |].
  simpl in Hi, Hs. rewrite (strip_line _ Hi), (strip_line _ Hs), IH.
  reflexivity.
Qed.

(** X24.  Reading back a fasta file: for one element at least, with ids
    and sequences free of white space, the reader run on the lines '>id' and
    'sequence' of the elements returns their ids and their sequences, in the
    order of the file. *)
Theorem readLibraryFile_round_trip (elements : list (string * string)) :
  elements <> [] ->
  Forall (fun e => no_space (fst e) = true /\ no_space (snd e) = true)
         elements ->
  readLibraryFile (fasta_lines elements)
  = Ok (map fst elements, map snd elements).
Proof.
  intros Hne Hclean. unfold readLibraryFile.
  rewrite <- (app_nil_r (fasta_lines elements)), read_elements_fasta.
  simpl. rewrite app_nil_r, (stripped_elements Hclean).
  destruct elements; [contradiction |]. rewrite split_map. reflexivity.
Qed.

Lemma readLibraryFile_round_trip_witness :
  readLibraryFile
    [String ">" ("g1" ++ String (ascii_of_nat 10) "");
     ("ACGT" ++ String (ascii_of_nat 10) "")%string;
     String ">" ("g2" ++ String (ascii_of_nat 10) "");
     ("TTGA" ++ String (ascii_of_nat 10) "")%string]
  = Ok (["g1"; "g2"]%string, ["ACGT"; "TTGA"]%string).
Proof.
  apply (@readLibraryFile_round_trip [("g1", "ACGT"); ("g2", "TTGA")]%string).
  - discriminate.
  - repeat constructor.
Defined.

(** X25.  The reader raises ValueError on a file without lines, and on a
    file in which, after any number of well-formed elements, the line where
    an id is expected does not start with '>'. *)
Theorem readLibraryFile_malformed (elements : list (string * string))
    (c : ascii) (line : string) (rest : list string) :
  c <> ">"%char ->
  readLibraryFile (fasta_lines elements ++ String c line :: rest)
  = Raise (ValueError "Error parsing fasta file")
  /\ exists msg, readLibraryFile [] = Raise (ValueError msg).
Proof.
  intros Hc. split.
  - unfold readLibraryFile. rewrite read_elements_fasta.
    assert (E : read_elements (String c line :: rest)
                = Raise (ValueError "Error parsing fasta file")).
    { cbn [read_elements].
      apply Ascii.eqb_neq in Hc. rewrite Hc. cbn [negb].
      destruct rest; reflexivity. }
    rewrite E. reflexivity.
  - eexists. reflexivity.
Qed.

Lemma readLibraryFile_malformed_witness :
  readLibraryFile
    [String ">" ("g1" ++ String (ascii_of_nat 10) "");
     ("ACGT" ++ String (ascii_of_nat 10) "")%string;
     ("TTGA" ++ String (ascii_of_nat 10) "")%string]
  = Raise (ValueError "Error parsing fasta file").
Proof.
  apply (proj1 (@readLibraryFile_malformed [("g1", "ACGT")]%string "T"%char
                  ("TGA" ++ String (ascii_of_nat 10) "")%string []
                  ltac:(discriminate))).
Defined.

(** X26.  A file that ends on an id line is not refused: the test of the
    sequence line never fires, and the last element is returned with the
    empty sequence. *)
Theorem readLibraryFile_truncated (elements : list (string * string))
    (id : string) :
  Forall (fun e => no_space (fst e) = true /\ no_space (snd e) = true)
         elements ->
  no_space id = true ->
  readLibraryFile
    (fasta_lines elements ++ [String ">" (id ++ String (ascii_of_nat 10) "")])
  = Ok (map fst elements ++ [id], map snd elements ++ [""%string]).
Proof.
  intros Hclean Hid. unfold readLibraryFile.
  rewrite read_elements_fasta. cbn [read_elements].
  change (Ascii.eqb ">" ">") with true. cbn [negb rbind].
  rewrite (stripped_elements Hclean), (strip_line _ Hid).
  change (strip "") with ""%string.
  destruct (elements ++ [(id, ""%string)]) eqn:E.
  - destruct elements; discriminate.
  - rewrite <- E, split_map, !map_app. reflexivity.
Qed.

Lemma readLibraryFile_truncated_witness :
  readLibraryFile
    [String ">" ("g1" ++ String (ascii_of_nat 10) "");
     ("ACGT" ++ String (ascii_of_nat 10) "")%string;
     String ">" ("g2" ++ String (ascii_of_nat 10) "")]
  = Ok (["g1"; "g2"]%string, ["ACGT"; ""]%string).
Proof.
  apply (@readLibraryFile_truncated [("g1", "ACGT")]%string "g2"%string).
  - repeat constructor.
  - reflexivity.
Defined.

(** ** The automatic mode of the pseudogene stage *)

Lemma forM_counted {A B} (f : A -> M B) (size : A -> nat)
    (P : A -> B -> Prop) (l : list A) :
  (forall x w, In x l ->
     exists y, f x w = (Ok y, advance (size x) w) /\ P x y) ->
  forall w, exists ys,
    forM l f w = (Ok ys, advance (list_sum (map size l)) w)
    /\ Forall2 P l ys.
Proof.
  induction l as [| x l IH]; intros Hf w.
  - exists []. simpl. unfold ret. rewrite advance_0. split; constructor.
  - destruct (Hf x w (or_introl eq_refl)) as (y & Ey & Hy).
    destruct (IH (fun x' w' H => Hf x' w' (or_intror H)) (advance (size x) w))
      as (ys & Eys & Hys).
    exists (y :: ys). split.
    + simpl. unfold bind at 1. rewrite Ey.
      unfold bind at 1. rewrite Eys. unfold ret.
      rewrite advance_advance. reflexivity.
    + constructor; assumption.
Qed.

Lemma auto_transcript_ok (negValues : list (list float64))
    (pseudogene transcript : nat) (transcriptGroup : LibraryTable) (w : World) :
  negValues <> [] ->
  exists tb,
    auto_transcript negValues pseudogene transcript transcriptGroup w
    = (Ok tb, advance (List.length transcriptGroup) w)
    /\ List.length (snd tb) = List.length transcriptGroup
    /\ pseudo_tables_ok negValues tb.
Proof.
  intros Hne.
  assert (Hlen : 0 < List.length negValues)
    by (destruct negValues; [contradiction | simpl; lia]).
  unfold auto_transcript, bind.
  rewrite (randint_ok w Hlen (Nat2Z.is_nonneg (List.length transcriptGroup))).
  rewrite Nat2Z.id. unfold ret.
  eexists. split; [reflexivity |].
  set (n := List.length transcriptGroup).
  set (ids := map (fun i => ("pseudo_" ++ nat_d pseudogene ++ "_"
                             ++ nat_d transcript ++ "_" ++ nat_d i)%string)
                  (seq 0 n)).
  set (seqs := map (fun i => ("seq_" ++ nat_d pseudogene ++ "_"
                              ++ nat_d transcript ++ "_" ++ nat_d i)%string)
                   (seq 0 n)).
  assert (Hids : List.length ids = n)
    by (unfold ids; rewrite length_map, length_seq; reflexivity).
  assert (Hseqs : List.length seqs = n)
    by (unfold seqs; rewrite length_map, length_seq; reflexivity).
  cbn [fst snd]. split; [| split; [| split]].
  - rewrite length_map, length_combine. fold ids seqs.
    change (Nat.min (List.length ids) (List.length seqs) = n).
    rewrite Hids, Hseqs. apply Nat.min_id.
  - cbn [fst snd]. fold ids seqs.
    rewrite map_fst_combine_eq
      by (unfold take_rows; rewrite !length_map, length_seq; exact Hids).
    rewrite map_map. cbn [lib_id].
    symmetry. apply map_fst_combine_eq.
    transitivity n; [exact Hids | symmetry; exact Hseqs].
  - cbn [fst]. apply Forall_forall. intros r Hr.
    assert (Hin : In (snd r) (map snd (combine ids
                     (take_rows negValues
                        (map (fun i => draws w (drawn w + i)
                                       mod List.length negValues)
                             (seq 0 n))))))
      by (apply in_map; exact Hr).
    rewrite map_snd_combine_eq in Hin
      by (unfold take_rows; rewrite !length_map, length_seq; exact Hids).
    assert (Hall : Forall (fun row => In row negValues)
                     (take_rows negValues
                        (map (fun i => draws w (drawn w + i)
                                       mod List.length negValues)
                             (seq 0 n)))).
    { apply take_rows_in. apply Forall_map. apply Forall_forall.
      intros i _. apply Nat.mod_upper_bound. lia. }
    rewrite Forall_forall in Hall. apply Hall. exact Hin.
  - cbn [snd]. apply Forall_map. apply Forall_forall. intros p _.
    cbn [gene transcripts sublibrary]. repeat split.
    + simpl. destruct (nat_d pseudogene); reflexivity.
    + simpl. destruct (nat_d transcript); reflexivity.
Qed.

(** Grouping partitions the rows. *)
Lemma count_key (p : string -> bool) (x : string) (keys : list string) :
  NoDup keys -> In x keys ->
  list_sum (map (fun k => if p k && (x =? k)%string then 1 else 0) keys)
  = if p x then 1 else 0.
Proof.
  induction 1 as [| k keys Hnotin Hnd IH]; intros Hin; [contradiction |].
  simpl. destruct Hin as [-> | Hin].
  - rewrite String.eqb_refl, andb_true_r.
    assert (E : list_sum (map (fun k => if p k && (x =? k)%string then 1 else 0)
                              keys) = 0).
    { clear IH Hnd. induction keys as [| k keys IHk]; [reflexivity |].
      simpl. destruct (x =? k)%string eqn:E.
      - apply String.eqb_eq in E. subst k. exfalso. apply Hnotin. left.
        reflexivity.
      - rewrite andb_false_r. apply IHk. intros H. apply Hnotin. right.
        exact H. }
    rewrite E. lia.
  - destruct (x =? k)%string eqn:E.
    + apply String.eqb_eq in E. subst k. contradiction.
    + rewrite andb_false_r, (IH Hin). reflexivity.
Qed.

Lemma list_sum_add {A} (f g : A -> nat) (l : list A) :
  list_sum (map (fun x => f x + g x) l)
  = list_sum (map f l) + list_sum (map g l).
Proof. induction l as [| x l IH]; simpl; [reflexivity | lia]. Qed.

Lemma groups_partition (column : LibraryRow -> string) (p : string -> bool)
    (keys : list string) (t : LibraryTable) :
  NoDup keys ->
  (forall r, In r t -> In (column r) keys) ->
  list_sum (map (fun k => if p k
                          then List.length
                                 (filter (fun r => (column r =? k)%string) t)
                          else 0)
                keys)
  = List.length (filter (fun r => p (column r)) t).
Proof.
  intros Hnd. induction t as [| r t IH]; intros Hin.
  - simpl. clear Hnd Hin. induction keys as [| k keys IHk]; [reflexivity |].
    simpl. rewrite IHk. destruct (p k); reflexivity.
  - rewrite (map_ext _
               (fun k => (if p k && (column r =? k)%string then 1 else 0)
                         + (if p k
                            then List.length
                                   (filter (fun r => (column r =? k)%string) t)
                            else 0))).
    + rewrite list_sum_add, count_key, IH.
      * simpl. destruct (p (column r)); reflexivity.
      * intros r' Hr'. apply Hin. right. exact Hr'.
      * exact Hnd.
      * apply Hin. left. reflexivity.
    + intros k. simpl. destruct (p k); [| reflexivity].
      destruct (column r =? k)%string; reflexivity.
Qed.

Lemma groupby_keys (column : LibraryRow -> string) (t : LibraryTable) :
  let keys := Py.listsort String.ltb (list_set (map column t)) in
  NoDup keys /\ forall r, In r t -> In (column r) keys.
Proof.
  intros keys.
  pose proof (listsort_perm String.ltb (list_set (map column t))) as Hperm.
  split.
  - eapply Permutation_NoDup; [symmetry; exact Hperm |].
    apply dedup_NoDup. exact String.eqb_eq.
  - intros r Hr. eapply Permutation_in; [symmetry; exact Hperm |].
    apply dedup_In; [exact String.eqb_eq |]. apply in_map. exact Hr.
Qed.

Lemma groupby_sizes (column : LibraryRow -> string) (p : string -> bool)
    (t : LibraryTable) :
  list_sum (map (fun g : nat * (string * LibraryTable) =>
                   if p (fst (snd g)) then List.length (snd (snd g)) else 0)
                (enumerate (groupby column t)))
  = List.length (filter (fun r => p (column r)) t).
Proof.
  destruct (groupby_keys column t) as [Hnd Hin].
  rewrite <- (groups_partition column p t Hnd Hin).
  unfold enumerate.
  rewrite <- (map_map snd
                (fun g : string * LibraryTable =>
                   if p (fst g) then List.length (snd g) else 0)).
  rewrite map_snd_combine_eq by apply length_seq.
  unfold groupby. rewrite map_map. reflexivity.
Qed.

Lemma group_tables_ok (negValues : list (list float64))
    (tables : list (list (guide * list float64) * LibraryTable)) :
  Forall (pseudo_tables_ok negValues) tables ->
  pseudo_tables_ok negValues
    (List.concat (map fst tables), List.concat (map snd tables)).
Proof.
  induction 1 as [| tb tables (H1 & H2 & H3) _ (IH1 & IH2 & IH3)];
    unfold pseudo_tables_ok in *; simpl in *.
  - repeat split; constructor.
  - rewrite !map_app, H1, IH1. repeat split.
    + apply Forall_app. split; assumption.
    + apply Forall_app. split; assumption.
Qed.

Lemma concat_lengths {A} (sizes : list nat) (ls : list (list A)) :
  Forall2 (fun n l => List.length l = n) sizes ls ->
  List.length (List.concat ls) = list_sum sizes.
Proof.
  induction 1 as [| n l sizes ls H _ IH]; simpl; [reflexivity |].
  rewrite length_app, H, IH. reflexivity.
Qed.

Lemma first_of_duplicates (r : LibraryRow) (l : LibraryTable)
    (seen : list colkey) :
  In r l ->
  In (gene r, sequence r) seen
  \/ exists r', In r' (drop_duplicates seen l) /\ gene r' = gene r.
Proof.
  revert seen. induction l as [| x l IH]; intros seen Hin; [contradiction |].
  simpl. destruct (existsb (colkey_eqb (gene x, sequence x)) seen) eqn:E.
  - destruct Hin as [-> | Hin]; [| apply IH; exact Hin].
    left. apply existsb_exists in E. destruct E as (k & Hk & Ek).
    apply colkey_eqb_eq in Ek. rewrite Ek. exact Hk.
  - destruct Hin as [-> | Hin].
    + right. exists r. split; [left; reflexivity | reflexivity].
    + destruct (IH ((gene x, sequence x) :: seen) Hin) as [[Hk | Hk] | Hk].
      * right. exists x. injection Hk as Hg Hs.
        split; [left; reflexivity | exact Hg].
      * left. exact Hk.
      * right. destruct Hk as (r' & Hr' & Eg). exists r'.
        split; [right; exact Hr' | exact Eg].
Qed.

(** X27.  In the automatic mode, with at least one negative-control row
    and a library that holds a gene other than 'negative_control', the stage
    succeeds: it prints one line and draws one random number for every row
    of the deduplicated library whose gene is not 'negative_control'; it
    keeps the rows of the phenotype table and of the library and appends as
    many rows to each, under the same ids.  The scores of every appended row
    are the scores of a row of the negative table, and every appended library
    row has a gene named 'pseudo_...' and a transcript named
    'pseudo_transcript_...'. *)
Theorem pseudogeneStage_auto (exptParameters : ExptParameters)
    (phenotypeTable negTable : Frame) (libraryTable : LibraryTable) (w : World) :
  Py.lower (generate_pseudogene_dist exptParameters) = "auto"%string ->
  analyses exptParameters <> [] ->
  rows negTable <> [] ->
  (exists r, In r libraryTable /\ gene r <> "negative_control"%string) ->
  let n := List.length (auto_guides libraryTable) in
  exists (pseudoRows : list (guide * list float64)) (pseudoLib : LibraryTable),
    pseudogeneStage exptParameters phenotypeTable negTable libraryTable w
    = (Ok (mkFrame (columns phenotypeTable) (rows phenotypeTable ++ pseudoRows),
           libraryTable ++ pseudoLib),
       mkWorld
         (stdout w
          ++ ["Generating a pseudogene distribution from negative controls"%string])
         (draws w) (drawn w + n))
    /\ 0 < n
    /\ List.length pseudoRows = n
    /\ List.length pseudoLib = n
    /\ pseudo_tables_ok (map snd (rows negTable)) (pseudoRows, pseudoLib).
Proof.
  intros Hmode Han Hneg (r0 & Hr0 & Hgene0) n.
  assert (Hoff : (generate_pseudogene_dist exptParameters =? "off")%string = false).
  { apply String.eqb_neq. intros E. rewrite E in Hmode. discriminate. }
  assert (Hnegv : map snd (rows negTable) <> []).
  { destruct (rows negTable); [contradiction | discriminate]. }
  set (negValues := map snd (rows negTable)) in *.
  set (D := drop_duplicates [] libraryTable).
  set (w0 := mkWorld
               (stdout w
                ++ ["Generating a pseudogene distribution from negative controls"%string])
               (draws w) (drawn w)).
  set (size := fun g : nat * (string * LibraryTable) =>
                 if negb (fst (snd g) =? "negative_control")%string
                 then List.length (snd (snd g)) else 0).
  set (P := fun (g : nat * (string * LibraryTable))
                (ys : list (list (guide * list float64) * LibraryTable)) =>
              List.length (List.concat (map snd ys)) = size g
              /\ Forall (pseudo_tables_ok negValues) ys).
  destruct (@forM_counted _ _
              (fun g : nat * (string * LibraryTable) =>
                 if (fst (snd g) =? "negative_control")%string then ret []
                 else
                   forM (enumerate (groupby transcripts (snd (snd g))))
                        (fun t => auto_transcript negValues (fst g) (fst t)
                                    (snd (snd t))))
              size P (enumerate (groupby gene D))) with (w := w0)
    as (per_gene & Efor & Hper).
  { intros g w' _. unfold P, size. cbv beta.
    destruct (fst (snd g) =? "negative_control")%string.
    - exists []. unfold ret. rewrite advance_0. simpl.
      repeat split. constructor.
    - simpl negb. cbv iota.
      destruct (@forM_counted _ _
                  (fun t : nat * (string * LibraryTable) =>
                     auto_transcript negValues (fst g) (fst t) (snd (snd t)))
                  (fun t => List.length (snd (snd t)))
                  (fun t tb => List.length (snd tb) = List.length (snd (snd t))
                               /\ pseudo_tables_ok negValues tb)
                  (enumerate (groupby transcripts (snd (snd g)))))
        with (w := w') as (ys & Eys & Hys).
      { intros t w'' _. apply auto_transcript_ok. exact Hnegv. }
      pose proof (groupby_sizes transcripts (fun _ => true) (snd (snd g)))
        as Hsum.
      cbv beta iota in Hsum. rewrite filter_true in Hsum.
      exists ys. rewrite Eys, Hsum. split; [reflexivity |]. split.
      + rewrite <- Hsum. apply concat_lengths.
        clear - Hys. induction Hys as [| t tb ts tbs [H _] _ IH]; simpl;
          constructor; assumption.
      + clear - Hys. induction Hys as [| t tb ts tbs [_ H] _ IH];
          constructor; assumption. }
  assert (Hsum : list_sum (map size (enumerate (groupby gene D))) = n).
  { unfold size, n, auto_guides. fold D.
    apply (groupby_sizes gene
             (fun k => negb (k =? "negative_control")%string) D). }
  rewrite Hsum in Efor.
  set (tables := List.concat per_gene).
  assert (Hgood : Forall (pseudo_tables_ok negValues) tables).
  { unfold tables. clear - Hper.
    induction Hper as [| g ys gs yss [_ H] _ IH]; simpl; [constructor |].
    apply Forall_app. split; assumption. }
  assert (Hlen : List.length (List.concat (map snd tables)) = n).
  { rewrite <- Hsum. unfold tables. clear - Hper.
    induction Hper as [| g ys gs yss [H _] _ IH]; simpl; [reflexivity |].
    rewrite map_app, concat_app, length_app, H, IH. reflexivity. }
  assert (Hn : 0 < n).
  { unfold n, auto_guides. fold D.
    destruct (@first_of_duplicates r0 libraryTable [] Hr0)
      as [[] | (r' & Hr' & Eg)].
    assert (Hin : In r' (filter
                           (fun r => negb (gene r =? "negative_control")%string)
                           D)).
    { apply filter_In. split; [exact Hr' |].
      apply negb_true_iff, String.eqb_neq. rewrite Eg. exact Hgene0. }
    destruct (filter (fun r => negb (gene r =? "negative_control")%string) D);
      [contradiction | simpl; lia]. }
  assert (Hne : tables <> []).
  { intros E. rewrite E in Hlen. simpl in Hlen. lia. }
  pose proof (group_tables_ok Hgood) as Hok.
  exists (List.concat (map fst tables)), (List.concat (map snd tables)).
  split; [| split; [exact Hn | split; [| split; [exact Hlen | exact Hok]]]].
  - unfold pseudogeneStage. rewrite Hoff.
    destruct (analyses exptParameters) as [| a l]; [contradiction |].
    cbn [List.length Nat.ltb Nat.leb negb andb].
    rewrite Hmode. simpl ("auto" =? "manual")%string.
    simpl ("auto" =? "auto")%string. cbv iota.
    unfold bind at 1. unfold print at 1.
    unfold bind at 1. unfold bind at 1.
    fold negValues D w0. rewrite Efor.
    unfold ret at 1.
    unfold bind at 1, lift at 1. fold tables.
    rewrite pd_concat_nonempty
      by (intros E; apply map_eq_nil in E; exact (Hne E)).
    unfold bind at 1, lift at 1.
    rewrite pd_concat_nonempty
      by (intros E; apply map_eq_nil in E; exact (Hne E)).
    unfold ret. unfold advance, w0; simpl. reflexivity.
  - destruct Hok as [Hids _]. cbn [fst snd] in Hids.
    rewrite <- (length_map fst), Hids, length_map. exact Hlen.
Qed.

Lemma pseudogeneStage_auto_witness :
  let exptParameters :=
    mkExptParameters "Auto" 0 0 [("calculate_ave"%string, [3%Z])] in
  let table :=
    mkFrame [("gamma", "Rep1")%string]
      [("g1"%string, [Fin 0]); ("g2"%string, [NaN])] in
  let libraryTable :=
    [mkLibraryRow "g1" (Some "top5"%string) "negative_control" "na" "TTTT";
     mkLibraryRow "g2" (Some "top5"%string) "A2M" "P1" "ACGT";
     mkLibraryRow "g3" (Some "top5"%string) "A2M" "P1" "ACGT";
     mkLibraryRow "g4" (Some "top5"%string) "A2M" "P2" "GGCA"]%string in
  let w := mkWorld [] (fun n => n) 0 in
  exists (pseudoRows : list (guide * list float64)) (pseudoLib : LibraryTable),
    pseudogeneStage exptParameters table table libraryTable w
    = (Ok (mkFrame (columns table) (rows table ++ pseudoRows),
           libraryTable ++ pseudoLib),
       mkWorld
         ["Generating a pseudogene distribution from negative controls"%string]
         (fun n => n) 2)
    /\ 0 < 2
    /\ List.length pseudoRows = 2
    /\ List.length pseudoLib = 2
    /\ pseudo_tables_ok (map snd (rows table)) (pseudoRows, pseudoLib).
Proof.
  intros exptParameters table libraryTable w.
  apply (@pseudogeneStage_auto exptParameters table table libraryTable w).
  - reflexivity.
  - discriminate.
  - discriminate.
  - eexists. split; [right; left; reflexivity | discriminate].
Defined.

Lemma drop_duplicates_In (r : LibraryRow) (l : LibraryTable)
    (seen : list colkey) :
  In r (drop_duplicates seen l) -> In r l.
Proof.
  revert seen. induction l as [| x l IH]; intros seen H; simpl in *;
    [exact H |].
  destruct (existsb (colkey_eqb (gene x, sequence x)) seen).
  - right. eapply IH. exact H.
  - destruct H as [H | H]; [left; exact H | right; eapply IH; exact H].
Qed.

Lemma forM_skipped {A B} (f : A -> M (list B)) (l : list A) (w : World) :
  (forall x, In x l -> f x = ret []) ->
  exists ys, forM l f w = (Ok ys, w) /\ List.concat ys = [].
Proof.
  induction l as [| x l IH]; intros Hf.
  - exists []. split; reflexivity.
  - destruct IH as (ys & Eys & Hys);
      [intros x' H; apply Hf; right; exact H |].
    exists ([] :: ys). split; [| exact Hys].
    simpl. unfold bind at 1. rewrite (Hf x (or_introl eq_refl)).
    unfold ret at 1. unfold bind at 1. rewrite Eys. reflexivity.
Qed.

(** X28.  In the automatic mode a library in which every gene is
    'negative_control' (or that has no row) leaves no gene to imitate: the
    stage prints its first line, draws nothing, and stops on the
    [ValueError] of [pd.concat]. *)
Theorem pseudogeneStage_auto_only_controls (exptParameters : ExptParameters)
    (phenotypeTable negTable : Frame) (libraryTable : LibraryTable) (w : World) :
  Py.lower (generate_pseudogene_dist exptParameters) = "auto"%string ->
  analyses exptParameters <> [] ->
  (forall r, In r libraryTable -> gene r = "negative_control"%string) ->
  pseudogeneStage exptParameters phenotypeTable negTable libraryTable w
  = (Raise (ValueError "No objects to concatenate"),
     mkWorld
       (stdout w
        ++ ["Generating a pseudogene distribution from negative controls"%string])
       (draws w) (drawn w)).
Proof.
  intros Hmode Han Hlib.
  assert (Hoff : (generate_pseudogene_dist exptParameters =? "off")%string = false).
  { apply String.eqb_neq. intros E. rewrite E in Hmode. discriminate. }
  set (negValues := map snd (rows negTable)).
  set (D := drop_duplicates [] libraryTable).
  set (w0 := mkWorld
               (stdout w
                ++ ["Generating a pseudogene distribution from negative controls"%string])
               (draws w) (drawn w)).
  destruct (@forM_skipped _ _
              (fun g : nat * (string * LibraryTable) =>
                 if (fst (snd g) =? "negative_control")%string then ret []
                 else
                   forM (enumerate (groupby transcripts (snd (snd g))))
                        (fun t => auto_transcript negValues (fst g) (fst t)
                                    (snd (snd t))))
              (enumerate (groupby gene D)) w0)
    as (per_gene & Efor & Hempty).
  { intros g Hg.
    assert (Hkey : fst (snd g) = "negative_control"%string).
    { destruct g as [i g]. unfold enumerate in Hg. apply in_combine_r in Hg.
      cbn [fst snd].
      unfold groupby in Hg. apply in_map_iff in Hg.
      destruct Hg as (k & <- & Hk). simpl.
      eapply Permutation_in in Hk; [| apply listsort_perm].
      apply dedup_In in Hk; [| exact String.eqb_eq].
      apply in_map_iff in Hk. destruct Hk as (r & <- & Hr).
      apply Hlib. eapply drop_duplicates_In. exact Hr. }
    rewrite Hkey. reflexivity. }
  unfold pseudogeneStage. rewrite Hoff.
  destruct (analyses exptParameters) as [| a l]; [contradiction |].
  cbn [List.length Nat.ltb Nat.leb negb andb].
  rewrite Hmode. simpl ("auto" =? "manual")%string.
  simpl ("auto" =? "auto")%string. cbv iota.
  unfold bind at 1. unfold print at 1.
  unfold bind at 1. unfold bind at 1.
  fold negValues D w0. rewrite Efor.
  unfold ret at 1. rewrite Hempty. reflexivity.
Qed.

Lemma pseudogeneStage_auto_only_controls_witness :
  let exptParameters :=
    mkExptParameters "AUTO" 0 0 [("calculate_ave"%string, [3%Z])] in
  let table :=
    mkFrame [("gamma", "Rep1")%string]
      [("g1"%string, [Fin 0]); ("g2"%string, [NaN])] in
  let libraryTable :=
    [mkLibraryRow "g1" (Some "top5"%string) "negative_control" "na" "TTTT";
     mkLibraryRow "g2" (Some "top5"%string) "negative_control" "na" "ACGT"]%string in
  pseudogeneStage exptParameters table table libraryTable
    (mkWorld [] (fun n => n) 0)
  = (Raise (ValueError "No objects to concatenate"),
     mkWorld
       ["Generating a pseudogene distribution from negative controls"%string]
       (fun n => n) 0).
Proof.
  intros exptParameters table libraryTable.
  apply (@pseudogeneStage_auto_only_controls exptParameters table table
           libraryTable (mkWorld [] (fun n => n) 0)).
  - reflexivity.
  - discriminate.
  - intros r [<- | [<- | []]]; reflexivity.
Defined.

(** ** C4: averaging the replicates *)

Lemma join_concat (sep : string) (l : list string) :
  Py.join sep l = String.concat sep l.
Proof.
  induction l as [| x l IH]; [reflexivity |].
  destruct l as [| y l]; [reflexivity |].
  change (Py.join sep (x :: y :: l))
    with (x ++ sep ++ Py.join sep (y :: l))%string.
  rewrite IH. reflexivity.
Qed.

(** Two lists in strictly ascending order with the same elements are one
    list. *)
Lemma ascending_unique (l l' : list string) :
  StronglySorted (fun a b => (a <? b)%string = true) l ->
  StronglySorted (fun a b => (a <? b)%string = true) l' ->
  (forall x, In x l <-> In x l') ->
  l = l'.
Proof.
  intros Hs. revert l'. induction Hs as [| a l Hs IH Hf];
    intros l' Hs' Hin.
  - destruct l' as [| b l']; [reflexivity |].
    destruct (proj2 (Hin b) (or_introl eq_refl)).
  - destruct Hs' as [| b l' Hs' Hf'].
    + destruct (proj1 (Hin a) (or_introl eq_refl)).
    + rewrite Forall_forall in Hf, Hf'.
      assert (Hab : a = b).
      { destruct (proj1 (Hin a) (or_introl eq_refl)) as [E | Ha]; [auto |].
        destruct (proj2 (Hin b) (or_introl eq_refl)) as [E | Hb]; [auto |].
        pose proof (string_ltb_trans _ _ _ (Hf _ Hb) (Hf' _ Ha)) as H.
        rewrite string_ltb_irrefl in H. discriminate. }
      subst b. f_equal. apply IH; [exact Hs' |].
      intros x. split; intros Hx.
      * destruct (proj1 (Hin x) (or_intror Hx)) as [E | Hx']; [| exact Hx'].
        subst x. pose proof (Hf _ Hx) as H.
        rewrite string_ltb_irrefl in H. discriminate.
      * destruct (proj2 (Hin x) (or_intror Hx)) as [E | Hx']; [| exact Hx'].
        subst x. pose proof (Hf' _ Hx) as H.
        rewrite string_ltb_irrefl in H. discriminate.
Qed.

(** The replicate list of the program is the list of the replicate ids in
    ascending order. *)
Lemma replicateList_of_spec (counts_file_list : list rawkey)
    (reps : list string) :
  replicate_ids counts_file_list reps ->
  replicateList_of counts_file_list = reps.
Proof.
  intros [Hsorted Hin]. apply ascending_unique; [| exact Hsorted |].
  - apply (@listsort_strictly_sorted string String.ltb).
    + apply string_ltb_trans.
    + apply string_ltb_irrefl.
    + apply string_ltb_total.
    + apply dedup_NoDup. exact String.eqb_eq.
  - intros x. rewrite Hin. unfold replicateList_of, list_set. split.
    + intros H. eapply Permutation_in in H; [| apply listsort_perm].
      apply dedup_In in H; [| exact String.eqb_eq].
      apply in_map_iff in H. destruct H as (t & E & Ht). exists t. auto.
    + intros (t & Ht & E).
      eapply Permutation_in; [symmetry; apply listsort_perm |].
      apply dedup_In; [exact String.eqb_eq |].
      apply in_map_iff. exists t. auto.
Qed.

Lemma same_indexes_of (index : list guide) (c : Series) (cols : list Series) :
  Forall (fun col => map fst col = index) (c :: cols) ->
  Pd.same_indexes (c :: cols) = true.
Proof.
  intros H. apply Forall_cons_iff in H. destruct H as [Hc Hcols]. simpl.
  apply forallb_forall. intros c' Hc'. apply index_eqb_eq.
  rewrite Forall_forall in Hcols. rewrite (Hcols c' Hc'). symmetry. exact Hc.
Qed.

Lemma map_snd_combine_keys {K} (keys : list K) (cols : list Series) :
  List.length cols = List.length keys ->
  map snd (combine keys cols) = cols.
Proof.
  intros H. apply map_snd_combine_eq. symmetry. exact H.
Qed.

Lemma row_at_scores (cols : list Series) (i : nat) (g : guide)
    (xs : list float64) :
  Forall2 (fun col x => nth_error col i = Some (g, x)) cols xs ->
  Pd.row_at i (map (map snd) cols) = xs.
Proof.
  unfold Pd.row_at.
  induction 1 as [| col x cols' xs' Hx _ IH]; simpl; [reflexivity |].
  f_equal; [| exact IH].
  apply (nth_error_nth _ _ NaN). rewrite nth_error_map, Hx. reflexivity.
Qed.

(** The mean of columns that are over one index, guide by guide. *)
Lemma mean_of_columns_index (keys : list colkey) (cols : list Series)
    (index : list guide) :
  cols <> [] ->
  List.length cols = List.length keys ->
  Forall (fun col => map fst col = index) cols ->
  mean_of_columns (combine keys cols)
  = Pd.mean_axis1 index (map (map snd) cols).
Proof.
  intros Hne Hlen Hidx.
  unfold mean_of_columns, frame_index.
  rewrite (@map_snd_combine_keys _ keys cols Hlen).
  destruct cols as [| c cols]; [contradiction |].
  unfold Pd.joint_index, Pd.joint_columns.
  rewrite (same_indexes_of Hidx).
  assert (Hc : map fst c = index) by (apply Forall_cons_iff in Hidx; tauto).
  rewrite Hc. reflexivity.
Qed.

Lemma mean_axis1_index (index : list guide) (columns : list (list float64)) :
  map fst (Pd.mean_axis1 index columns) = index.
Proof.
  unfold Pd.mean_axis1. rewrite map_map. simpl.
  apply (map_snd_combine_eq (seq 0 (List.length index)) index).
  apply length_seq.
Qed.

Lemma mean_axis1_nth (index : list guide) (cols : list Series) (i : nat)
    (g : guide) (xs : list float64) :
  nth_error index i = Some g ->
  Forall2 (fun col x => nth_error col i = Some (g, x)) cols xs ->
  nth_error (Pd.mean_axis1 index (map (map snd) cols)) i
  = Some (g, Np.mean xs).
Proof.
  intros Hi Hxs. unfold Pd.mean_axis1.
  rewrite nth_error_map, (nth_error_enumerated _ 0 _ Hi). simpl.
  do 3 f_equal. apply (@row_at_scores _ _ _ _ Hxs).
Qed.

Lemma mean_is_average (xs : list float64) : is_average xs (Np.mean xs).
Proof.
  split.
  - apply mean_with_NaN.
  - intros rs -> Hne. apply mean_of_Fin. exact Hne.
Qed.

(** C4.  When the replicates are averaged (two replicate ids at least), the
    dict of scores gets, for every phenotype of the condition tuples, a
    column labelled 'ave_' followed by the replicate ids joined by '_'
    (ave_Rep1_Rep2 for Rep1 and Rep2).  With the columns of the phenotype
    one per replicate and over one index, the averaged column is over that
    index and its value for a guide is missing as soon as one of the guide's
    replicate scores is missing, and the arithmetic mean of the scores when
    they are all finite: the scores 0.5 and NaN average to NaN, the scores 1
    and 3 to 2. *)
Theorem averaged_replicates
    (condition_tuples : list (string * string * string))
    (counts_file_list : list rawkey)
    (phenotypeScoreDict : list (colkey * Series)) (phenotype : string)
    (reps : list string) (cols : list Series) (index : list guide) :
  replicate_ids counts_file_list reps ->
  1 < List.length reps ->
  (exists t, In t condition_tuples /\ fst (fst t) = phenotype) ->
  filter (fun c : colkey * Series => (fst (fst c) =? phenotype)%string)
         phenotypeScoreDict
  = combine (map (fun rep => (phenotype, rep)) reps) cols ->
  List.length cols = List.length reps ->
  Forall (fun col => map fst col = index) cols ->
  exists averaged : Series,
    dict_get (phenotype, ("ave_" ++ String.concat "_" reps)%string)
      (averageReplicates (phenotypeList_of condition_tuples)
         (replicateList_of counts_file_list) phenotypeScoreDict)
    = Some averaged
    /\ map fst averaged = index
    /\ forall i g xs,
         nth_error index i = Some g ->
         Forall2 (fun col x => nth_error col i = Some (g, x)) cols xs ->
         exists v, nth_error averaged i = Some (g, v) /\ is_average xs v.
Proof.
  intros Hreps Hlen (t & Ht & Ephen) Hcols Hlencols Hidx.
  rewrite (replicateList_of_spec Hreps).
  assert (Hnd : NoDup (phenotypeList_of condition_tuples))
    by (apply dedup_NoDup; exact String.eqb_eq).
  assert (Hin : In phenotype (phenotypeList_of condition_tuples)).
  { unfold phenotypeList_of, list_set.
    apply dedup_In; [exact String.eqb_eq |].
    apply in_map_iff. exists t. auto. }
  assert (Hne : cols <> []).
  { intros E. rewrite E in Hlencols. simpl in Hlencols. lia. }
  assert (Hlenkeys : List.length cols
                     = List.length (map (fun rep => (phenotype, rep)) reps))
    by (rewrite length_map; exact Hlencols).
  exists (Pd.mean_axis1 index (map (map snd) cols)).
  split; [| split].
  - unfold averageReplicates.
    apply Nat.ltb_lt in Hlen. rewrite Hlen.
    rewrite <- join_concat. fold (ave_label reps).
    rewrite (@averaging_sets_average reps _ _ phenotypeScoreDict Hnd Hin).
    f_equal. unfold replicate_columns.
    transitivity (mean_of_columns
                    (combine (map (fun rep => (phenotype, rep)) reps) cols)).
    + f_equal. exact Hcols.
    + apply mean_of_columns_index; assumption.
  - apply mean_axis1_index.
  - intros i g xs Hi Hxs. exists (Np.mean xs). split.
    + apply mean_axis1_nth; assumption.
    + apply mean_is_average.
Qed.

Lemma averaged_replicates_witness :
  let d := [(("gamma", "Rep1")%string,
             [("g1"%string, Fin (1 / 2)); ("g2"%string, Fin 1)]);
            (("gamma", "Rep2")%string,
             [("g1"%string, NaN); ("g2"%string, Fin 3)])] in
  let condition_tuples := [("gamma", "T0", "untreated")%string] in
  let counts_file_list :=
    [("T0", "Rep2", "a.counts")%string; ("T0", "Rep1", "b.counts")%string;
     ("untreated", "Rep1", "c.counts")%string] in
  exists averaged : Series,
    dict_get ("gamma", "ave_Rep1_Rep2")%string
      (averageReplicates (phenotypeList_of condition_tuples)
         (replicateList_of counts_file_list) d)
    = Some averaged
    /\ map fst averaged = ["g1"; "g2"]%string
    /\ nth_error averaged 0 = Some ("g1"%string, NaN)
    /\ nth_error averaged 1 = Some ("g2"%string, Fin 2).
Proof.
  intros d condition_tuples counts_file_list.
  destruct (@averaged_replicates condition_tuples counts_file_list d
              "gamma"%string ["Rep1"; "Rep2"]%string
              [[("g1"%string, Fin (1 / 2)); ("g2"%string, Fin 1)];
               [("g1"%string, NaN); ("g2"%string, Fin 3)]]
              ["g1"; "g2"]%string)
    as (averaged & Hget & Hindex & Hvalues).
  - split.
    + repeat constructor.
    + intros r. split.
      * intros [<- | [<- | []]];
          [exists ("T0", "Rep1", "b.counts")%string
          | exists ("T0", "Rep2", "a.counts")%string];
          simpl; auto.
      * intros (t & [<- | [<- | [<- | []]]] & <-); simpl; auto.
  - simpl. lia.
  - eexists. split; [left; reflexivity | reflexivity].
  - reflexivity.
  - reflexivity.
  - repeat constructor.
  - exists averaged. split; [exact Hget |]. split; [exact Hindex |]. split.
    + destruct (Hvalues 0 "g1"%string [Fin (1 / 2); NaN] eq_refl)
        as (v & Hv & Hnan & _); [repeat constructor |].
      rewrite Hv, Hnan; [reflexivity | right; left; reflexivity].
    + destruct (Hvalues 1 "g2"%string [Fin 1; Fin 3] eq_refl)
        as (v & Hv & _ & Hfin); [repeat constructor |].
      rewrite Hv, (Hfin [1; 3]%R eq_refl) by discriminate.
      do 3 f_equal. simpl. field.
Defined.
